(** * The UDP transport endpoint of the userspace network stack

    A shallow embedding of [pkg/tcpip/transport/udp/endpoint.go]: the
    endpoint record, its lifecycle operations, the send path ([write],
    [sendUDP]) and the receive path ([HandlePacket], [Read]), followed by
    the properties of the endpoint that the specification states.

    The endpoint's three locks are not modelled: every operation below is
    the sequential behaviour of one call. *)

From Stdlib Require Import ZArith List Bool Lia.
From Stdlib.Strings Require Import Byte.
Import ListNotations.
Local Open Scope Z_scope.

(** ** Go machine integers

    Values are carried as [Z]; a conversion to a fixed-width type keeps the
    low bits, as the hardware does. *)

Definition uint8 (v : Z) : Z := Z.land v 0xff.
Definition uint16 (v : Z) : Z := Z.land v 0xffff.
Definition uint32 (v : Z) : Z := Z.land v 0xffffffff.
Definition uint64 (v : Z) : Z := Z.land v 0xffffffffffffffff.

(** Go's [int] on the 64-bit targets the stack is built for: two's
    complement wrap-around of the mathematical result. *)
Definition int (v : Z) : Z := uint64 (v + 2 ^ 63) - 2 ^ 63.

Definition maxInt : Z := 2 ^ 63 - 1.

(** Complement of a 16-bit word ([^x] at type uint16). *)
Definition not16 (x : Z) : Z := Z.lxor (uint16 x) 0xffff.

Definition byteZ (b : byte) : Z := Z.of_N (Byte.to_N b).

Definition byteOf (v : Z) : byte :=
  match Byte.of_N (Z.to_N (uint8 v)) with
  | Some b => b
  | None => x00
  end.

(** ** Run-time panics

    A Go call either returns or panics (index out of range, explicit
    [panic]).  [Res] is the error monad that threads this through. *)

Inductive Res (A : Type) : Type :=
| Ret (a : A)
| Panicked.
Arguments Ret {A} a.
Arguments Panicked {A}.

Definition bind {A B : Type} (c : Res A) (k : A -> Res B) : Res B :=
  match c with
  | Ret a => k a
  | Panicked => Panicked
  end.

Notation "x <- c ;; k" := (bind c (fun x => k))
  (at level 61, c at next level, right associativity).

(** ** Package buffer *)

Module buffer.

(** A [View] is a byte slice. *)
Definition View : Type := list byte.

(** Modelled from the spec: the buffer package is outside the source tree.
    A [VectorisedView] is "a vectorised payload view": a sequence of views
    whose [Size] is the total number of bytes. *)
Definition VectorisedView : Type := list View.

Definition len (v : View) : Z := Z.of_nat (length v).

Fixpoint Size (vv : VectorisedView) : Z :=
  match vv with
  | [] => 0
  | v :: rest => len v + Size rest
  end.

Definition Views (vv : VectorisedView) : list View := vv.

Definition ToView (vv : VectorisedView) : View := concat vv.

Definition ToVectorisedView (v : View) : VectorisedView := [v].

(** The loop of [VectorisedView.CapLength]: keep the first [length] bytes. *)
Fixpoint capViews (views : list View) (length : Z) : list View :=
  match views with
  | [] => []
  | v :: rest =>
      if length <=? len v
      then (if length =? 0 then [] else [firstn (Z.to_nat length) v])
      else v :: capViews rest (length - len v)
  end.

Definition CapLength (vv : VectorisedView) (length : Z) : VectorisedView :=
  let length := if length <? 0 then 0 else length in
  if Size vv <? length then vv else capViews vv length.

End buffer.

(** ** Package tcpip *)

Module tcpip.

(** An address is a Go string of raw bytes; the empty string is "no
    address". *)
Definition Address : Type := list byte.
Definition NICID : Type := Z.
Definition NetworkProtocolNumber : Type := Z.
Definition TransportProtocolNumber : Type := Z.

Definition Address_eqb (a b : Address) : bool :=
  if list_eq_dec Byte.byte_eq_dec a b then true else false.

Inductive Error : Type :=
| ErrWouldBlock
| ErrClosedForReceive
| ErrClosedForSend
| ErrDestinationRequired
| ErrInvalidEndpointState
| ErrInvalidOptionValue
| ErrMessageTooLong
| ErrNoRoute
| ErrBroadcastDisabled
| ErrNetworkUnreachable
| ErrNoLinkAddress
| ErrBadLocalAddress
| ErrUnknownDevice
| ErrPortInUse
| ErrNotConnected
| ErrNotSupported
| ErrUnknownProtocolOption
| ErrConnectionRefused
| ErrNoPortAvailable
| ErrUnknownNICID
| ErrNoBufferSpace.

Record FullAddress : Type := {
  NIC : NICID;
  Addr : Address;
  Port : Z
}.

Definition FullAddress_zero : FullAddress :=
  {| NIC := 0; Addr := []; Port := 0 |}.

Record IPPacketInfo : Type := {
  PI_NIC : NICID;
  LocalAddr : Address;
  DestinationAddr : Address
}.

Definition IPPacketInfo_zero : IPPacketInfo :=
  {| PI_NIC := 0; LocalAddr := []; DestinationAddr := [] |}.

Record ControlMessages : Type := {
  HasTimestamp : bool;
  Timestamp : Z;
  HasTOS : bool;
  TOS : Z;
  HasTClass : bool;
  TClass : Z;
  HasIPPacketInfo : bool;
  PacketInfo : IPPacketInfo;
  HasOriginalDstAddress : bool;
  OriginalDstAddress : FullAddress
}.

Definition ControlMessages_zero : ControlMessages :=
  {| HasTimestamp := false; Timestamp := 0; HasTOS := false; TOS := 0;
     HasTClass := false; TClass := 0; HasIPPacketInfo := false;
     PacketInfo := IPPacketInfo_zero; HasOriginalDstAddress := false;
     OriginalDstAddress := FullAddress_zero |}.

(** Shutdown flags are bits of an int. *)
Definition ShutdownFlags : Type := Z.
Definition ShutdownRead : ShutdownFlags := 1.
Definition ShutdownWrite : ShutdownFlags := 2.

Inductive SockOptInt : Type :=
| KeepaliveCountOption
| IPv4TOSOption
| IPv6TrafficClassOption
| MaxSegOption
| MTUDiscoverOption
| MulticastTTLOption
| ReceiveQueueSizeOption
| SendBufferSizeOption
| ReceiveBufferSizeOption
| SendQueueSizeOption
| TTLOption
| TCPSynCountOption
| TCPWindowClampOption.

Definition PMTUDiscoveryWant : Z := 0.
Definition PMTUDiscoveryDont : Z := 1.

(** Modelled from the spec: the socket-level options holder is an external
    collaborator; the endpoint only calls its getters ("getters for
    v6-only, broadcast, multicast-loop, receive-TOS, receive-TClass,
    receive-packet-info, receive-original-dst, no-checksum"). *)
Record SocketOptions : Type := {
  GetBroadcast : bool;
  GetV6Only : bool;
  GetMulticastLoop : bool;
  GetReceiveTOS : bool;
  GetReceiveTClass : bool;
  GetReceivePacketInfo : bool;
  GetReceiveOriginalDstAddress : bool;
  GetNoChecksum : bool
}.

(** A [Payloader] is used through [FullPayload] only; it is carried as the
    pair that call returns. *)
Record Payloader : Type := {
  FullPayload : buffer.View * option Error
}.

Record WriteOptions : Type := {
  To : option FullAddress;
  More : bool
}.

(** Counters are uint64 words bumped with an atomic add. *)
Definition Increment (c : Z) : Z := uint64 (c + 1).

End tcpip.

(** ** Package waiter *)

Module waiter.

(** Modelled from the spec: the waiter package is outside the source tree.
    An event mask is a set of bits; the bits are the poll(2) ones. *)
Definition EventMask : Type := Z.
Definition EventIn : EventMask := 0x01.
Definition EventPri : EventMask := 0x02.
Definition EventOut : EventMask := 0x04.
Definition EventErr : EventMask := 0x08.
Definition EventHUp : EventMask := 0x10.

End waiter.

(** ** Package ports *)

Module ports.

Record Flags : Type := {
  MostRecent : bool;
  LoadBalanced : bool;
  TupleOnly : bool
}.

Definition Flags_zero : Flags :=
  {| MostRecent := false; LoadBalanced := false; TupleOnly := false |}.

End ports.

(** ** Package header: wire formats and the Internet checksum *)

Module header.

Definition UDPMinimumSize : Z := 8.
Definition UDPMaximumPacketSize : Z := 0xffff.
Definition UDPProtocolNumber : tcpip.TransportProtocolNumber := 17.
Definition IPv4ProtocolNumber : tcpip.NetworkProtocolNumber := 0x0800.
Definition IPv6ProtocolNumber : tcpip.NetworkProtocolNumber := 0x86dd.

Definition IPv4Any : tcpip.Address := [x00; x00; x00; x00].
Definition IPv4Broadcast : tcpip.Address := [xff; xff; xff; xff].

Definition IsV4MulticastAddress (addr : tcpip.Address) : bool :=
  match addr with
  | [b0; _; _; _] => Z.land (byteZ b0) 0xf0 =? 0xe0
  | _ => false
  end.

Definition IsV6MulticastAddress (addr : tcpip.Address) : bool :=
  (length addr =? 16)%nat &&
  match addr with
  | b0 :: _ => byteZ b0 =? 0xff
  | [] => false
  end.

(** [binary.BigEndian.Uint16]: panics on fewer than two bytes. *)
Definition Uint16 (b : buffer.View) : Res Z :=
  match b with
  | b0 :: b1 :: _ => Ret (Z.lor (Z.shiftl (byteZ b0) 8) (byteZ b1))
  | _ => Panicked
  end.

(** The two bytes [binary.BigEndian.PutUint16] stores. *)
Definition PutUint16 (v : Z) : buffer.View :=
  [byteOf (Z.shiftr v 8); byteOf v].

(** [binary.BigEndian.PutUint16(b[off:], v)]: the slice with bytes [off]
    and [off+1] overwritten; panics when they are out of range. *)
Definition PutUint16At (b : buffer.View) (off : nat) (v : Z) : Res buffer.View :=
  if (off + 2 <=? length b)%nat
  then Ret (firstn off b ++ PutUint16 v ++ skipn (off + 2) b)
  else Panicked.

(** Modelled from the spec: the checksum helpers of the header package are
    outside the source tree.  The spec's "checksum over pseudo-header + UDP
    header + payload", "matching RFC 768 (IPv4) and RFC 2460 section 8.1 (IPv6)",
    is the Internet checksum of RFC 1071: the one's-complement sum of the
    big-endian 16-bit words, an odd last byte padded with zero; the sum is
    accumulated in a uint32 and folded with end-around carry. *)
Fixpoint calculateChecksum_acc (buf : buffer.View) (v : Z) : Z :=
  match buf with
  | b0 :: b1 :: rest =>
      calculateChecksum_acc rest (uint32 (v + (Z.shiftl (byteZ b0) 8 + byteZ b1)))
  | [b0] => uint32 (v + Z.shiftl (byteZ b0) 8)
  | [] => v
  end.

(** Adds two 16-bit words and the carry. *)
Definition ChecksumCombine (a b : Z) : Z :=
  let v := uint32 (a + b) in
  uint16 (uint32 (v + Z.shiftr v 16)).

Definition Checksum (buf : buffer.View) (initial : Z) : Z :=
  let v := calculateChecksum_acc buf (uint32 initial) in
  ChecksumCombine (uint16 v) (uint16 (Z.shiftr v 16)).

Definition PseudoHeaderChecksum (protocol : tcpip.TransportProtocolNumber)
    (srcAddr dstAddr : tcpip.Address) (totalLen : Z) : Z :=
  let xsum := Checksum srcAddr 0 in
  let xsum := Checksum dstAddr xsum in
  let xsum := Checksum (PutUint16 totalLen) xsum in
  Checksum [x00; byteOf protocol] xsum.

(** *** The UDP header: src port, dst port, length, checksum *)

Definition UDP : Type := buffer.View.

Record UDPFields : Type := {
  SrcPort : Z;
  DstPort : Z;
  Length : Z;
  Checksum_ : Z
}.

Definition udpSrcPort : nat := 0.
Definition udpDstPort : nat := 2.
Definition udpLength : nat := 4.
Definition udpChecksum : nat := 6.

Definition UDP_SourcePort (b : UDP) : Res Z := Uint16 (skipn udpSrcPort b).
Definition UDP_DestinationPort (b : UDP) : Res Z := Uint16 (skipn udpDstPort b).
Definition UDP_Length (b : UDP) : Res Z := Uint16 (skipn udpLength b).
Definition UDP_Checksum (b : UDP) : Res Z := Uint16 (skipn udpChecksum b).

(** [Length() - UDPMinimumSize] at type uint16. *)
Definition UDP_PayloadLength (b : UDP) : Res Z :=
  l <- UDP_Length b ;; Ret (uint16 (l - UDPMinimumSize)).

Definition UDP_SetChecksum (b : UDP) (checksum : Z) : Res UDP :=
  PutUint16At b udpChecksum checksum.

Definition UDP_Encode (b : UDP) (u : UDPFields) : Res UDP :=
  b <- PutUint16At b udpSrcPort (SrcPort u) ;;
  b <- PutUint16At b udpDstPort (DstPort u) ;;
  b <- PutUint16At b udpLength (Length u) ;;
  PutUint16At b udpChecksum (Checksum_ u).

(** Checksum of the eight header bytes on top of [partialChecksum]. *)
Definition UDP_CalculateChecksum (b : UDP) (partialChecksum : Z) : Res Z :=
  if (8 <=? length b)%nat
  then Ret (Checksum (firstn 8 b) partialChecksum)
  else Panicked.

End header.

(** ** Package stack: what the endpoint uses of the host stack *)

Module stack.

Record TransportEndpointID : Type := {
  LocalPort : Z;
  LocalAddress : tcpip.Address;
  RemotePort : Z;
  RemoteAddress : tcpip.Address
}.

Definition TransportEndpointID_zero : TransportEndpointID :=
  {| LocalPort := 0; LocalAddress := []; RemotePort := 0; RemoteAddress := [] |}.

Record TransportEndpointInfo : Type := {
  NetProto : tcpip.NetworkProtocolNumber;
  TransProto : tcpip.TransportProtocolNumber;
  ID : TransportEndpointID;
  BindNICID : tcpip.NICID;
  BindAddr : tcpip.Address;
  RegisterNICID : tcpip.NICID
}.

(** Modelled from the spec: a route is "an opaque handle representing a
    path to a destination, owned by the network layer".  Its public fields
    ([LocalAddress], [RemoteAddress], [NetProto]) and the answers of its
    query methods are carried as fields of the value. *)
Record Route : Type := {
  Route_NICID : tcpip.NICID;
  Route_LocalAddress : tcpip.Address;
  Route_RemoteAddress : tcpip.Address;
  Route_NetProto : tcpip.NetworkProtocolNumber;
  Route_MaxHeaderLength : Z;
  Route_DefaultTTL : Z;
  Route_IsOutboundBroadcast : bool;
  Route_IsResolutionRequired : bool;
  Route_RequiresTXTransportChecksum : bool
}.

Definition Route_PseudoHeaderChecksum (r : Route)
    (protocol : tcpip.TransportProtocolNumber) (totalLen : Z) : Z :=
  header.PseudoHeaderChecksum protocol (Route_LocalAddress r)
    (Route_RemoteAddress r) totalLen.

(** Modelled from the spec: the fields of the network header the endpoint
    reads through [pkt.Network()] and [TOS()]: source and destination
    address and the IPv4 ToS / IPv6 traffic-class byte. *)
Record Network : Type := {
  SourceAddress : tcpip.Address;
  DestinationAddress : tcpip.Address;
  Network_TOS : Z
}.

Definition Network_zero : Network :=
  {| SourceAddress := []; DestinationAddress := []; Network_TOS := 0 |}.

Record PacketBuffer : Type := {
  Owner : Z;
  NICID : tcpip.NICID;
  NetworkProtocolNumber : tcpip.NetworkProtocolNumber;
  TransportProtocolNumber : tcpip.TransportProtocolNumber;
  RXTransportChecksumValidated : bool;
  NetworkHeader : Network;
  TransportHeader : buffer.View;
  Data : buffer.VectorisedView
}.

Definition set_Data (pkt : PacketBuffer) (d : buffer.VectorisedView) : PacketBuffer :=
  {| Owner := Owner pkt; NICID := NICID pkt;
     NetworkProtocolNumber := NetworkProtocolNumber pkt;
     TransportProtocolNumber := TransportProtocolNumber pkt;
     RXTransportChecksumValidated := RXTransportChecksumValidated pkt;
     NetworkHeader := NetworkHeader pkt;
     TransportHeader := TransportHeader pkt; Data := d |}.

(** [pkt.Network()]: the network header seen through the packet's network
    protocol; panics on a protocol that is neither IPv4 nor IPv6. *)
Definition PacketBuffer_Network (pkt : PacketBuffer) : Res Network :=
  if (NetworkProtocolNumber pkt =? header.IPv4ProtocolNumber)
     || (NetworkProtocolNumber pkt =? header.IPv6ProtocolNumber)
  then Ret (NetworkHeader pkt)
  else Panicked.

Record NetworkHeaderParams : Type := {
  Protocol : tcpip.TransportProtocolNumber;
  TTL : Z;
  NHP_TOS : Z
}.

Inductive ControlType : Type :=
| ControlPacketTooBig
| ControlPortUnreachable
| ControlUnknown.

(** The stack-wide UDP counters the endpoint bumps. *)
Inductive UDPStat : Type :=
| UDP_PacketsReceived
| UDP_ReceiveBufferErrors
| UDP_MalformedPacketsReceived
| UDP_PacketsSent
| UDP_PacketSendErrors
| UDP_ChecksumErrors.

Definition UDPStat_eqb (a b : UDPStat) : bool :=
  match a, b with
  | UDP_PacketsReceived, UDP_PacketsReceived
  | UDP_ReceiveBufferErrors, UDP_ReceiveBufferErrors
  | UDP_MalformedPacketsReceived, UDP_MalformedPacketsReceived
  | UDP_PacketsSent, UDP_PacketsSent
  | UDP_PacketSendErrors, UDP_PacketSendErrors
  | UDP_ChecksumErrors, UDP_ChecksumErrors => true
  | _, _ => false
  end.

(** A resolution channel is known by its identity only. *)
Definition Chan : Type := Z.

(** Modelled from the spec: the host stack is an external collaborator,
    "specified only by the interfaces the core uses" (the Stack and Route
    interfaces).  [Sigma] is the stack's own state (port reservations, the
    transport-endpoint registry, route references, the clock, the wire);
    every operation that may change it returns the new state. *)
Class Ops (Sigma : Type) : Type := {
  (** [Option(&ReceiveBufferSizeOption)]: (Min, Default, Max), or an error *)
  ReceiveBufferSizeOption : Sigma -> option (Z * Z * Z);
  SendBufferSizeOption : Sigma -> option (Z * Z * Z);
  CheckNIC : Sigma -> tcpip.NICID -> bool;
  HasNIC : Sigma -> tcpip.NICID -> bool;
  CheckLocalAddress :
    Sigma -> tcpip.NICID -> tcpip.NetworkProtocolNumber -> tcpip.Address -> tcpip.NICID;
  IsSubnetBroadcast :
    Sigma -> tcpip.NICID -> tcpip.NetworkProtocolNumber -> tcpip.Address -> bool;
  (** [TransportEndpointInfo.AddrNetProtoLocked(addr, v6only)] *)
  AddrNetProtoLocked :
    TransportEndpointInfo -> tcpip.FullAddress -> bool ->
    tcpip.FullAddress * tcpip.NetworkProtocolNumber * option tcpip.Error;
  FindRoute :
    Sigma -> tcpip.NICID -> tcpip.Address -> tcpip.Address ->
    tcpip.NetworkProtocolNumber -> bool -> (Route + tcpip.Error) * Sigma;
  ReservePort :
    Sigma -> list tcpip.NetworkProtocolNumber -> tcpip.TransportProtocolNumber ->
    tcpip.Address -> Z -> ports.Flags -> tcpip.NICID -> tcpip.FullAddress ->
    Z * option tcpip.Error * Sigma;
  ReleasePort :
    Sigma -> list tcpip.NetworkProtocolNumber -> tcpip.TransportProtocolNumber ->
    tcpip.Address -> Z -> ports.Flags -> tcpip.NICID -> tcpip.FullAddress -> Sigma;
  (** the endpoint is named by its unique id *)
  RegisterTransportEndpoint :
    Sigma -> tcpip.NICID -> list tcpip.NetworkProtocolNumber ->
    tcpip.TransportProtocolNumber -> TransportEndpointID -> Z ->
    ports.Flags -> tcpip.NICID -> option tcpip.Error * Sigma;
  UnregisterTransportEndpoint :
    Sigma -> tcpip.NICID -> list tcpip.NetworkProtocolNumber ->
    tcpip.TransportProtocolNumber -> TransportEndpointID -> Z ->
    ports.Flags -> tcpip.NICID -> Sigma;
  NowNanoseconds : Sigma -> Z;
  Route_Clone : Sigma -> Route -> Route * Sigma;
  Route_Release : Sigma -> Route -> Sigma;
  Route_Resolve : Sigma -> Route -> option Chan * option tcpip.Error * Sigma;
  Route_WritePacket :
    Sigma -> Route -> NetworkHeaderParams -> PacketBuffer -> option tcpip.Error * Sigma
}.

(** The stack as the endpoint holds it: its state and its UDP counters. *)
Record Stack (Sigma : Type) : Type := {
  net : Sigma;
  Stats_UDP : UDPStat -> Z
}.
Arguments net {Sigma} s.
Arguments Stats_UDP {Sigma} s c.

Definition set_net {Sigma : Type} (s : Stack Sigma) (n : Sigma) : Stack Sigma :=
  {| net := n; Stats_UDP := Stats_UDP s |}.

Definition Stats_Increment {Sigma : Type} (s : Stack Sigma) (c : UDPStat) : Stack Sigma :=
  {| net := net s;
     Stats_UDP := fun c' =>
       if UDPStat_eqb c c' then tcpip.Increment (Stats_UDP s c') else Stats_UDP s c' |}.

End stack.

(** ** Package udp: the endpoint *)

Definition ProtocolNumber : tcpip.TransportProtocolNumber := header.UDPProtocolNumber.

Record udpPacket : Type := {
  senderAddress : tcpip.FullAddress;
  destinationAddress : tcpip.FullAddress;
  packetInfo : tcpip.IPPacketInfo;
  data : buffer.VectorisedView;
  timestamp : Z;
  (** tos stores either the receiveTOS or receiveTClass value. *)
  tos : Z
}.

(** The intrusive list of received packets, front first. *)
Definition udpPacketList : Type := list udpPacket.

Inductive EndpointState : Type :=
| StateInitial
| StateBound
| StateConnected
| StateClosed.

Record multicastMembership : Type := {
  nicID : tcpip.NICID;
  multicastAddr_ : tcpip.Address
}.

(** The per-endpoint counters ([tcpip.TransportEndpointStats]). *)
Inductive EndpointStat : Type :=
| PacketsReceived
| PacketsSent
| ReceiveErrors_ReceiveBufferOverflow
| ReceiveErrors_MalformedPacketsReceived
| ReceiveErrors_ClosedReceiver
| ReceiveErrors_ChecksumErrors
| ReadErrors_ReadClosed
| SendErrors_SendToNetworkFailed
| SendErrors_NoRoute
| SendErrors_NoLinkAddr
| WriteErrors_WriteClosed
| WriteErrors_InvalidEndpointState
| WriteErrors_InvalidArgs.

Definition EndpointStat_eqb (a b : EndpointStat) : bool :=
  match a, b with
  | PacketsReceived, PacketsReceived
  | PacketsSent, PacketsSent
  | ReceiveErrors_ReceiveBufferOverflow, ReceiveErrors_ReceiveBufferOverflow
  | ReceiveErrors_MalformedPacketsReceived, ReceiveErrors_MalformedPacketsReceived
  | ReceiveErrors_ClosedReceiver, ReceiveErrors_ClosedReceiver
  | ReceiveErrors_ChecksumErrors, ReceiveErrors_ChecksumErrors
  | ReadErrors_ReadClosed, ReadErrors_ReadClosed
  | SendErrors_SendToNetworkFailed, SendErrors_SendToNetworkFailed
  | SendErrors_NoRoute, SendErrors_NoRoute
  | SendErrors_NoLinkAddr, SendErrors_NoLinkAddr
  | WriteErrors_WriteClosed, WriteErrors_WriteClosed
  | WriteErrors_InvalidEndpointState, WriteErrors_InvalidEndpointState
  | WriteErrors_InvalidArgs, WriteErrors_InvalidArgs => true
  | _, _ => false
  end.

(** Modelled from the spec: the waiter queue is an external collaborator
    used through [Notify(eventMask)] only; it is carried as the masks
    notified so far, oldest first. *)
Definition waiter_Queue : Type := list waiter.EventMask.

Section Endpoint.

Context {Sigma : Type} {StackOps : stack.Ops Sigma}.

Record endpoint : Type := {
  TransportEndpointInfo_ : stack.TransportEndpointInfo;
  stack_ : stack.Stack Sigma;
  waiterQueue : waiter_Queue;
  uniqueID : Z;
  rcvReady : bool;
  rcvList : udpPacketList;
  rcvBufSizeMax : Z;
  rcvBufSize : Z;
  rcvClosed : bool;
  sndBufSize : Z;
  sndBufSizeMax : Z;
  state : EndpointState;
  route : option stack.Route;
  dstPort : Z;
  ttl : Z;
  multicastTTL : Z;
  multicastAddr : tcpip.Address;
  multicastNICID : tcpip.NICID;
  portFlags : ports.Flags;
  bindToDevice : tcpip.NICID;
  lastError : option tcpip.Error;
  boundBindToDevice : tcpip.NICID;
  boundPortFlags : ports.Flags;
  sendTOS : Z;
  shutdownFlags : tcpip.ShutdownFlags;
  multicastMemberships : list multicastMembership;
  effectiveNetProtos : list tcpip.NetworkProtocolNumber;
  stats : EndpointStat -> Z;
  owner : Z;
  ops : tcpip.SocketOptions
}.

(** Field updates ([e.f = v]). *)

Definition set_TransportEndpointInfo (e : endpoint) (v : stack.TransportEndpointInfo) : endpoint :=
  {| TransportEndpointInfo_ := v; stack_ := stack_ e;
     waiterQueue := waiterQueue e; uniqueID := uniqueID e;
     rcvReady := rcvReady e; rcvList := rcvList e;
     rcvBufSizeMax := rcvBufSizeMax e; rcvBufSize := rcvBufSize e;
     rcvClosed := rcvClosed e; sndBufSize := sndBufSize e;
     sndBufSizeMax := sndBufSizeMax e; state := state e; route := route e;
     dstPort := dstPort e; ttl := ttl e; multicastTTL := multicastTTL e;
     multicastAddr := multicastAddr e; multicastNICID := multicastNICID e;
     portFlags := portFlags e; bindToDevice := bindToDevice e;
     lastError := lastError e; boundBindToDevice := boundBindToDevice e;
     boundPortFlags := boundPortFlags e; sendTOS := sendTOS e;
     shutdownFlags := shutdownFlags e;
     multicastMemberships := multicastMemberships e;
     effectiveNetProtos := effectiveNetProtos e; stats := stats e;
     owner := owner e; ops := ops e |}.

Definition set_stack (e : endpoint) (v : stack.Stack Sigma) : endpoint :=
  {| TransportEndpointInfo_ := TransportEndpointInfo_ e; stack_ := v;
     waiterQueue := waiterQueue e; uniqueID := uniqueID e;
     rcvReady := rcvReady e; rcvList := rcvList e;
     rcvBufSizeMax := rcvBufSizeMax e; rcvBufSize := rcvBufSize e;
     rcvClosed := rcvClosed e; sndBufSize := sndBufSize e;
     sndBufSizeMax := sndBufSizeMax e; state := state e; route := route e;
     dstPort := dstPort e; ttl := ttl e; multicastTTL := multicastTTL e;
     multicastAddr := multicastAddr e; multicastNICID := multicastNICID e;
     portFlags := portFlags e; bindToDevice := bindToDevice e;
     lastError := lastError e; boundBindToDevice := boundBindToDevice e;
     boundPortFlags := boundPortFlags e; sendTOS := sendTOS e;
     shutdownFlags := shutdownFlags e;
     multicastMemberships := multicastMemberships e;
     effectiveNetProtos := effectiveNetProtos e; stats := stats e;
     owner := owner e; ops := ops e |}.

Definition set_waiterQueue (e : endpoint) (v : waiter_Queue) : endpoint :=
  {| TransportEndpointInfo_ := TransportEndpointInfo_ e; stack_ := stack_ e;
     waiterQueue := v; uniqueID := uniqueID e; rcvReady := rcvReady e;
     rcvList := rcvList e; rcvBufSizeMax := rcvBufSizeMax e;
     rcvBufSize := rcvBufSize e; rcvClosed := rcvClosed e;
     sndBufSize := sndBufSize e; sndBufSizeMax := sndBufSizeMax e;
     state := state e; route := route e; dstPort := dstPort e; ttl := ttl e;
     multicastTTL := multicastTTL e; multicastAddr := multicastAddr e;
     multicastNICID := multicastNICID e; portFlags := portFlags e;
     bindToDevice := bindToDevice e; lastError := lastError e;
     boundBindToDevice := boundBindToDevice e;
     boundPortFlags := boundPortFlags e; sendTOS := sendTOS e;
     shutdownFlags := shutdownFlags e;
     multicastMemberships := multicastMemberships e;
     effectiveNetProtos := effectiveNetProtos e; stats := stats e;
     owner := owner e; ops := ops e |}.

Definition set_rcvReady (e : endpoint) (v : bool) : endpoint :=
  {| TransportEndpointInfo_ := TransportEndpointInfo_ e; stack_ := stack_ e;
     waiterQueue := waiterQueue e; uniqueID := uniqueID e; rcvReady := v;
     rcvList := rcvList e; rcvBufSizeMax := rcvBufSizeMax e;
     rcvBufSize := rcvBufSize e; rcvClosed := rcvClosed e;
     sndBufSize := sndBufSize e; sndBufSizeMax := sndBufSizeMax e;
     state := state e; route := route e; dstPort := dstPort e; ttl := ttl e;
     multicastTTL := multicastTTL e; multicastAddr := multicastAddr e;
     multicastNICID := multicastNICID e; portFlags := portFlags e;
     bindToDevice := bindToDevice e; lastError := lastError e;
     boundBindToDevice := boundBindToDevice e;
     boundPortFlags := boundPortFlags e; sendTOS := sendTOS e;
     shutdownFlags := shutdownFlags e;
     multicastMemberships := multicastMemberships e;
     effectiveNetProtos := effectiveNetProtos e; stats := stats e;
     owner := owner e; ops := ops e |}.

Definition set_rcvList (e : endpoint) (v : udpPacketList) : endpoint :=
  {| TransportEndpointInfo_ := TransportEndpointInfo_ e; stack_ := stack_ e;
     waiterQueue := waiterQueue e; uniqueID := uniqueID e;
     rcvReady := rcvReady e; rcvList := v; rcvBufSizeMax := rcvBufSizeMax e;
     rcvBufSize := rcvBufSize e; rcvClosed := rcvClosed e;
     sndBufSize := sndBufSize e; sndBufSizeMax := sndBufSizeMax e;
     state := state e; route := route e; dstPort := dstPort e; ttl := ttl e;
     multicastTTL := multicastTTL e; multicastAddr := multicastAddr e;
     multicastNICID := multicastNICID e; portFlags := portFlags e;
     bindToDevice := bindToDevice e; lastError := lastError e;
     boundBindToDevice := boundBindToDevice e;
     boundPortFlags := boundPortFlags e; sendTOS := sendTOS e;
     shutdownFlags := shutdownFlags e;
     multicastMemberships := multicastMemberships e;
     effectiveNetProtos := effectiveNetProtos e; stats := stats e;
     owner := owner e; ops := ops e |}.

Definition set_rcvBufSizeMax (e : endpoint) (v : Z) : endpoint :=
  {| TransportEndpointInfo_ := TransportEndpointInfo_ e; stack_ := stack_ e;
     waiterQueue := waiterQueue e; uniqueID := uniqueID e;
     rcvReady := rcvReady e; rcvList := rcvList e; rcvBufSizeMax := v;
     rcvBufSize := rcvBufSize e; rcvClosed := rcvClosed e;
     sndBufSize := sndBufSize e; sndBufSizeMax := sndBufSizeMax e;
     state := state e; route := route e; dstPort := dstPort e; ttl := ttl e;
     multicastTTL := multicastTTL e; multicastAddr := multicastAddr e;
     multicastNICID := multicastNICID e; portFlags := portFlags e;
     bindToDevice := bindToDevice e; lastError := lastError e;
     boundBindToDevice := boundBindToDevice e;
     boundPortFlags := boundPortFlags e; sendTOS := sendTOS e;
     shutdownFlags := shutdownFlags e;
     multicastMemberships := multicastMemberships e;
     effectiveNetProtos := effectiveNetProtos e; stats := stats e;
     owner := owner e; ops := ops e |}.

Definition set_rcvBufSize (e : endpoint) (v : Z) : endpoint :=
  {| TransportEndpointInfo_ := TransportEndpointInfo_ e; stack_ := stack_ e;
     waiterQueue := waiterQueue e; uniqueID := uniqueID e;
     rcvReady := rcvReady e; rcvList := rcvList e;
     rcvBufSizeMax := rcvBufSizeMax e; rcvBufSize := v;
     rcvClosed := rcvClosed e; sndBufSize := sndBufSize e;
     sndBufSizeMax := sndBufSizeMax e; state := state e; route := route e;
     dstPort := dstPort e; ttl := ttl e; multicastTTL := multicastTTL e;
     multicastAddr := multicastAddr e; multicastNICID := multicastNICID e;
     portFlags := portFlags e; bindToDevice := bindToDevice e;
     lastError := lastError e; boundBindToDevice := boundBindToDevice e;
     boundPortFlags := boundPortFlags e; sendTOS := sendTOS e;
     shutdownFlags := shutdownFlags e;
     multicastMemberships := multicastMemberships e;
     effectiveNetProtos := effectiveNetProtos e; stats := stats e;
     owner := owner e; ops := ops e |}.

Definition set_rcvClosed (e : endpoint) (v : bool) : endpoint :=
  {| TransportEndpointInfo_ := TransportEndpointInfo_ e; stack_ := stack_ e;
     waiterQueue := waiterQueue e; uniqueID := uniqueID e;
     rcvReady := rcvReady e; rcvList := rcvList e;
     rcvBufSizeMax := rcvBufSizeMax e; rcvBufSize := rcvBufSize e;
     rcvClosed := v; sndBufSize := sndBufSize e;
     sndBufSizeMax := sndBufSizeMax e; state := state e; route := route e;
     dstPort := dstPort e; ttl := ttl e; multicastTTL := multicastTTL e;
     multicastAddr := multicastAddr e; multicastNICID := multicastNICID e;
     portFlags := portFlags e; bindToDevice := bindToDevice e;
     lastError := lastError e; boundBindToDevice := boundBindToDevice e;
     boundPortFlags := boundPortFlags e; sendTOS := sendTOS e;
     shutdownFlags := shutdownFlags e;
     multicastMemberships := multicastMemberships e;
     effectiveNetProtos := effectiveNetProtos e; stats := stats e;
     owner := owner e; ops := ops e |}.

Definition set_sndBufSizeMax (e : endpoint) (v : Z) : endpoint :=
  {| TransportEndpointInfo_ := TransportEndpointInfo_ e; stack_ := stack_ e;
     waiterQueue := waiterQueue e; uniqueID := uniqueID e;
     rcvReady := rcvReady e; rcvList := rcvList e;
     rcvBufSizeMax := rcvBufSizeMax e; rcvBufSize := rcvBufSize e;
     rcvClosed := rcvClosed e; sndBufSize := sndBufSize e;
     sndBufSizeMax := v; state := state e; route := route e;
     dstPort := dstPort e; ttl := ttl e; multicastTTL := multicastTTL e;
     multicastAddr := multicastAddr e; multicastNICID := multicastNICID e;
     portFlags := portFlags e; bindToDevice := bindToDevice e;
     lastError := lastError e; boundBindToDevice := boundBindToDevice e;
     boundPortFlags := boundPortFlags e; sendTOS := sendTOS e;
     shutdownFlags := shutdownFlags e;
     multicastMemberships := multicastMemberships e;
     effectiveNetProtos := effectiveNetProtos e; stats := stats e;
     owner := owner e; ops := ops e |}.

Definition set_state (e : endpoint) (v : EndpointState) : endpoint :=
  {| TransportEndpointInfo_ := TransportEndpointInfo_ e; stack_ := stack_ e;
     waiterQueue := waiterQueue e; uniqueID := uniqueID e;
     rcvReady := rcvReady e; rcvList := rcvList e;
     rcvBufSizeMax := rcvBufSizeMax e; rcvBufSize := rcvBufSize e;
     rcvClosed := rcvClosed e; sndBufSize := sndBufSize e;
     sndBufSizeMax := sndBufSizeMax e; state := v; route := route e;
     dstPort := dstPort e; ttl := ttl e; multicastTTL := multicastTTL e;
     multicastAddr := multicastAddr e; multicastNICID := multicastNICID e;
     portFlags := portFlags e; bindToDevice := bindToDevice e;
     lastError := lastError e; boundBindToDevice := boundBindToDevice e;
     boundPortFlags := boundPortFlags e; sendTOS := sendTOS e;
     shutdownFlags := shutdownFlags e;
     multicastMemberships := multicastMemberships e;
     effectiveNetProtos := effectiveNetProtos e; stats := stats e;
     owner := owner e; ops := ops e |}.

Definition set_route (e : endpoint) (v : option stack.Route) : endpoint :=
  {| TransportEndpointInfo_ := TransportEndpointInfo_ e; stack_ := stack_ e;
     waiterQueue := waiterQueue e; uniqueID := uniqueID e;
     rcvReady := rcvReady e; rcvList := rcvList e;
     rcvBufSizeMax := rcvBufSizeMax e; rcvBufSize := rcvBufSize e;
     rcvClosed := rcvClosed e; sndBufSize := sndBufSize e;
     sndBufSizeMax := sndBufSizeMax e; state := state e; route := v;
     dstPort := dstPort e; ttl := ttl e; multicastTTL := multicastTTL e;
     multicastAddr := multicastAddr e; multicastNICID := multicastNICID e;
     portFlags := portFlags e; bindToDevice := bindToDevice e;
     lastError := lastError e; boundBindToDevice := boundBindToDevice e;
     boundPortFlags := boundPortFlags e; sendTOS := sendTOS e;
     shutdownFlags := shutdownFlags e;
     multicastMemberships := multicastMemberships e;
     effectiveNetProtos := effectiveNetProtos e; stats := stats e;
     owner := owner e; ops := ops e |}.

Definition set_dstPort (e : endpoint) (v : Z) : endpoint :=
  {| TransportEndpointInfo_ := TransportEndpointInfo_ e; stack_ := stack_ e;
     waiterQueue := waiterQueue e; uniqueID := uniqueID e;
     rcvReady := rcvReady e; rcvList := rcvList e;
     rcvBufSizeMax := rcvBufSizeMax e; rcvBufSize := rcvBufSize e;
     rcvClosed := rcvClosed e; sndBufSize := sndBufSize e;
     sndBufSizeMax := sndBufSizeMax e; state := state e; route := route e;
     dstPort := v; ttl := ttl e; multicastTTL := multicastTTL e;
     multicastAddr := multicastAddr e; multicastNICID := multicastNICID e;
     portFlags := portFlags e; bindToDevice := bindToDevice e;
     lastError := lastError e; boundBindToDevice := boundBindToDevice e;
     boundPortFlags := boundPortFlags e; sendTOS := sendTOS e;
     shutdownFlags := shutdownFlags e;
     multicastMemberships := multicastMemberships e;
     effectiveNetProtos := effectiveNetProtos e; stats := stats e;
     owner := owner e; ops := ops e |}.

Definition set_ttl (e : endpoint) (v : Z) : endpoint :=
  {| TransportEndpointInfo_ := TransportEndpointInfo_ e; stack_ := stack_ e;
     waiterQueue := waiterQueue e; uniqueID := uniqueID e;
     rcvReady := rcvReady e; rcvList := rcvList e;
     rcvBufSizeMax := rcvBufSizeMax e; rcvBufSize := rcvBufSize e;
     rcvClosed := rcvClosed e; sndBufSize := sndBufSize e;
     sndBufSizeMax := sndBufSizeMax e; state := state e; route := route e;
     dstPort := dstPort e; ttl := v; multicastTTL := multicastTTL e;
     multicastAddr := multicastAddr e; multicastNICID := multicastNICID e;
     portFlags := portFlags e; bindToDevice := bindToDevice e;
     lastError := lastError e; boundBindToDevice := boundBindToDevice e;
     boundPortFlags := boundPortFlags e; sendTOS := sendTOS e;
     shutdownFlags := shutdownFlags e;
     multicastMemberships := multicastMemberships e;
     effectiveNetProtos := effectiveNetProtos e; stats := stats e;
     owner := owner e; ops := ops e |}.

Definition set_multicastTTL (e : endpoint) (v : Z) : endpoint :=
  {| TransportEndpointInfo_ := TransportEndpointInfo_ e; stack_ := stack_ e;
     waiterQueue := waiterQueue e; uniqueID := uniqueID e;
     rcvReady := rcvReady e; rcvList := rcvList e;
     rcvBufSizeMax := rcvBufSizeMax e; rcvBufSize := rcvBufSize e;
     rcvClosed := rcvClosed e; sndBufSize := sndBufSize e;
     sndBufSizeMax := sndBufSizeMax e; state := state e; route := route e;
     dstPort := dstPort e; ttl := ttl e; multicastTTL := v;
     multicastAddr := multicastAddr e; multicastNICID := multicastNICID e;
     portFlags := portFlags e; bindToDevice := bindToDevice e;
     lastError := lastError e; boundBindToDevice := boundBindToDevice e;
     boundPortFlags := boundPortFlags e; sendTOS := sendTOS e;
     shutdownFlags := shutdownFlags e;
     multicastMemberships := multicastMemberships e;
     effectiveNetProtos := effectiveNetProtos e; stats := stats e;
     owner := owner e; ops := ops e |}.

Definition set_portFlags (e : endpoint) (v : ports.Flags) : endpoint :=
  {| TransportEndpointInfo_ := TransportEndpointInfo_ e; stack_ := stack_ e;
     waiterQueue := waiterQueue e; uniqueID := uniqueID e;
     rcvReady := rcvReady e; rcvList := rcvList e;
     rcvBufSizeMax := rcvBufSizeMax e; rcvBufSize := rcvBufSize e;
     rcvClosed := rcvClosed e; sndBufSize := sndBufSize e;
     sndBufSizeMax := sndBufSizeMax e; state := state e; route := route e;
     dstPort := dstPort e; ttl := ttl e; multicastTTL := multicastTTL e;
     multicastAddr := multicastAddr e; multicastNICID := multicastNICID e;
     portFlags := v; bindToDevice := bindToDevice e;
     lastError := lastError e; boundBindToDevice := boundBindToDevice e;
     boundPortFlags := boundPortFlags e; sendTOS := sendTOS e;
     shutdownFlags := shutdownFlags e;
     multicastMemberships := multicastMemberships e;
     effectiveNetProtos := effectiveNetProtos e; stats := stats e;
     owner := owner e; ops := ops e |}.

Definition set_lastError (e : endpoint) (v : option tcpip.Error) : endpoint :=
  {| TransportEndpointInfo_ := TransportEndpointInfo_ e; stack_ := stack_ e;
     waiterQueue := waiterQueue e; uniqueID := uniqueID e;
     rcvReady := rcvReady e; rcvList := rcvList e;
     rcvBufSizeMax := rcvBufSizeMax e; rcvBufSize := rcvBufSize e;
     rcvClosed := rcvClosed e; sndBufSize := sndBufSize e;
     sndBufSizeMax := sndBufSizeMax e; state := state e; route := route e;
     dstPort := dstPort e; ttl := ttl e; multicastTTL := multicastTTL e;
     multicastAddr := multicastAddr e; multicastNICID := multicastNICID e;
     portFlags := portFlags e; bindToDevice := bindToDevice e;
     lastError := v; boundBindToDevice := boundBindToDevice e;
     boundPortFlags := boundPortFlags e; sendTOS := sendTOS e;
     shutdownFlags := shutdownFlags e;
     multicastMemberships := multicastMemberships e;
     effectiveNetProtos := effectiveNetProtos e; stats := stats e;
     owner := owner e; ops := ops e |}.

Definition set_boundBindToDevice (e : endpoint) (v : tcpip.NICID) : endpoint :=
  {| TransportEndpointInfo_ := TransportEndpointInfo_ e; stack_ := stack_ e;
     waiterQueue := waiterQueue e; uniqueID := uniqueID e;
     rcvReady := rcvReady e; rcvList := rcvList e;
     rcvBufSizeMax := rcvBufSizeMax e; rcvBufSize := rcvBufSize e;
     rcvClosed := rcvClosed e; sndBufSize := sndBufSize e;
     sndBufSizeMax := sndBufSizeMax e; state := state e; route := route e;
     dstPort := dstPort e; ttl := ttl e; multicastTTL := multicastTTL e;
     multicastAddr := multicastAddr e; multicastNICID := multicastNICID e;
     portFlags := portFlags e; bindToDevice := bindToDevice e;
     lastError := lastError e; boundBindToDevice := v;
     boundPortFlags := boundPortFlags e; sendTOS := sendTOS e;
     shutdownFlags := shutdownFlags e;
     multicastMemberships := multicastMemberships e;
     effectiveNetProtos := effectiveNetProtos e; stats := stats e;
     owner := owner e; ops := ops e |}.

Definition set_boundPortFlags (e : endpoint) (v : ports.Flags) : endpoint :=
  {| TransportEndpointInfo_ := TransportEndpointInfo_ e; stack_ := stack_ e;
     waiterQueue := waiterQueue e; uniqueID := uniqueID e;
     rcvReady := rcvReady e; rcvList := rcvList e;
     rcvBufSizeMax := rcvBufSizeMax e; rcvBufSize := rcvBufSize e;
     rcvClosed := rcvClosed e; sndBufSize := sndBufSize e;
     sndBufSizeMax := sndBufSizeMax e; state := state e; route := route e;
     dstPort := dstPort e; ttl := ttl e; multicastTTL := multicastTTL e;
     multicastAddr := multicastAddr e; multicastNICID := multicastNICID e;
     portFlags := portFlags e; bindToDevice := bindToDevice e;
     lastError := lastError e; boundBindToDevice := boundBindToDevice e;
     boundPortFlags := v; sendTOS := sendTOS e;
     shutdownFlags := shutdownFlags e;
     multicastMemberships := multicastMemberships e;
     effectiveNetProtos := effectiveNetProtos e; stats := stats e;
     owner := owner e; ops := ops e |}.

Definition set_sendTOS (e : endpoint) (v : Z) : endpoint :=
  {| TransportEndpointInfo_ := TransportEndpointInfo_ e; stack_ := stack_ e;
     waiterQueue := waiterQueue e; uniqueID := uniqueID e;
     rcvReady := rcvReady e; rcvList := rcvList e;
     rcvBufSizeMax := rcvBufSizeMax e; rcvBufSize := rcvBufSize e;
     rcvClosed := rcvClosed e; sndBufSize := sndBufSize e;
     sndBufSizeMax := sndBufSizeMax e; state := state e; route := route e;
     dstPort := dstPort e; ttl := ttl e; multicastTTL := multicastTTL e;
     multicastAddr := multicastAddr e; multicastNICID := multicastNICID e;
     portFlags := portFlags e; bindToDevice := bindToDevice e;
     lastError := lastError e; boundBindToDevice := boundBindToDevice e;
     boundPortFlags := boundPortFlags e; sendTOS := v;
     shutdownFlags := shutdownFlags e;
     multicastMemberships := multicastMemberships e;
     effectiveNetProtos := effectiveNetProtos e; stats := stats e;
     owner := owner e; ops := ops e |}.

Definition set_shutdownFlags (e : endpoint) (v : tcpip.ShutdownFlags) : endpoint :=
  {| TransportEndpointInfo_ := TransportEndpointInfo_ e; stack_ := stack_ e;
     waiterQueue := waiterQueue e; uniqueID := uniqueID e;
     rcvReady := rcvReady e; rcvList := rcvList e;
     rcvBufSizeMax := rcvBufSizeMax e; rcvBufSize := rcvBufSize e;
     rcvClosed := rcvClosed e; sndBufSize := sndBufSize e;
     sndBufSizeMax := sndBufSizeMax e; state := state e; route := route e;
     dstPort := dstPort e; ttl := ttl e; multicastTTL := multicastTTL e;
     multicastAddr := multicastAddr e; multicastNICID := multicastNICID e;
     portFlags := portFlags e; bindToDevice := bindToDevice e;
     lastError := lastError e; boundBindToDevice := boundBindToDevice e;
     boundPortFlags := boundPortFlags e; sendTOS := sendTOS e;
     shutdownFlags := v; multicastMemberships := multicastMemberships e;
     effectiveNetProtos := effectiveNetProtos e; stats := stats e;
     owner := owner e; ops := ops e |}.

Definition set_effectiveNetProtos (e : endpoint) (v : list tcpip.NetworkProtocolNumber) : endpoint :=
  {| TransportEndpointInfo_ := TransportEndpointInfo_ e; stack_ := stack_ e;
     waiterQueue := waiterQueue e; uniqueID := uniqueID e;
     rcvReady := rcvReady e; rcvList := rcvList e;
     rcvBufSizeMax := rcvBufSizeMax e; rcvBufSize := rcvBufSize e;
     rcvClosed := rcvClosed e; sndBufSize := sndBufSize e;
     sndBufSizeMax := sndBufSizeMax e; state := state e; route := route e;
     dstPort := dstPort e; ttl := ttl e; multicastTTL := multicastTTL e;
     multicastAddr := multicastAddr e; multicastNICID := multicastNICID e;
     portFlags := portFlags e; bindToDevice := bindToDevice e;
     lastError := lastError e; boundBindToDevice := boundBindToDevice e;
     boundPortFlags := boundPortFlags e; sendTOS := sendTOS e;
     shutdownFlags := shutdownFlags e;
     multicastMemberships := multicastMemberships e; effectiveNetProtos := v;
     stats := stats e; owner := owner e; ops := ops e |}.

Definition set_stats (e : endpoint) (v : EndpointStat -> Z) : endpoint :=
  {| TransportEndpointInfo_ := TransportEndpointInfo_ e; stack_ := stack_ e;
     waiterQueue := waiterQueue e; uniqueID := uniqueID e;
     rcvReady := rcvReady e; rcvList := rcvList e;
     rcvBufSizeMax := rcvBufSizeMax e; rcvBufSize := rcvBufSize e;
     rcvClosed := rcvClosed e; sndBufSize := sndBufSize e;
     sndBufSizeMax := sndBufSizeMax e; state := state e; route := route e;
     dstPort := dstPort e; ttl := ttl e; multicastTTL := multicastTTL e;
     multicastAddr := multicastAddr e; multicastNICID := multicastNICID e;
     portFlags := portFlags e; bindToDevice := bindToDevice e;
     lastError := lastError e; boundBindToDevice := boundBindToDevice e;
     boundPortFlags := boundPortFlags e; sendTOS := sendTOS e;
     shutdownFlags := shutdownFlags e;
     multicastMemberships := multicastMemberships e;
     effectiveNetProtos := effectiveNetProtos e; stats := v;
     owner := owner e; ops := ops e |}.

Definition ID (e : endpoint) : stack.TransportEndpointID :=
  stack.ID (TransportEndpointInfo_ e).
Definition NetProto (e : endpoint) : tcpip.NetworkProtocolNumber :=
  stack.NetProto (TransportEndpointInfo_ e).
Definition BindNICID (e : endpoint) : tcpip.NICID :=
  stack.BindNICID (TransportEndpointInfo_ e).
Definition RegisterNICID (e : endpoint) : tcpip.NICID :=
  stack.RegisterNICID (TransportEndpointInfo_ e).

Definition set_ID (e : endpoint) (id : stack.TransportEndpointID) : endpoint :=
  let i := TransportEndpointInfo_ e in
  set_TransportEndpointInfo e
    {| stack.NetProto := stack.NetProto i; stack.TransProto := stack.TransProto i;
       stack.ID := id; stack.BindNICID := stack.BindNICID i;
       stack.BindAddr := stack.BindAddr i;
       stack.RegisterNICID := stack.RegisterNICID i |}.

Definition set_BindNICID (e : endpoint) (n : tcpip.NICID) : endpoint :=
  let i := TransportEndpointInfo_ e in
  set_TransportEndpointInfo e
    {| stack.NetProto := stack.NetProto i; stack.TransProto := stack.TransProto i;
       stack.ID := stack.ID i; stack.BindNICID := n;
       stack.BindAddr := stack.BindAddr i;
       stack.RegisterNICID := stack.RegisterNICID i |}.

Definition set_RegisterNICID (e : endpoint) (n : tcpip.NICID) : endpoint :=
  let i := TransportEndpointInfo_ e in
  set_TransportEndpointInfo e
    {| stack.NetProto := stack.NetProto i; stack.TransProto := stack.TransProto i;
       stack.ID := stack.ID i; stack.BindNICID := stack.BindNICID i;
       stack.BindAddr := stack.BindAddr i; stack.RegisterNICID := n |}.

Definition set_LocalPort (id : stack.TransportEndpointID) (port : Z)
    : stack.TransportEndpointID :=
  {| stack.LocalPort := port; stack.LocalAddress := stack.LocalAddress id;
     stack.RemotePort := stack.RemotePort id;
     stack.RemoteAddress := stack.RemoteAddress id |}.

Definition set_LocalAddress (id : stack.TransportEndpointID) (a : tcpip.Address)
    : stack.TransportEndpointID :=
  {| stack.LocalPort := stack.LocalPort id; stack.LocalAddress := a;
     stack.RemotePort := stack.RemotePort id;
     stack.RemoteAddress := stack.RemoteAddress id |}.

(** [e.stats.X.Increment()] *)
Definition stats_Increment (e : endpoint) (c : EndpointStat) : endpoint :=
  set_stats e (fun c' =>
    if EndpointStat_eqb c c' then tcpip.Increment (stats e c') else stats e c').

(** [e.stack.Stats().UDP.X.Increment()] *)
Definition stack_Stats_Increment (e : endpoint) (c : stack.UDPStat) : endpoint :=
  set_stack e (stack.Stats_Increment (stack_ e) c).

(** A stack call that changes the stack's state. *)
Definition set_net (e : endpoint) (n : Sigma) : endpoint :=
  set_stack e (stack.set_net (stack_ e) n).

(** [e.waiterQueue.Notify(mask)] *)
Definition Notify (e : endpoint) (mask : waiter.EventMask) : endpoint :=
  set_waiterQueue e (waiterQueue e ++ [mask]).

(** [setEndpointState] / [EndpointState()]: an atomic store and load. *)
Definition setEndpointState (e : endpoint) (s : EndpointState) : endpoint :=
  set_state e s.
Definition EndpointState_ (e : endpoint) : EndpointState := state e.

(** [LastError]: hands out the latched error and clears the slot. *)
Definition LastError (e : endpoint) : option tcpip.Error * endpoint :=
  let err := lastError e in
  (err, set_lastError e None).

(** What [Read] hands back: the payload view, the control messages, the
    error, and the caller's address out-parameter ([None]: nil pointer). *)
Record ReadResult : Type := {
  rd_view : buffer.View;
  rd_cm : tcpip.ControlMessages;
  rd_err : option tcpip.Error;
  rd_addr : option tcpip.FullAddress
}.

Definition Read (e : endpoint) (addr : option tcpip.FullAddress)
    : ReadResult * endpoint :=
  let '(err, e) := LastError e in
  match err with
  | Some err =>
      ({| rd_view := []; rd_cm := tcpip.ControlMessages_zero;
          rd_err := Some err; rd_addr := addr |}, e)
  | None =>
      match rcvList e with
      | [] =>
          if rcvClosed e
          then
            let e := stats_Increment e ReadErrors_ReadClosed in
            ({| rd_view := []; rd_cm := tcpip.ControlMessages_zero;
                rd_err := Some tcpip.ErrClosedForReceive; rd_addr := addr |}, e)
          else
            ({| rd_view := []; rd_cm := tcpip.ControlMessages_zero;
                rd_err := Some tcpip.ErrWouldBlock; rd_addr := addr |}, e)
      | p :: rest =>
          let e := set_rcvList e rest in
          let e := set_rcvBufSize e (int (rcvBufSize e - buffer.Size (data p))) in
          let addr :=
            match addr with
            | Some _ => Some (senderAddress p)
            | None => None
            end in
          let cm :=
            {| tcpip.HasTimestamp := true;
               tcpip.Timestamp := timestamp p;
               tcpip.HasTOS := tcpip.GetReceiveTOS (ops e);
               tcpip.TOS := if tcpip.GetReceiveTOS (ops e) then tos p else 0;
               tcpip.HasTClass := tcpip.GetReceiveTClass (ops e);
               tcpip.TClass :=
                 if tcpip.GetReceiveTClass (ops e) then uint32 (tos p) else 0;
               tcpip.HasIPPacketInfo := tcpip.GetReceivePacketInfo (ops e);
               tcpip.PacketInfo :=
                 if tcpip.GetReceivePacketInfo (ops e)
                 then packetInfo p else tcpip.IPPacketInfo_zero;
               tcpip.HasOriginalDstAddress :=
                 tcpip.GetReceiveOriginalDstAddress (ops e);
               tcpip.OriginalDstAddress :=
                 if tcpip.GetReceiveOriginalDstAddress (ops e)
                 then destinationAddress p else tcpip.FullAddress_zero |} in
          ({| rd_view := buffer.ToView (data p); rd_cm := cm;
              rd_err := None; rd_addr := addr |}, e)
      end
  end.

Definition isBroadcastOrMulticast (e : endpoint) (nicID : tcpip.NICID)
    (netProto : tcpip.NetworkProtocolNumber) (addr : tcpip.Address) : bool :=
  tcpip.Address_eqb addr header.IPv4Broadcast
  || header.IsV4MulticastAddress addr
  || header.IsV6MulticastAddress addr
  || stack.IsSubnetBroadcast (stack.net (stack_ e)) nicID netProto addr.

(** [checkV4MappedLocked]: the effective network protocol and the
    canonical form of [addr]. *)
Definition checkV4MappedLocked (e : endpoint) (addr : tcpip.FullAddress)
    : tcpip.FullAddress * tcpip.NetworkProtocolNumber * option tcpip.Error :=
  let '(unwrapped, netProto, err) :=
    stack.AddrNetProtoLocked (TransportEndpointInfo_ e) addr
      (tcpip.GetV6Only (ops e)) in
  match err with
  | Some err => (tcpip.FullAddress_zero, 0, Some err)
  | None => (unwrapped, netProto, None)
  end.

Definition registerWithStack (e : endpoint) (nicID : tcpip.NICID)
    (netProtos : list tcpip.NetworkProtocolNumber)
    (id : stack.TransportEndpointID)
    : stack.TransportEndpointID * tcpip.NICID * option tcpip.Error * endpoint :=
  let '(id, rerr, e) :=
    if stack.LocalPort (ID e) =? 0
    then
      let '(port, err, n) :=
        stack.ReservePort (stack.net (stack_ e)) netProtos ProtocolNumber
          (stack.LocalAddress id) (stack.LocalPort id) (portFlags e)
          (bindToDevice e) tcpip.FullAddress_zero in
      let e := set_net e n in
      match err with
      | Some err => (id, Some err, e)
      | None => (set_LocalPort id port, None, e)
      end
    else (id, None, e) in
  match rerr with
  | Some err => (id, bindToDevice e, Some err, e)
  | None =>
      let e := set_boundPortFlags e (portFlags e) in
      let '(err, n) :=
        stack.RegisterTransportEndpoint (stack.net (stack_ e)) nicID netProtos
          ProtocolNumber id (uniqueID e) (boundPortFlags e) (bindToDevice e) in
      let e := set_net e n in
      match err with
      | Some err =>
          let e :=
            set_net e
              (stack.ReleasePort (stack.net (stack_ e)) netProtos ProtocolNumber
                 (stack.LocalAddress id) (stack.LocalPort id) (boundPortFlags e)
                 (bindToDevice e) tcpip.FullAddress_zero) in
          let e := set_boundPortFlags e ports.Flags_zero in
          (id, bindToDevice e, Some err, e)
      | None => (id, bindToDevice e, None, e)
      end
  end.

Definition bindLocked (e : endpoint) (addr : tcpip.FullAddress)
    : option tcpip.Error * endpoint :=
  match EndpointState_ e with
  | StateInitial =>
      let '(addr, netProto, err) := checkV4MappedLocked e addr in
      match err with
      | Some err => (Some err, e)
      | None =>
          let netProtos :=
            if (netProto =? header.IPv6ProtocolNumber)
               && negb (tcpip.GetV6Only (ops e))
               && tcpip.Address_eqb (tcpip.Addr addr) []
            then [header.IPv6ProtocolNumber; header.IPv4ProtocolNumber]
            else [netProto] in
          let check :=
            negb (length (tcpip.Addr addr) =? 0)%nat
            && negb (isBroadcastOrMulticast e (tcpip.NIC addr) netProto
                       (tcpip.Addr addr)) in
          let nicID :=
            if check
            then stack.CheckLocalAddress (stack.net (stack_ e)) (tcpip.NIC addr)
                   netProto (tcpip.Addr addr)
            else tcpip.NIC addr in
          if check && (nicID =? 0)
          then (Some tcpip.ErrBadLocalAddress, e)
          else
            let id :=
              {| stack.LocalPort := tcpip.Port addr;
                 stack.LocalAddress := tcpip.Addr addr;
                 stack.RemotePort := 0; stack.RemoteAddress := [] |} in
            let '(id, btd, err, e) := registerWithStack e nicID netProtos id in
            match err with
            | Some err => (Some err, e)
            | None =>
                let e := set_ID e id in
                let e := set_boundBindToDevice e btd in
                let e := set_RegisterNICID e nicID in
                let e := set_effectiveNetProtos e netProtos in
                let e := setEndpointState e StateBound in
                let e := set_rcvReady e true in
                (None, e)
            end
      end
  | _ => (Some tcpip.ErrInvalidEndpointState, e)
  end.

Definition Bind (e : endpoint) (addr : tcpip.FullAddress)
    : option tcpip.Error * endpoint :=
  let '(err, e) := bindLocked e addr in
  match err with
  | Some err => (Some err, e)
  | None => (None, set_BindNICID e (RegisterNICID e))
  end.

(** [prepareForWrite]: binds the endpoint if it is still in the initial
    state.  Sequentially the state cannot change between dropping the
    shared lock and taking the exclusive one, so the re-check of the state
    sees the value the switch saw.  Returns (retry, err). *)
Definition prepareForWrite (e : endpoint) (to : option tcpip.FullAddress)
    : bool * option tcpip.Error * endpoint :=
  match EndpointState_ e with
  | StateInitial =>
      match EndpointState_ e with
      | StateInitial =>
          let '(err, e) := bindLocked e tcpip.FullAddress_zero in
          match err with
          | Some err => (false, Some err, e)
          | None => (true, None, e)
          end
      | _ => (true, None, e)
      end
  | StateConnected => (false, None, e)
  | StateBound =>
      match to with
      | None => (false, Some tcpip.ErrDestinationRequired, e)
      | Some _ => (false, None, e)
      end
  | StateClosed => (false, Some tcpip.ErrInvalidEndpointState, e)
  end.

(** The [for] loop of [write] around [prepareForWrite]; [None] when the
    fuel runs out before the loop exits. *)
Fixpoint prepareForWrite_loop (fuel : nat) (e : endpoint)
    (to : option tcpip.FullAddress) : option (option tcpip.Error * endpoint) :=
  match fuel with
  | O => None
  | S fuel =>
      let '(retry, err, e) := prepareForWrite e to in
      match err with
      | Some err => Some (Some err, e)
      | None => if retry then prepareForWrite_loop fuel e to else Some (None, e)
      end
  end.

(** [connectRoute]: a route to the specified interface, or to the
    configured multicast interface when none is specified and the
    destination is multicast. *)
Definition connectRoute (e : endpoint) (nicID : tcpip.NICID)
    (addr : tcpip.FullAddress) (netProto : tcpip.NetworkProtocolNumber)
    : (stack.Route * tcpip.NICID + tcpip.Error) * endpoint :=
  let localAddr := stack.LocalAddress (ID e) in
  let localAddr :=
    if isBroadcastOrMulticast e nicID netProto localAddr then [] else localAddr in
  let multicast :=
    header.IsV4MulticastAddress (tcpip.Addr addr)
    || header.IsV6MulticastAddress (tcpip.Addr addr) in
  let nicID :=
    if multicast && (nicID =? 0) then multicastNICID e else nicID in
  let localAddr :=
    if multicast && tcpip.Address_eqb localAddr [] && (nicID =? 0)
    then multicastAddr e else localAddr in
  let '(r, n) :=
    stack.FindRoute (stack.net (stack_ e)) nicID localAddr (tcpip.Addr addr)
      netProto (tcpip.GetMulticastLoop (ops e)) in
  let e := set_net e n in
  match r with
  | inr err => (inr err, e)
  | inl r => (inl (r, nicID), e)
  end.

(** The packet [sendUDP] builds before it hands it to the route: a fresh
    buffer whose transport header is the eight-byte UDP header pushed in
    front of [data]. *)
Definition sendUDP_packet (r : stack.Route) (data : buffer.VectorisedView)
    (localPort remotePort : Z) (owner : Z) (noChecksum : bool)
    : Res stack.PacketBuffer :=
  let udp : header.UDP := repeat x00 (Z.to_nat header.UDPMinimumSize) in
  let length := uint16 (int (header.UDPMinimumSize + buffer.Size data)) in
  udp <- header.UDP_Encode udp
           {| header.SrcPort := localPort; header.DstPort := remotePort;
              header.Length := length; header.Checksum_ := 0 |} ;;
  udp <- (if stack.Route_RequiresTXTransportChecksum r
             && (negb noChecksum
                 || (stack.Route_NetProto r =? header.IPv6ProtocolNumber))
          then
            let xsum := stack.Route_PseudoHeaderChecksum r ProtocolNumber length in
            let xsum :=
              fold_left (fun xsum v => header.Checksum v xsum)
                (buffer.Views data) xsum in
            c <- header.UDP_CalculateChecksum udp xsum ;;
            header.UDP_SetChecksum udp (not16 c)
          else Ret udp) ;;
  Ret {| stack.Owner := owner; stack.NICID := 0;
         stack.NetworkProtocolNumber := 0;
         stack.TransportProtocolNumber := ProtocolNumber;
         stack.RXTransportChecksumValidated := false;
         stack.NetworkHeader := stack.Network_zero;
         stack.TransportHeader := udp; stack.Data := data |}.

(** [sendUDP]: sends a UDP segment via the route and under the provided
    identity. *)
Definition sendUDP (s : stack.Stack Sigma) (r : stack.Route)
    (data : buffer.VectorisedView) (localPort remotePort : Z) (ttl : Z)
    (useDefaultTTL : bool) (tos : Z) (owner : Z) (noChecksum : bool)
    : Res (option tcpip.Error * stack.Stack Sigma) :=
  pkt <- sendUDP_packet r data localPort remotePort owner noChecksum ;;
  let ttl := if useDefaultTTL then stack.Route_DefaultTTL r else ttl in
  let '(err, n) :=
    stack.Route_WritePacket (stack.net s) r
      {| stack.Protocol := ProtocolNumber; stack.TTL := ttl; stack.NHP_TOS := tos |}
      pkt in
  let s := stack.set_net s n in
  match err with
  | Some err => Ret (Some err, stack.Stats_Increment s stack.UDP_PacketSendErrors)
  | None => Ret (None, stack.Stats_Increment s stack.UDP_PacketsSent)
  end.

(** What [write] returns: bytes written, resolution channel, error. *)
Record WriteResult : Type := {
  wr_n : Z;
  wr_ch : option stack.Chan;
  wr_err : option tcpip.Error
}.

Definition wr_fail (err : tcpip.Error) : WriteResult :=
  {| wr_n := 0; wr_ch := None; wr_err := Some err |}.

(** The tail of [write] once the route and the destination port are
    known: broadcast check, link-address resolution, payload, TTL and
    transmission. *)
Definition write_send (e : endpoint) (route : option stack.Route) (dstPort : Z)
    (p : tcpip.Payloader) : Res (WriteResult * endpoint) :=
  match route with
  | None => Panicked
  | Some route =>
      if negb (tcpip.GetBroadcast (ops e)) && stack.Route_IsOutboundBroadcast route
      then Ret (wr_fail tcpip.ErrBroadcastDisabled, e)
      else
        let '(ch, rerr, e) :=
          if stack.Route_IsResolutionRequired route
          then
            let '(ch, err, n) := stack.Route_Resolve (stack.net (stack_ e)) route in
            (ch, err, set_net e n)
          else (None, None, e) in
        match rerr with
        | Some tcpip.ErrWouldBlock =>
            Ret ({| wr_n := 0; wr_ch := ch;
                    wr_err := Some tcpip.ErrNoLinkAddress |}, e)
        | Some err => Ret (wr_fail err, e)
        | None =>
            let '(v, err) := tcpip.FullPayload p in
            match err with
            | Some err => Ret (wr_fail err, e)
            | None =>
                if buffer.len v >? header.UDPMaximumPacketSize
                then Ret (wr_fail tcpip.ErrMessageTooLong, e)
                else
                  let multicast :=
                    header.IsV4MulticastAddress (stack.Route_RemoteAddress route)
                    || header.IsV6MulticastAddress (stack.Route_RemoteAddress route) in
                  let ttl_ := if multicast then multicastTTL e else ttl e in
                  let useDefaultTTL :=
                    if multicast then false else (ttl e =? 0) in
                  let localPort := stack.LocalPort (ID e) in
                  let noChecksum := tcpip.GetNoChecksum (ops e) in
                  r <- sendUDP (stack_ e) route (buffer.ToVectorisedView v)
                         localPort dstPort ttl_ useDefaultTTL (sendTOS e)
                         (owner e) noChecksum ;;
                  let '(err, s) := r in
                  let e := set_stack e s in
                  match err with
                  | Some err => Ret (wr_fail err, e)
                  | None =>
                      Ret ({| wr_n := buffer.len v; wr_ch := None;
                              wr_err := None |}, e)
                  end
            end
        end
  end.

(** The part of [write] that chooses the route: the stored one, or a
    one-shot route to [to] that is released when [write] returns. *)
Definition write_prepared (e : endpoint) (to : option tcpip.FullAddress)
    (p : tcpip.Payloader) : Res (WriteResult * endpoint) :=
  match to with
  | None => write_send e (route e) (dstPort e) p
  | Some to =>
      if negb (BindNICID e =? 0) && negb (tcpip.NIC to =? 0)
         && negb (tcpip.NIC to =? BindNICID e)
      then Ret (wr_fail tcpip.ErrNoRoute, e)
      else
        let nicID := if negb (BindNICID e =? 0) then BindNICID e else tcpip.NIC to in
        if tcpip.Port to =? 0
        then Ret (wr_fail tcpip.ErrInvalidEndpointState, e)
        else
          let '(dst, netProto, err) := checkV4MappedLocked e to in
          match err with
          | Some err => Ret (wr_fail err, e)
          | None =>
              let '(r, e) := connectRoute e nicID dst netProto in
              match r with
              | inr err => Ret (wr_fail err, e)
              | inl (r, _) =>
                  res <- write_send e (Some r) (tcpip.Port dst) p ;;
                  let '(w, e) := res in
                  Ret (w, set_net e (stack.Route_Release (stack.net (stack_ e)) r))
              end
          end
  end.

Definition write (fuel : nat) (e : endpoint) (p : tcpip.Payloader)
    (opts : tcpip.WriteOptions) : option (Res (WriteResult * endpoint)) :=
  let '(err, e) := LastError e in
  match err with
  | Some err => Some (Ret (wr_fail err, e))
  | None =>
      if tcpip.More opts
      then Some (Ret (wr_fail tcpip.ErrInvalidOptionValue, e))
      else
        let to := tcpip.To opts in
        if negb (Z.land (shutdownFlags e) tcpip.ShutdownWrite =? 0)
        then Some (Ret (wr_fail tcpip.ErrClosedForSend, e))
        else
          match prepareForWrite_loop fuel e to with
          | None => None
          | Some (Some err, e) => Some (Ret (wr_fail err, e))
          | Some (None, e) => Some (write_prepared e to p)
          end
  end.

(** [Write]: [write], then the counter of the outcome. *)
Definition Write (fuel : nat) (e : endpoint) (p : tcpip.Payloader)
    (opts : tcpip.WriteOptions) : option (Res (WriteResult * endpoint)) :=
  match write fuel e p opts with
  | None => None
  | Some Panicked => Some Panicked
  | Some (Ret (w, e)) =>
      let c :=
        match wr_err w with
        | None => PacketsSent
        | Some tcpip.ErrMessageTooLong
        | Some tcpip.ErrInvalidOptionValue => WriteErrors_InvalidArgs
        | Some tcpip.ErrClosedForSend => WriteErrors_WriteClosed
        | Some tcpip.ErrInvalidEndpointState => WriteErrors_InvalidEndpointState
        | Some tcpip.ErrNoLinkAddress => SendErrors_NoLinkAddr
        | Some tcpip.ErrNoRoute
        | Some tcpip.ErrBroadcastDisabled
        | Some tcpip.ErrNetworkUnreachable => SendErrors_NoRoute
        | Some _ => SendErrors_SendToNetworkFailed
        end in
      Some (Ret (w, stats_Increment e c))
  end.

Definition SetSockOptInt (e : endpoint) (opt : tcpip.SockOptInt) (v : Z)
    : Res (option tcpip.Error * endpoint) :=
  match opt with
  | tcpip.MTUDiscoverOption =>
      if negb (v =? tcpip.PMTUDiscoveryDont)
      then Ret (Some tcpip.ErrNotSupported, e)
      else Ret (None, e)
  | tcpip.MulticastTTLOption => Ret (None, set_multicastTTL e (uint8 v))
  | tcpip.TTLOption => Ret (None, set_ttl e (uint8 v))
  | tcpip.IPv4TOSOption => Ret (None, set_sendTOS e (uint8 v))
  | tcpip.IPv6TrafficClassOption => Ret (None, set_sendTOS e (uint8 v))
  | tcpip.ReceiveBufferSizeOption =>
      match stack.ReceiveBufferSizeOption (stack.net (stack_ e)) with
      | None => Panicked
      | Some (rs_Min, _, rs_Max) =>
          let v := if v <? rs_Min then rs_Min else v in
          let v := if v >? rs_Max then rs_Max else v in
          Ret (None, set_rcvBufSizeMax e v)
      end
  | tcpip.SendBufferSizeOption =>
      match stack.SendBufferSizeOption (stack.net (stack_ e)) with
      | None => Panicked
      | Some (ss_Min, _, ss_Max) =>
          let v := if v <? ss_Min then ss_Min else v in
          let v := if v >? ss_Max then ss_Max else v in
          Ret (None, set_sndBufSizeMax e v)
      end
  | _ => Ret (None, e)
  end.

Definition GetSockOptInt (e : endpoint) (opt : tcpip.SockOptInt)
    : Z * option tcpip.Error :=
  match opt with
  | tcpip.IPv4TOSOption => (int (sendTOS e), None)
  | tcpip.IPv6TrafficClassOption => (int (sendTOS e), None)
  | tcpip.MTUDiscoverOption => (tcpip.PMTUDiscoveryDont, None)
  | tcpip.MulticastTTLOption => (int (multicastTTL e), None)
  | tcpip.ReceiveQueueSizeOption =>
      match rcvList e with
      | [] => (0, None)
      | p :: _ => (buffer.Size (data p), None)
      end
  | tcpip.SendBufferSizeOption => (sndBufSizeMax e, None)
  | tcpip.ReceiveBufferSizeOption => (rcvBufSizeMax e, None)
  | tcpip.TTLOption => (int (ttl e), None)
  | _ => (-1, Some tcpip.ErrUnknownProtocolOption)
  end.

(** The statements of [Disconnect] after the two branches: drop the old
    registration, install [id] and [btd], release the route. *)
Definition Disconnect_finish (e : endpoint) (id : stack.TransportEndpointID)
    (btd : tcpip.NICID) (boundPortFlags : ports.Flags)
    : Res (option tcpip.Error * endpoint) :=
  let e :=
    set_net e
      (stack.UnregisterTransportEndpoint (stack.net (stack_ e)) (RegisterNICID e)
         (effectiveNetProtos e) ProtocolNumber (ID e) (uniqueID e)
         boundPortFlags (boundBindToDevice e)) in
  let e := set_ID e id in
  let e := set_boundBindToDevice e btd in
  match route e with
  | None => Panicked
  | Some r =>
      let e := set_net e (stack.Route_Release (stack.net (stack_ e)) r) in
      let e := set_route e None in
      let e := set_dstPort e 0 in
      Ret (None, e)
  end.

Definition Disconnect (e : endpoint) : Res (option tcpip.Error * endpoint) :=
  match EndpointState_ e with
  | StateConnected =>
      let boundPortFlags_ := boundPortFlags e in
      if negb (BindNICID e =? 0)
         || tcpip.Address_eqb (stack.LocalAddress (ID e)) []
      then
        let id :=
          {| stack.LocalPort := stack.LocalPort (ID e);
             stack.LocalAddress := stack.LocalAddress (ID e);
             stack.RemotePort := 0; stack.RemoteAddress := [] |} in
        let '(id, btd, err, e) :=
          registerWithStack e (RegisterNICID e) (effectiveNetProtos e) id in
        match err with
        | Some err => Ret (Some err, e)
        | None =>
            let e := setEndpointState e StateBound in
            Disconnect_finish e id btd (boundPortFlags e)
        end
      else
        let e :=
          if negb (stack.LocalPort (ID e) =? 0)
          then
            let e :=
              set_net e
                (stack.ReleasePort (stack.net (stack_ e)) (effectiveNetProtos e)
                   ProtocolNumber (stack.LocalAddress (ID e))
                   (stack.LocalPort (ID e)) boundPortFlags_
                   (boundBindToDevice e) tcpip.FullAddress_zero) in
            set_boundPortFlags e ports.Flags_zero
          else e in
        let e := setEndpointState e StateInitial in
        Disconnect_finish e stack.TransportEndpointID_zero 0 boundPortFlags_
  | _ => Ret (None, e)
  end.

Definition Connect (e : endpoint) (addr : tcpip.FullAddress)
    : option tcpip.Error * endpoint :=
  if tcpip.Port addr =? 0
  then (Some tcpip.ErrInvalidEndpointState, e)
  else
    let nicID := tcpip.NIC addr in
    let sw : tcpip.NICID * Z + tcpip.Error :=
      match EndpointState_ e with
      | StateInitial => inl (nicID, 0)
      | StateBound | StateConnected =>
          let localPort := stack.LocalPort (ID e) in
          if BindNICID e =? 0
          then inl (nicID, localPort)
          else if negb (nicID =? 0) && negb (nicID =? BindNICID e)
          then inr tcpip.ErrInvalidEndpointState
          else inl (BindNICID e, localPort)
      | StateClosed => inr tcpip.ErrInvalidEndpointState
      end in
    match sw with
    | inr err => (Some err, e)
    | inl (nicID, localPort) =>
        let '(addr, netProto, err) := checkV4MappedLocked e addr in
        match err with
        | Some err => (Some err, e)
        | None =>
            let '(r, e) := connectRoute e nicID addr netProto in
            match r with
            | inr err => (Some err, e)
            | inl (r, nicID) =>
                (* defer r.Release() *)
                let release (e : endpoint) :=
                  set_net e (stack.Route_Release (stack.net (stack_ e)) r) in
                let id :=
                  {| stack.LocalPort := localPort;
                     stack.LocalAddress :=
                       match EndpointState_ e with
                       | StateInitial => stack.Route_LocalAddress r
                       | _ => stack.LocalAddress (ID e)
                       end;
                     stack.RemotePort := tcpip.Port addr;
                     stack.RemoteAddress := stack.Route_RemoteAddress r |} in
                let netProtos :=
                  if (netProto =? header.IPv6ProtocolNumber)
                     && negb (tcpip.GetV6Only (ops e))
                  then [header.IPv4ProtocolNumber; header.IPv6ProtocolNumber]
                  else [netProto] in
                let oldPortFlags := boundPortFlags e in
                let '(id, btd, err, e) := registerWithStack e nicID netProtos id in
                match err with
                | Some err => (Some err, release e)
                | None =>
                    let e :=
                      if negb (stack.LocalPort (ID e) =? 0)
                      then
                        set_net e
                          (stack.UnregisterTransportEndpoint (stack.net (stack_ e))
                             (RegisterNICID e) (effectiveNetProtos e)
                             ProtocolNumber (ID e) (uniqueID e) oldPortFlags
                             (boundBindToDevice e))
                      else e in
                    let e := set_ID e id in
                    let e := set_boundBindToDevice e btd in
                    let '(clone, n) := stack.Route_Clone (stack.net (stack_ e)) r in
                    let e := set_route (set_net e n) (Some clone) in
                    let e := set_dstPort e (tcpip.Port addr) in
                    let e := set_RegisterNICID e nicID in
                    let e := set_effectiveNetProtos e netProtos in
                    let e := setEndpointState e StateConnected in
                    let e := set_rcvReady e true in
                    (None, release e)
                end
            end
        end
    end.

Definition Shutdown (e : endpoint) (flags : tcpip.ShutdownFlags)
    : option tcpip.Error * endpoint :=
  match EndpointState_ e with
  | StateBound | StateConnected =>
      let e := set_shutdownFlags e (Z.lor (shutdownFlags e) flags) in
      if negb (Z.land flags tcpip.ShutdownRead =? 0)
      then
        let wasClosed := rcvClosed e in
        let e := set_rcvClosed e true in
        (None, if negb wasClosed then Notify e waiter.EventIn else e)
      else (None, e)
  | _ => (Some tcpip.ErrNotConnected, e)
  end.

(** [Readiness]: the current readiness of the endpoint. *)
Definition Readiness (e : endpoint) (mask : waiter.EventMask) : waiter.EventMask :=
  let result := Z.land waiter.EventOut mask in
  let result :=
    if negb (Z.land mask waiter.EventIn =? 0)
    then
      if negb (length (rcvList e) =? 0)%nat || rcvClosed e
      then Z.lor result waiter.EventIn
      else result
    else result in
  let hasError :=
    match lastError e with
    | Some _ => true
    | None => false
    end in
  if hasError then Z.lor result waiter.EventErr else result.

(** [verifyChecksum]: verifies the checksum unless RX checksum offload
    already did. *)
Definition verifyChecksum (hdr : header.UDP) (pkt : stack.PacketBuffer) : Res bool :=
  if stack.RXTransportChecksumValidated pkt
  then Ret true
  else
    c <- header.UDP_Checksum hdr ;;
    if negb (c =? 0)
       || (stack.NetworkProtocolNumber pkt =? header.IPv6ProtocolNumber)
    then
      netHdr <- stack.PacketBuffer_Network pkt ;;
      l <- header.UDP_Length hdr ;;
      let xsum :=
        header.PseudoHeaderChecksum ProtocolNumber (stack.DestinationAddress netHdr)
          (stack.SourceAddress netHdr) l in
      let xsum :=
        fold_left (fun xsum v => header.Checksum v xsum)
          (buffer.Views (stack.Data pkt)) xsum in
      cs <- header.UDP_CalculateChecksum hdr xsum ;;
      Ret (cs =? 0xffff)
    else Ret true.

(** [HandlePacket]: called by the stack when a packet arrives for this
    endpoint. *)
Definition HandlePacket (e : endpoint) (id : stack.TransportEndpointID)
    (pkt : stack.PacketBuffer) : Res endpoint :=
  let hdr : header.UDP := stack.TransportHeader pkt in
  l <- header.UDP_Length hdr ;;
  if l >? int (buffer.Size (stack.Data pkt) + header.UDPMinimumSize)
  then
    let e := stack_Stats_Increment e stack.UDP_MalformedPacketsReceived in
    Ret (stats_Increment e ReceiveErrors_MalformedPacketsReceived)
  else
    pl <- header.UDP_PayloadLength hdr ;;
    let pkt := stack.set_Data pkt (buffer.CapLength (stack.Data pkt) pl) in
    ok <- verifyChecksum hdr pkt ;;
    if negb ok
    then
      let e := stack_Stats_Increment e stack.UDP_ChecksumErrors in
      Ret (stats_Increment e ReceiveErrors_ChecksumErrors)
    else
      let e := stack_Stats_Increment e stack.UDP_PacketsReceived in
      let e := stats_Increment e PacketsReceived in
      if negb (rcvReady e) || rcvClosed e
      then
        let e := stack_Stats_Increment e stack.UDP_ReceiveBufferErrors in
        Ret (stats_Increment e ReceiveErrors_ClosedReceiver)
      else if rcvBufSize e >=? rcvBufSizeMax e
      then
        let e := stack_Stats_Increment e stack.UDP_ReceiveBufferErrors in
        Ret (stats_Increment e ReceiveErrors_ReceiveBufferOverflow)
      else
        let wasEmpty := rcvBufSize e =? 0 in
        srcPort <- header.UDP_SourcePort hdr ;;
        dstPort <- header.UDP_DestinationPort hdr ;;
        let tos :=
          if (stack.NetworkProtocolNumber pkt =? header.IPv4ProtocolNumber)
             || (stack.NetworkProtocolNumber pkt =? header.IPv6ProtocolNumber)
          then stack.Network_TOS (stack.NetworkHeader pkt)
          else 0 in
        netHdr <- stack.PacketBuffer_Network pkt ;;
        let localAddr := stack.DestinationAddress netHdr in
        let packet :=
          {| senderAddress :=
               {| tcpip.NIC := stack.NICID pkt;
                  tcpip.Addr := stack.RemoteAddress id;
                  tcpip.Port := srcPort |};
             destinationAddress :=
               {| tcpip.NIC := stack.NICID pkt;
                  tcpip.Addr := stack.LocalAddress id;
                  tcpip.Port := dstPort |};
             packetInfo :=
               {| tcpip.PI_NIC := stack.NICID pkt;
                  tcpip.LocalAddr := localAddr;
                  tcpip.DestinationAddr := localAddr |};
             data := stack.Data pkt;
             timestamp := stack.NowNanoseconds (stack.net (stack_ e));
             tos := tos |} in
        let e := set_rcvList e (rcvList e ++ [packet]) in
        let e := set_rcvBufSize e (int (rcvBufSize e + buffer.Size (stack.Data pkt))) in
        Ret (if wasEmpty then Notify e waiter.EventIn else e).

Definition HandleControlPacket (e : endpoint) (id : stack.TransportEndpointID)
    (typ : stack.ControlType) (extra : Z) (pkt : stack.PacketBuffer) : endpoint :=
  match typ with
  | stack.ControlPortUnreachable =>
      match EndpointState_ e with
      | StateConnected =>
          let e := set_lastError e (Some tcpip.ErrConnectionRefused) in
          Notify e waiter.EventErr
      | _ => e
      end
  | _ => e
  end.

(** A run of the receive path over a sequence of arriving datagrams. *)
Fixpoint HandlePackets (e : endpoint)
    (pkts : list (stack.TransportEndpointID * stack.PacketBuffer)) : Res endpoint :=
  match pkts with
  | [] => Ret e
  | (id, pkt) :: rest => e <- HandlePacket e id pkt ;; HandlePackets e rest
  end.

End Endpoint.

Arguments endpoint Sigma : clear implicits.

(** The packet [sendUDP] hands to the route as the receive path of the
    peer gets it: the network layer has filled in the network header from
    the route (source: the route's local address, destination: its remote
    address). *)
Definition delivered (r : stack.Route) (params : stack.NetworkHeaderParams)
    (pkt : stack.PacketBuffer) : stack.PacketBuffer :=
  {| stack.Owner := stack.Owner pkt; stack.NICID := stack.Route_NICID r;
     stack.NetworkProtocolNumber := stack.Route_NetProto r;
     stack.TransportProtocolNumber := stack.TransportProtocolNumber pkt;
     stack.RXTransportChecksumValidated := false;
     stack.NetworkHeader :=
       {| stack.SourceAddress := stack.Route_LocalAddress r;
          stack.DestinationAddress := stack.Route_RemoteAddress r;
          stack.Network_TOS := stack.NHP_TOS params |};
     stack.TransportHeader := stack.TransportHeader pkt;
     stack.Data := stack.Data pkt |}.

(** ** A small host stack to run the endpoint against

    One interface (NIC 1) with the addresses 192.0.2.2 and fe80::1, a table
    of reserved ports, a registry of transport-endpoint identifiers, a
    count of live route references, a clock, and the packets handed to the
    network layer so far. *)

Module teststack.

Record State : Type := {
  reserved : list Z;
  registered : list stack.TransportEndpointID;
  routeRefs : Z;
  clock : Z;
  wire : list stack.PacketBuffer
}.

Definition localV4 : tcpip.Address := [xc0; x00; x02; x02].
Definition localV6 : tcpip.Address :=
  [xfe; x80; x00; x00; x00; x00; x00; x00; x00; x00; x00; x00; x00; x00; x00; x01].

Definition v4MappedPrefix : tcpip.Address :=
  [x00; x00; x00; x00; x00; x00; x00; x00; x00; x00; xff; xff].

Definition IsV4MappedAddress (addr : tcpip.Address) : bool :=
  (length addr =? 16)%nat && tcpip.Address_eqb (firstn 12 addr) v4MappedPrefix.

Definition ID_eqb (a b : stack.TransportEndpointID) : bool :=
  (stack.LocalPort a =? stack.LocalPort b)
  && tcpip.Address_eqb (stack.LocalAddress a) (stack.LocalAddress b)
  && (stack.RemotePort a =? stack.RemotePort b)
  && tcpip.Address_eqb (stack.RemoteAddress a) (stack.RemoteAddress b).

Definition isReserved (s : State) (port : Z) : bool :=
  existsb (Z.eqb port) (reserved s).

(** The first ephemeral port that is free, out of a short range. *)
Definition pickPort (s : State) : option Z :=
  find (fun p => negb (isReserved s p)) [49152; 49153; 49154; 49155].

Definition addrNetProto (info : stack.TransportEndpointInfo)
    (addr : tcpip.FullAddress) (v6only : bool)
    : tcpip.FullAddress * tcpip.NetworkProtocolNumber * option tcpip.Error :=
  let mapped := IsV4MappedAddress (tcpip.Addr addr) in
  let netProto :=
    if (length (tcpip.Addr addr) =? 4)%nat || mapped
    then header.IPv4ProtocolNumber else stack.NetProto info in
  let a :=
    if mapped
    then
      let a4 := skipn 12 (tcpip.Addr addr) in
      if tcpip.Address_eqb a4 header.IPv4Any then [] else a4
    else tcpip.Addr addr in
  let addr := {| tcpip.NIC := tcpip.NIC addr; tcpip.Addr := a;
                 tcpip.Port := tcpip.Port addr |} in
  let localLen := length (stack.LocalAddress (stack.ID info)) in
  if (localLen =? 4)%nat && (length a =? 16)%nat
  then (tcpip.FullAddress_zero, 0, Some tcpip.ErrInvalidEndpointState)
  else if (localLen =? 16)%nat && (length a =? 4)%nat
  then (tcpip.FullAddress_zero, 0, Some tcpip.ErrNetworkUnreachable)
  else if netProto =? stack.NetProto info
  then (addr, netProto, None)
  else if (netProto =? header.IPv4ProtocolNumber)
          && (stack.NetProto info =? header.IPv6ProtocolNumber)
  then
    if v6only
    then (tcpip.FullAddress_zero, 0, Some tcpip.ErrNoRoute)
    else (addr, netProto, None)
  else (tcpip.FullAddress_zero, 0, Some tcpip.ErrInvalidEndpointState).

Definition findRoute (s : State) (nic : tcpip.NICID) (localAddr remoteAddr : tcpip.Address)
    (netProto : tcpip.NetworkProtocolNumber) (multicastLoop : bool)
    : (stack.Route + tcpip.Error) * State :=
  if (nic =? 0) || (nic =? 1)
  then
    let local :=
      if tcpip.Address_eqb localAddr []
      then (if netProto =? header.IPv4ProtocolNumber then localV4 else localV6)
      else localAddr in
    (inl {| stack.Route_NICID := 1;
            stack.Route_LocalAddress := local;
            stack.Route_RemoteAddress := remoteAddr;
            stack.Route_NetProto := netProto;
            stack.Route_MaxHeaderLength := 54;
            stack.Route_DefaultTTL := 64;
            stack.Route_IsOutboundBroadcast :=
              tcpip.Address_eqb remoteAddr header.IPv4Broadcast;
            stack.Route_IsResolutionRequired := false;
            stack.Route_RequiresTXTransportChecksum := true |},
     {| reserved := reserved s; registered := registered s;
        routeRefs := routeRefs s + 1; clock := clock s; wire := wire s |})
  else (inr tcpip.ErrNoRoute, s).

Definition reservePort (s : State) (port : Z) : Z * option tcpip.Error * State :=
  let chosen := if port =? 0 then pickPort s else Some port in
  match chosen with
  | None => (0, Some tcpip.ErrNoPortAvailable, s)
  | Some p =>
      if isReserved s p
      then (0, Some tcpip.ErrPortInUse, s)
      else (p, None,
            {| reserved := p :: reserved s; registered := registered s;
               routeRefs := routeRefs s; clock := clock s; wire := wire s |})
  end.

Definition releasePort (s : State) (port : Z) : State :=
  {| reserved := filter (fun p => negb (p =? port)) (reserved s);
     registered := registered s; routeRefs := routeRefs s; clock := clock s;
     wire := wire s |}.

Definition register (s : State) (id : stack.TransportEndpointID)
    : option tcpip.Error * State :=
  if existsb (ID_eqb id) (registered s)
  then (Some tcpip.ErrPortInUse, s)
  else (None,
        {| reserved := reserved s; registered := id :: registered s;
           routeRefs := routeRefs s; clock := clock s; wire := wire s |}).

Definition unregister (s : State) (id : stack.TransportEndpointID) : State :=
  {| reserved := reserved s;
     registered := filter (fun i => negb (ID_eqb id i)) (registered s);
     routeRefs := routeRefs s; clock := clock s; wire := wire s |}.

Definition addRefs (s : State) (d : Z) : State :=
  {| reserved := reserved s; registered := registered s;
     routeRefs := routeRefs s + d; clock := clock s; wire := wire s |}.

Definition writePacket (s : State) (r : stack.Route)
    (params : stack.NetworkHeaderParams) (pkt : stack.PacketBuffer)
    : option tcpip.Error * State :=
  (None,
   {| reserved := reserved s; registered := registered s;
      routeRefs := routeRefs s; clock := clock s;
      wire := wire s ++ [delivered r params pkt] |}).

#[global] Instance stackOps : stack.Ops State := {|
  stack.ReceiveBufferSizeOption := fun _ => Some (1, 212992, 4194304);
  stack.SendBufferSizeOption := fun _ => Some (1, 212992, 4194304);
  stack.CheckNIC := fun _ nic => nic =? 1;
  stack.HasNIC := fun _ nic => nic =? 1;
  stack.CheckLocalAddress := fun _ nic _ addr =>
    if ((nic =? 0) || (nic =? 1))
       && (tcpip.Address_eqb addr localV4 || tcpip.Address_eqb addr localV6)
    then 1 else 0;
  stack.IsSubnetBroadcast := fun _ _ _ _ => false;
  stack.AddrNetProtoLocked := addrNetProto;
  stack.FindRoute := findRoute;
  stack.ReservePort := fun s _ _ _ port _ _ _ => reservePort s port;
  stack.ReleasePort := fun s _ _ _ port _ _ _ => releasePort s port;
  stack.RegisterTransportEndpoint := fun s _ _ _ id _ _ _ => register s id;
  stack.UnregisterTransportEndpoint := fun s _ _ _ id _ _ _ => unregister s id;
  stack.NowNanoseconds := clock;
  stack.Route_Clone := fun s r => (r, addRefs s 1);
  stack.Route_Release := fun s r => addRefs s (-1);
  stack.Route_Resolve := fun s _ => (None, None, s);
  stack.Route_WritePacket := writePacket
|}.

Definition empty : State :=
  {| reserved := []; registered := []; routeRefs := 0; clock := 1000; wire := [] |}.

(** [newEndpoint] on the empty stack: a fresh endpoint in the initial
    state, buffer sizes overridden with the stack defaults. *)
Definition newEndpoint (netProto : tcpip.NetworkProtocolNumber) : endpoint State :=
  {| TransportEndpointInfo_ :=
       {| stack.NetProto := netProto; stack.TransProto := header.UDPProtocolNumber;
          stack.ID := stack.TransportEndpointID_zero; stack.BindNICID := 0;
          stack.BindAddr := []; stack.RegisterNICID := 0 |};
     stack_ := {| stack.net := empty; stack.Stats_UDP := fun _ => 0 |};
     waiterQueue := [];
     uniqueID := 1;
     rcvReady := false;
     rcvList := [];
     rcvBufSizeMax := 212992;
     rcvBufSize := 0;
     rcvClosed := false;
     sndBufSize := 0;
     sndBufSizeMax := 212992;
     state := StateInitial;
     route := None;
     dstPort := 0;
     ttl := 0;
     multicastTTL := 1;
     multicastAddr := [];
     multicastNICID := 0;
     portFlags := ports.Flags_zero;
     bindToDevice := 0;
     lastError := None;
     boundBindToDevice := 0;
     boundPortFlags := ports.Flags_zero;
     sendTOS := 0;
     shutdownFlags := 0;
     multicastMemberships := [];
     effectiveNetProtos := [];
     stats := fun _ => 0;
     owner := 0;
     ops :=
       {| tcpip.GetBroadcast := false; tcpip.GetV6Only := false;
          tcpip.GetMulticastLoop := true; tcpip.GetReceiveTOS := false;
          tcpip.GetReceiveTClass := false; tcpip.GetReceivePacketInfo := false;
          tcpip.GetReceiveOriginalDstAddress := false;
          tcpip.GetNoChecksum := false |} |}.

Definition peerV4 : tcpip.FullAddress :=
  {| tcpip.NIC := 0; tcpip.Addr := [xc0; x00; x02; x01]; tcpip.Port := 9 |}.

(** Scenario 2 of the spec: connect from the initial state. *)
Definition connected : endpoint State :=
  snd (Connect (newEndpoint header.IPv4ProtocolNumber) peerV4).

(** Bind to the wildcard address and port 5000, then connect. *)
Definition boundThenConnected : endpoint State :=
  snd (Connect
         (snd (Bind (newEndpoint header.IPv4ProtocolNumber)
                 {| tcpip.NIC := 0; tcpip.Addr := []; tcpip.Port := 5000 |}))
         peerV4).

End teststack.

(** ** Notions used to state the properties *)

(** Whether the bit(s) [ev] of an event mask are set. *)
Definition hasEvent (m ev : waiter.EventMask) : bool := negb (Z.land m ev =? 0).

(** The readable condition of [Readiness]: the receive list is non-empty
    or the queue is closed. *)
Definition readable {Sigma : Type} (e : endpoint Sigma) : bool :=
  negb (length (rcvList e) =? 0)%nat || rcvClosed e.

(** Whether the last-error slot is non-empty. *)
Definition hasError {Sigma : Type} (e : endpoint Sigma) : bool :=
  match lastError e with
  | Some _ => true
  | None => false
  end.

(** What [Read] reports when the last-error slot is empty and the receive
    list is [q]: an error on an empty list, nothing otherwise. *)
Definition readOutcome {Sigma : Type} (e : endpoint Sigma) : option tcpip.Error :=
  match rcvList e with
  | [] => Some (if rcvClosed e then tcpip.ErrClosedForReceive else tcpip.ErrWouldBlock)
  | _ :: _ => None
  end.

(** The sum of the big-endian 16-bit words of a byte string, an odd last
    byte padded with a zero byte (RFC 1071), as a mathematical integer. *)
Fixpoint wordSum (buf : buffer.View) : Z :=
  match buf with
  | b0 :: b1 :: rest => (byteZ b0 * 256 + byteZ b1) + wordSum rest
  | [b0] => byteZ b0 * 256
  | [] => 0
  end.

(** The 16-bit one's-complement representative of a non-negative sum:
    zero for zero, otherwise the value in 1..65535 congruent to it
    modulo 65535. *)
Definition fold16 (x : Z) : Z :=
  if x =? 0 then 0 else (x - 1) mod 65535 + 1.

(** The UDP header [sendUDP] encodes before the checksum is filled in. *)
Definition udpHeader (localPort remotePort length checksum : Z) : header.UDP :=
  header.PutUint16 localPort ++ header.PutUint16 remotePort
  ++ header.PutUint16 length ++ header.PutUint16 checksum.

(** The condition under which [sendUDP] fills in the checksum field. *)
Definition checksumRequired (r : stack.Route) (noChecksum : bool) : bool :=
  stack.Route_RequiresTXTransportChecksum r
  && (negb noChecksum || (stack.Route_NetProto r =? header.IPv6ProtocolNumber)).

(** The length field [sendUDP] encodes: header plus payload, as a uint16. *)
Definition udpLength (data : buffer.VectorisedView) : Z :=
  uint16 (int (header.UDPMinimumSize + buffer.Size data)).

(** The partial checksum [sendUDP] starts the header checksum from:
    pseudo-header, then the payload views. *)
Definition payloadChecksum (r : stack.Route) (data : buffer.VectorisedView)
    (length : Z) : Z :=
  fold_left (fun xsum v => header.Checksum v xsum) (buffer.Views data)
    (stack.Route_PseudoHeaderChecksum r ProtocolNumber length).

(** The payload [HandlePacket] keeps of a datagram: the data capped to
    the payload length the UDP header declares. *)
Definition cappedData (pkt : stack.PacketBuffer) : buffer.VectorisedView :=
  match header.UDP_PayloadLength (stack.TransportHeader pkt) with
  | Ret pl => buffer.CapLength (stack.Data pkt) pl
  | Panicked => stack.Data pkt
  end.

(** A datagram that gets past the checks [HandlePacket] makes before it
    looks at the receive queue: an eight-byte transport header, IPv4 or
    IPv6, a declared length the payload covers, and a checksum that
    verifies. *)
Definition passesValidation (pkt : stack.PacketBuffer) : bool :=
  (length (stack.TransportHeader pkt) =? 8)%nat
  && ((stack.NetworkProtocolNumber pkt =? header.IPv4ProtocolNumber)
      || (stack.NetworkProtocolNumber pkt =? header.IPv6ProtocolNumber))
  && match header.UDP_Length (stack.TransportHeader pkt) with
     | Ret l =>
         negb (l >? int (buffer.Size (stack.Data pkt) + header.UDPMinimumSize))
         && match verifyChecksum (stack.TransportHeader pkt)
                    (stack.set_Data pkt (cappedData pkt)) with
            | Ret ok => ok
            | Panicked => false
            end
     | Panicked => false
     end.

(** Total payload size of a list of queued packets. *)
Fixpoint queuedBytes (q : list udpPacket) : Z :=
  match q with
  | [] => 0
  | p :: rest => buffer.Size (data p) + queuedBytes rest
  end.

Module examples.

(** A datagram of [n] zero bytes from port 9 to port 5000 as the stack
    hands it to [HandlePacket]: IPv4, checksum omitted by the sender. *)
Definition datagram (n : nat) : stack.PacketBuffer :=
  {| stack.Owner := 0; stack.NICID := 1;
     stack.NetworkProtocolNumber := header.IPv4ProtocolNumber;
     stack.TransportProtocolNumber := ProtocolNumber;
     stack.RXTransportChecksumValidated := false;
     stack.NetworkHeader :=
       {| stack.SourceAddress := [xc0; x00; x02; x01];
          stack.DestinationAddress := teststack.localV4;
          stack.Network_TOS := 0 |};
     stack.TransportHeader :=
       header.PutUint16 9 ++ header.PutUint16 5000
       ++ header.PutUint16 (8 + Z.of_nat n) ++ header.PutUint16 0;
     stack.Data := [repeat x00 n] |}.

Definition peerID : stack.TransportEndpointID :=
  {| stack.LocalPort := 5000; stack.LocalAddress := [];
     stack.RemotePort := 9; stack.RemoteAddress := [xc0; x00; x02; x01] |}.

(** An endpoint bound to the wildcard address and port 5000. *)
Definition bound : endpoint teststack.State :=
  snd (Bind (teststack.newEndpoint header.IPv4ProtocolNumber)
         {| tcpip.NIC := 0; tcpip.Addr := []; tcpip.Port := 5000 |}).

(** The same endpoint with the receive buffer capacity set to 64. *)
Definition bound64 : endpoint teststack.State :=
  match SetSockOptInt bound tcpip.ReceiveBufferSizeOption 64 with
  | Ret (_, e) => e
  | Panicked => bound
  end.

(** A connected endpoint whose read side has been shut down. *)
Definition connectedShutRead : endpoint teststack.State :=
  snd (Shutdown teststack.connected tcpip.ShutdownRead).

(** A connected endpoint holding two datagrams of 3 and 5 bytes. *)
Definition connectedWithData : endpoint teststack.State :=
  match HandlePackets teststack.connected
          [(peerID, datagram 3); (peerID, datagram 5)] with
  | Ret e => e
  | Panicked => teststack.connected
  end.

(** An endpoint that was closed: only the state matters here. *)
Definition closed : endpoint teststack.State :=
  setEndpointState (teststack.newEndpoint header.IPv4ProtocolNumber) StateClosed.

(** A route over IPv6 from fe80::1 to fe80::2 whose NIC leaves the
    transport checksum to the sender. *)
Definition route6 : stack.Route :=
  {| stack.Route_NICID := 1;
     stack.Route_LocalAddress := teststack.localV6;
     stack.Route_RemoteAddress :=
       [xfe; x80; x00; x00; x00; x00; x00; x00;
        x00; x00; x00; x00; x00; x00; x00; x02];
     stack.Route_NetProto := header.IPv6ProtocolNumber;
     stack.Route_MaxHeaderLength := 54;
     stack.Route_DefaultTTL := 64;
     stack.Route_IsOutboundBroadcast := false;
     stack.Route_IsResolutionRequired := false;
     stack.Route_RequiresTXTransportChecksum := true |}.

(** A two-byte payload for which the one's-complement sum over
    pseudo-header, UDP header (ports 49152 and 53) and payload on [route6]
    is 0xffff. *)
Definition payloadAllOnes : buffer.VectorisedView := [[x42; xa0]].

Definition payload3 : tcpip.Payloader :=
  {| tcpip.FullPayload := ([x01; x02; x03], None) |}.

Definition noOpts : tcpip.WriteOptions :=
  {| tcpip.To := None; tcpip.More := false |}.

End examples.

(** ** The remaining operations of the endpoint *)

(** Modelled from the spec: the rest of the Stack interface ("Stack: ...
    JoinGroup/LeaveGroup; ... UniqueID"), with the arguments the endpoint
    passes: the network protocol, the NIC and the group address.  A call
    returns its error, if any, and the stack it leaves behind. *)
Class GroupOps (Sigma : Type) : Type := {
  JoinGroup :
    Sigma -> tcpip.NetworkProtocolNumber -> tcpip.NICID -> tcpip.Address ->
    option tcpip.Error * Sigma;
  LeaveGroup :
    Sigma -> tcpip.NetworkProtocolNumber -> tcpip.NICID -> tcpip.Address ->
    option tcpip.Error * Sigma;
  UniqueID : Sigma -> Z * Sigma
}.

(** The options [SetSockOpt] switches on. *)
Inductive SettableSocketOption : Type :=
| MulticastInterfaceOption (NIC : tcpip.NICID) (InterfaceAddr : tcpip.Address)
| AddMembershipOption (NIC : tcpip.NICID) (InterfaceAddr MulticastAddr : tcpip.Address)
| RemoveMembershipOption (NIC : tcpip.NICID) (InterfaceAddr MulticastAddr : tcpip.Address)
| BindToDeviceOption (id : tcpip.NICID)
| SocketDetachFilterOption
| OtherSettableOption.

(** The options [GetSockOpt] is asked for, and what it stores through the
    pointer it is given. *)
Inductive GettableSocketOption : Type :=
| GetMulticastInterfaceOption
| GetBindToDeviceOption
| OtherGettableOption.

Inductive GottenSocketOption : Type :=
| GotMulticastInterface (NIC : tcpip.NICID) (InterfaceAddr : tcpip.Address)
| GotBindToDevice (id : tcpip.NICID)
| GotNothing.

Definition multicastMembership_eqb (a b : multicastMembership) : bool :=
  (nicID a =? nicID b) && tcpip.Address_eqb (multicastAddr_ a) (multicastAddr_ b).

Section EndpointRest.

Context {Sigma : Type} {StackOps : stack.Ops Sigma} {StackGroupOps : GroupOps Sigma}.

Definition set_multicastMemberships (e : endpoint Sigma) (v : list multicastMembership) : endpoint Sigma :=
  {| TransportEndpointInfo_ := TransportEndpointInfo_ e; stack_ := stack_ e;
     waiterQueue := waiterQueue e; uniqueID := uniqueID e;
     rcvReady := rcvReady e; rcvList := rcvList e;
     rcvBufSizeMax := rcvBufSizeMax e; rcvBufSize := rcvBufSize e;
     rcvClosed := rcvClosed e; sndBufSize := sndBufSize e;
     sndBufSizeMax := sndBufSizeMax e; state := state e; route := route e;
     dstPort := dstPort e; ttl := ttl e; multicastTTL := multicastTTL e;
     multicastAddr := multicastAddr e; multicastNICID := multicastNICID e;
     portFlags := portFlags e; bindToDevice := bindToDevice e;
     lastError := lastError e; boundBindToDevice := boundBindToDevice e;
     boundPortFlags := boundPortFlags e; sendTOS := sendTOS e;
     shutdownFlags := shutdownFlags e; multicastMemberships := v;
     effectiveNetProtos := effectiveNetProtos e; stats := stats e;
     owner := owner e; ops := ops e |}.

Definition set_multicastAddr (e : endpoint Sigma) (v : tcpip.Address) : endpoint Sigma :=
  {| TransportEndpointInfo_ := TransportEndpointInfo_ e; stack_ := stack_ e;
     waiterQueue := waiterQueue e; uniqueID := uniqueID e;
     rcvReady := rcvReady e; rcvList := rcvList e;
     rcvBufSizeMax := rcvBufSizeMax e; rcvBufSize := rcvBufSize e;
     rcvClosed := rcvClosed e; sndBufSize := sndBufSize e;
     sndBufSizeMax := sndBufSizeMax e; state := state e; route := route e;
     dstPort := dstPort e; ttl := ttl e; multicastTTL := multicastTTL e;
     multicastAddr := v; multicastNICID := multicastNICID e;
     portFlags := portFlags e; bindToDevice := bindToDevice e;
     lastError := lastError e; boundBindToDevice := boundBindToDevice e;
     boundPortFlags := boundPortFlags e; sendTOS := sendTOS e;
     shutdownFlags := shutdownFlags e;
     multicastMemberships := multicastMemberships e;
     effectiveNetProtos := effectiveNetProtos e; stats := stats e;
     owner := owner e; ops := ops e |}.

Definition set_multicastNICID (e : endpoint Sigma) (v : tcpip.NICID) : endpoint Sigma :=
  {| TransportEndpointInfo_ := TransportEndpointInfo_ e; stack_ := stack_ e;
     waiterQueue := waiterQueue e; uniqueID := uniqueID e;
     rcvReady := rcvReady e; rcvList := rcvList e;
     rcvBufSizeMax := rcvBufSizeMax e; rcvBufSize := rcvBufSize e;
     rcvClosed := rcvClosed e; sndBufSize := sndBufSize e;
     sndBufSizeMax := sndBufSizeMax e; state := state e; route := route e;
     dstPort := dstPort e; ttl := ttl e; multicastTTL := multicastTTL e;
     multicastAddr := multicastAddr e; multicastNICID := v;
     portFlags := portFlags e; bindToDevice := bindToDevice e;
     lastError := lastError e; boundBindToDevice := boundBindToDevice e;
     boundPortFlags := boundPortFlags e; sendTOS := sendTOS e;
     shutdownFlags := shutdownFlags e;
     multicastMemberships := multicastMemberships e;
     effectiveNetProtos := effectiveNetProtos e; stats := stats e;
     owner := owner e; ops := ops e |}.

Definition set_bindToDevice (e : endpoint Sigma) (v : tcpip.NICID) : endpoint Sigma :=
  {| TransportEndpointInfo_ := TransportEndpointInfo_ e; stack_ := stack_ e;
     waiterQueue := waiterQueue e; uniqueID := uniqueID e;
     rcvReady := rcvReady e; rcvList := rcvList e;
     rcvBufSizeMax := rcvBufSizeMax e; rcvBufSize := rcvBufSize e;
     rcvClosed := rcvClosed e; sndBufSize := sndBufSize e;
     sndBufSizeMax := sndBufSizeMax e; state := state e; route := route e;
     dstPort := dstPort e; ttl := ttl e; multicastTTL := multicastTTL e;
     multicastAddr := multicastAddr e; multicastNICID := multicastNICID e;
     portFlags := portFlags e; bindToDevice := v; lastError := lastError e;
     boundBindToDevice := boundBindToDevice e;
     boundPortFlags := boundPortFlags e; sendTOS := sendTOS e;
     shutdownFlags := shutdownFlags e;
     multicastMemberships := multicastMemberships e;
     effectiveNetProtos := effectiveNetProtos e; stats := stats e;
     owner := owner e; ops := ops e |}.

Definition set_ops (e : endpoint Sigma) (v : tcpip.SocketOptions) : endpoint Sigma :=
  {| TransportEndpointInfo_ := TransportEndpointInfo_ e; stack_ := stack_ e;
     waiterQueue := waiterQueue e; uniqueID := uniqueID e;
     rcvReady := rcvReady e; rcvList := rcvList e;
     rcvBufSizeMax := rcvBufSizeMax e; rcvBufSize := rcvBufSize e;
     rcvClosed := rcvClosed e; sndBufSize := sndBufSize e;
     sndBufSizeMax := sndBufSizeMax e; state := state e; route := route e;
     dstPort := dstPort e; ttl := ttl e; multicastTTL := multicastTTL e;
     multicastAddr := multicastAddr e; multicastNICID := multicastNICID e;
     portFlags := portFlags e; bindToDevice := bindToDevice e;
     lastError := lastError e; boundBindToDevice := boundBindToDevice e;
     boundPortFlags := boundPortFlags e; sendTOS := sendTOS e;
     shutdownFlags := shutdownFlags e;
     multicastMemberships := multicastMemberships e;
     effectiveNetProtos := effectiveNetProtos e; stats := stats e;
     owner := owner e; ops := v |}.

Definition set_owner (e : endpoint Sigma) (v : Z) : endpoint Sigma :=
  {| TransportEndpointInfo_ := TransportEndpointInfo_ e; stack_ := stack_ e;
     waiterQueue := waiterQueue e; uniqueID := uniqueID e;
     rcvReady := rcvReady e; rcvList := rcvList e;
     rcvBufSizeMax := rcvBufSizeMax e; rcvBufSize := rcvBufSize e;
     rcvClosed := rcvClosed e; sndBufSize := sndBufSize e;
     sndBufSizeMax := sndBufSizeMax e; state := state e; route := route e;
     dstPort := dstPort e; ttl := ttl e; multicastTTL := multicastTTL e;
     multicastAddr := multicastAddr e; multicastNICID := multicastNICID e;
     portFlags := portFlags e; bindToDevice := bindToDevice e;
     lastError := lastError e; boundBindToDevice := boundBindToDevice e;
     boundPortFlags := boundPortFlags e; sendTOS := sendTOS e;
     shutdownFlags := shutdownFlags e;
     multicastMemberships := multicastMemberships e;
     effectiveNetProtos := effectiveNetProtos e; stats := stats e;
     owner := v; ops := ops e |}.

(** The membership map: lookup, insert of an absent key, delete. *)
Definition isMember (e : endpoint Sigma) (m : multicastMembership) : bool :=
  existsb (multicastMembership_eqb m) (multicastMemberships e).

(** [newEndpoint]: a fresh endpoint in the initial state; the buffer
    sizes are the stack defaults when the stack has them. *)
Definition newEndpoint (s : stack.Stack Sigma)
    (netProto : tcpip.NetworkProtocolNumber) (waiterQueue : waiter_Queue)
    : endpoint Sigma :=
  let '(uid, n) := UniqueID (stack.net s) in
  let s := stack.set_net s n in
  {| TransportEndpointInfo_ :=
       {| stack.NetProto := netProto; stack.TransProto := header.UDPProtocolNumber;
          stack.ID := stack.TransportEndpointID_zero; stack.BindNICID := 0;
          stack.BindAddr := []; stack.RegisterNICID := 0 |};
     stack_ := s;
     waiterQueue := waiterQueue;
     uniqueID := uid;
     rcvReady := false;
     rcvList := [];
     rcvBufSizeMax :=
       match stack.ReceiveBufferSizeOption (stack.net s) with
       | Some (_, rs_Default, _) => rs_Default
       | None => 32 * 1024
       end;
     rcvBufSize := 0;
     rcvClosed := false;
     sndBufSize := 0;
     sndBufSizeMax :=
       match stack.SendBufferSizeOption (stack.net s) with
       | Some (_, ss_Default, _) => ss_Default
       | None => 32 * 1024
       end;
     state := StateInitial;
     route := None;
     dstPort := 0;
     ttl := 0;
     multicastTTL := 1;
     multicastAddr := [];
     multicastNICID := 0;
     portFlags := ports.Flags_zero;
     bindToDevice := 0;
     lastError := None;
     boundBindToDevice := 0;
     boundPortFlags := ports.Flags_zero;
     sendTOS := 0;
     shutdownFlags := 0;
     multicastMemberships := [];
     effectiveNetProtos := [];
     stats := fun _ => 0;
     owner := 0;
     ops :=
       {| tcpip.GetBroadcast := false; tcpip.GetV6Only := false;
          tcpip.GetMulticastLoop := true; tcpip.GetReceiveTOS := false;
          tcpip.GetReceiveTClass := false; tcpip.GetReceivePacketInfo := false;
          tcpip.GetReceiveOriginalDstAddress := false;
          tcpip.GetNoChecksum := false |} |}.

(** [UniqueID] of the endpoint. *)
Definition endpoint_UniqueID (e : endpoint Sigma) : Z := uniqueID e.

(** [Close]: puts the endpoint in the closed state and frees what it
    holds.  Go ranges over the membership map in an unspecified order;
    [order] is the order the runtime picks. *)
Definition Close (order : list multicastMembership) (e : endpoint Sigma)
    : endpoint Sigma :=
  let e := set_shutdownFlags e (Z.lor tcpip.ShutdownRead tcpip.ShutdownWrite) in
  let e :=
    match EndpointState_ e with
    | StateBound | StateConnected =>
        let e :=
          set_net e
            (stack.UnregisterTransportEndpoint (stack.net (stack_ e))
               (RegisterNICID e) (effectiveNetProtos e) ProtocolNumber (ID e)
               (uniqueID e) (boundPortFlags e) (boundBindToDevice e)) in
        let e :=
          set_net e
            (stack.ReleasePort (stack.net (stack_ e)) (effectiveNetProtos e)
               ProtocolNumber (stack.LocalAddress (ID e)) (stack.LocalPort (ID e))
               (boundPortFlags e) (boundBindToDevice e) tcpip.FullAddress_zero) in
        let e := set_boundBindToDevice e 0 in
        set_boundPortFlags e ports.Flags_zero
    | _ => e
    end in
  let e :=
    fold_left
      (fun e mem =>
         set_net e
           (snd (LeaveGroup (stack.net (stack_ e)) (NetProto e) (nicID mem)
                   (multicastAddr_ mem))))
      order e in
  let e := set_multicastMemberships e [] in
  let e := set_rcvClosed e true in
  let e := set_rcvBufSize e 0 in
  let e := set_rcvList e [] in
  let e :=
    match route e with
    | Some r =>
        set_route (set_net e (stack.Route_Release (stack.net (stack_ e)) r)) None
    | None => e
    end in
  let e := setEndpointState e StateClosed in
  Notify e
    (Z.lor (Z.lor (Z.lor waiter.EventHUp waiter.EventErr) waiter.EventIn)
       waiter.EventOut).

(** [Abort] is [Close]. *)
Definition Abort (order : list multicastMembership) (e : endpoint Sigma)
    : endpoint Sigma :=
  Close order e.

(** [Peek] only returns data from a single datagram, so it does nothing. *)
Definition Peek (e : endpoint Sigma) : Z * option tcpip.Error := (0, None).

Definition OnReuseAddressSet (e : endpoint Sigma) (v : bool) : endpoint Sigma :=
  set_portFlags e
    {| ports.MostRecent := v;
       ports.LoadBalanced := ports.LoadBalanced (portFlags e);
       ports.TupleOnly := ports.TupleOnly (portFlags e) |}.

Definition OnReusePortSet (e : endpoint Sigma) (v : bool) : endpoint Sigma :=
  set_portFlags e
    {| ports.MostRecent := ports.MostRecent (portFlags e);
       ports.LoadBalanced := v;
       ports.TupleOnly := ports.TupleOnly (portFlags e) |}.

(** The NIC a membership request names: through the interface address
    when one is given, else the NIC itself, else the interface of a route
    to the group. [unset] tells whether the interface address counts as
    not set. *)
Definition membershipNIC (e : endpoint Sigma) (unset : bool)
    (nic : tcpip.NICID) (interfaceAddr multicastAddr : tcpip.Address)
    : tcpip.NICID * endpoint Sigma :=
  if unset
  then
    if nic =? 0
    then
      let '(r, n) :=
        stack.FindRoute (stack.net (stack_ e)) 0 [] multicastAddr
          header.IPv4ProtocolNumber false in
      let e := set_net e n in
      match r with
      | inl r =>
          (stack.Route_NICID r,
           set_net e (stack.Route_Release (stack.net (stack_ e)) r))
      | inr _ => (nic, e)
      end
    else (nic, e)
  else
    (stack.CheckLocalAddress (stack.net (stack_ e)) nic (NetProto e) interfaceAddr,
     e).

Definition SetSockOpt (e : endpoint Sigma) (opt : SettableSocketOption)
    : option tcpip.Error * endpoint Sigma :=
  match opt with
  | MulticastInterfaceOption v_NIC v_InterfaceAddr =>
      let fa := {| tcpip.NIC := 0; tcpip.Addr := v_InterfaceAddr; tcpip.Port := 0 |} in
      let '(fa, netProto, err) := checkV4MappedLocked e fa in
      match err with
      | Some err => (Some err, e)
      | None =>
          let nic := v_NIC in
          let addr := tcpip.Addr fa in
          if (nic =? 0) && tcpip.Address_eqb addr []
          then (None, set_multicastNICID (set_multicastAddr e []) 0)
          else
            let checked : tcpip.NICID + tcpip.Error :=
              if negb (nic =? 0)
              then
                if negb (stack.CheckNIC (stack.net (stack_ e)) nic)
                then inr tcpip.ErrBadLocalAddress
                else inl nic
              else
                let nic :=
                  stack.CheckLocalAddress (stack.net (stack_ e)) 0 netProto addr in
                if nic =? 0 then inr tcpip.ErrBadLocalAddress else inl nic in
            match checked with
            | inr err => (Some err, e)
            | inl nic =>
                if negb (BindNICID e =? 0) && negb (BindNICID e =? nic)
                then (Some tcpip.ErrInvalidEndpointState, e)
                else (None, set_multicastAddr (set_multicastNICID e nic) addr)
            end
      end
  | AddMembershipOption v_NIC v_InterfaceAddr v_MulticastAddr =>
      if negb (header.IsV4MulticastAddress v_MulticastAddr)
         && negb (header.IsV6MulticastAddress v_MulticastAddr)
      then (Some tcpip.ErrInvalidOptionValue, e)
      else
        let unset :=
          (length v_InterfaceAddr =? 0)%nat
          || tcpip.Address_eqb v_InterfaceAddr header.IPv4Any in
        let '(nicID_, e) :=
          membershipNIC e unset v_NIC v_InterfaceAddr v_MulticastAddr in
        if nicID_ =? 0
        then (Some tcpip.ErrUnknownDevice, e)
        else
          let memToInsert :=
            {| nicID := nicID_; multicastAddr_ := v_MulticastAddr |} in
          if isMember e memToInsert
          then (Some tcpip.ErrPortInUse, e)
          else
            let '(err, n) :=
              JoinGroup (stack.net (stack_ e)) (NetProto e) nicID_ v_MulticastAddr in
            let e := set_net e n in
            match err with
            | Some err => (Some err, e)
            | None =>
                (None,
                 set_multicastMemberships e (memToInsert :: multicastMemberships e))
            end
  | RemoveMembershipOption v_NIC v_InterfaceAddr v_MulticastAddr =>
      if negb (header.IsV4MulticastAddress v_MulticastAddr)
         && negb (header.IsV6MulticastAddress v_MulticastAddr)
      then (Some tcpip.ErrInvalidOptionValue, e)
      else
        let unset := tcpip.Address_eqb v_InterfaceAddr header.IPv4Any in
        let '(nicID_, e) :=
          membershipNIC e unset v_NIC v_InterfaceAddr v_MulticastAddr in
        if nicID_ =? 0
        then (Some tcpip.ErrUnknownDevice, e)
        else
          let memToRemove :=
            {| nicID := nicID_; multicastAddr_ := v_MulticastAddr |} in
          if negb (isMember e memToRemove)
          then (Some tcpip.ErrBadLocalAddress, e)
          else
            let '(err, n) :=
              LeaveGroup (stack.net (stack_ e)) (NetProto e) nicID_ v_MulticastAddr in
            let e := set_net e n in
            match err with
            | Some err => (Some err, e)
            | None =>
                (None,
                 set_multicastMemberships e
                   (filter (fun m => negb (multicastMembership_eqb memToRemove m))
                      (multicastMemberships e)))
            end
  | BindToDeviceOption id =>
      if negb (id =? 0) && negb (stack.HasNIC (stack.net (stack_ e)) id)
      then (Some tcpip.ErrUnknownDevice, e)
      else (None, set_bindToDevice e id)
  | SocketDetachFilterOption => (None, e)
  | OtherSettableOption => (None, e)
  end.

Definition GetSockOpt (e : endpoint Sigma) (opt : GettableSocketOption)
    : GottenSocketOption * option tcpip.Error :=
  match opt with
  | GetMulticastInterfaceOption =>
      (GotMulticastInterface (multicastNICID e) (multicastAddr e), None)
  | GetBindToDeviceOption => (GotBindToDevice (bindToDevice e), None)
  | OtherGettableOption => (GotNothing, Some tcpip.ErrUnknownProtocolOption)
  end.

(** [ConnectEndpoint], [Listen], [Accept]: not supported by UDP. *)
Definition ConnectEndpoint (e : endpoint Sigma) : option tcpip.Error :=
  Some tcpip.ErrInvalidEndpointState.
Definition Listen (e : endpoint Sigma) (backlog : Z) : option tcpip.Error :=
  Some tcpip.ErrNotSupported.
Definition Accept (e : endpoint Sigma) : option tcpip.Error :=
  Some tcpip.ErrNotSupported.

(** [GetLocalAddress]: the address the endpoint is bound to; reads the
    route of a connected endpoint. *)
Definition GetLocalAddress (e : endpoint Sigma)
    : Res (tcpip.FullAddress * option tcpip.Error) :=
  addr <- match EndpointState_ e with
          | StateConnected =>
              match route e with
              | Some r => Ret (stack.Route_LocalAddress r)
              | None => Panicked
              end
          | _ => Ret (stack.LocalAddress (ID e))
          end ;;
  Ret ({| tcpip.NIC := RegisterNICID e; tcpip.Addr := addr;
          tcpip.Port := stack.LocalPort (ID e) |}, None).

(** [GetRemoteAddress]: the address the endpoint is connected to. *)
Definition GetRemoteAddress (e : endpoint Sigma)
    : tcpip.FullAddress * option tcpip.Error :=
  match EndpointState_ e with
  | StateConnected =>
      ({| tcpip.NIC := RegisterNICID e;
          tcpip.Addr := stack.RemoteAddress (ID e);
          tcpip.Port := stack.RemotePort (ID e) |}, None)
  | _ => (tcpip.FullAddress_zero, Some tcpip.ErrNotConnected)
  end.

(** [State]: the state as a uint32, in the order of the constants. *)
Definition State (e : endpoint Sigma) : Z :=
  match EndpointState_ e with
  | StateInitial => 0
  | StateBound => 1
  | StateConnected => 2
  | StateClosed => 3
  end.

Definition SetOwner (e : endpoint Sigma) (o : Z) : endpoint Sigma := set_owner e o.

(** ** Runs of the endpoint

    One call of an operation of the endpoint, or one change made from
    outside: the socket options holder is written, or the stack it shares
    with other endpoints moves on. *)
Inductive step : endpoint Sigma -> endpoint Sigma -> Prop :=
| step_Bind e addr : step e (snd (Bind e addr))
| step_Connect e addr : step e (snd (Connect e addr))
| step_Disconnect e err e' : Disconnect e = Ret (err, e') -> step e e'
| step_Shutdown e flags : step e (snd (Shutdown e flags))
| step_Close e order : step e (Close order e)
| step_Read e addr : step e (snd (Read e addr))
| step_Write e fuel p opts w e' :
    Write fuel e p opts = Some (Ret (w, e')) -> step e e'
| step_SetSockOptInt e opt v err e' :
    SetSockOptInt e opt v = Ret (err, e') -> step e e'
| step_SetSockOpt e opt : step e (snd (SetSockOpt e opt))
| step_OnReuseAddressSet e v : step e (OnReuseAddressSet e v)
| step_OnReusePortSet e v : step e (OnReusePortSet e v)
| step_SetOwner e o : step e (SetOwner e o)
| step_HandlePacket e id pkt e' : HandlePacket e id pkt = Ret e' -> step e e'
| step_HandleControlPacket e id typ extra pkt :
    step e (HandleControlPacket e id typ extra pkt)
| step_ops e o : step e (set_ops e o)
| step_stack e n : step e (set_net e n).

(** The endpoints a run from [newEndpoint] can reach. *)
Inductive reachable : endpoint Sigma -> Prop :=
| reachable_new s netProto wq : reachable (newEndpoint s netProto wq)
| reachable_step e e' : reachable e -> step e e' -> reachable e'.

(** What every reachable endpoint satisfies: a route is held exactly in
    the connected state; a bound or connected endpoint has its receive
    queue marked ready; a closed endpoint has a closed, empty receive queue
    and is shut down for writing. *)
Definition wellFormed (e : endpoint Sigma) : Prop :=
  (route e <> None <-> state e = StateConnected)
  /\ (state e = StateBound \/ state e = StateConnected -> rcvReady e = true)
  /\ (state e = StateClosed ->
      rcvClosed e = true /\ rcvList e = [] /\ rcvBufSize e = 0
      /\ Z.land (shutdownFlags e) tcpip.ShutdownWrite <> 0).

(** Two endpoints that agree on the lifecycle state, the route and the
    receive side: what [wellFormed] looks at. *)
Definition sameCore (e e' : endpoint Sigma) : Prop :=
  state e' = state e /\ route e' = route e /\ rcvReady e' = rcvReady e
  /\ rcvClosed e' = rcvClosed e /\ rcvList e' = rcvList e
  /\ rcvBufSize e' = rcvBufSize e
  /\ shutdownFlags e' = shutdownFlags e.

(** What no step undoes: a well-formed endpoint stays well-formed, a
    closed receive queue stays closed, a ready one stays ready, and the
    closed state is final. *)
Definition keeps (e e' : endpoint Sigma) : Prop :=
  (wellFormed e -> wellFormed e')
  /\ (rcvClosed e = true -> rcvClosed e' = true)
  /\ (rcvReady e = true -> rcvReady e' = true)
  /\ (state e = StateClosed -> state e' = StateClosed).

(** Two endpoints that agree on the state, the endpoint info (identity,
    bound NIC, registration NIC), the destination port and the multicast
    memberships: what [identityOK] looks at. *)
Definition sameIdentity (e e' : endpoint Sigma) : Prop :=
  state e' = state e
  /\ TransportEndpointInfo_ e' = TransportEndpointInfo_ e
  /\ dstPort e' = dstPort e
  /\ multicastMemberships e' = multicastMemberships e.

(** What every reachable endpoint satisfies about its identity: a
    connected endpoint sends to the remote port of its identity; an
    initial or bound endpoint has no remote part; an initial endpoint has
    no identity at all and is bound to no NIC; an endpoint bound to a NIC
    is registered on that NIC; and no multicast membership is held
    twice. *)
Definition identityOK (e : endpoint Sigma) : Prop :=
  (state e = StateConnected -> dstPort e = stack.RemotePort (ID e))
  /\ (state e = StateInitial \/ state e = StateBound ->
      stack.RemotePort (ID e) = 0 /\ stack.RemoteAddress (ID e) = [])
  /\ (state e = StateInitial ->
      ID e = stack.TransportEndpointID_zero /\ BindNICID e = 0)
  /\ (BindNICID e <> 0 -> RegisterNICID e = BindNICID e)
  /\ NoDup (multicastMemberships e).

(** Successive [Read]s: the results of [n] calls, first call first, and
    the endpoint after them. *)
Fixpoint Reads (n : nat) (e : endpoint Sigma) : list ReadResult * endpoint Sigma :=
  match n with
  | O => ([], e)
  | S n =>
      let '(r, e) := Read e None in
      let '(rs, e) := Reads n e in
      (r :: rs, e)
  end.

End EndpointRest.

Arguments step {Sigma StackOps StackGroupOps} _ _.
Arguments reachable {Sigma StackOps StackGroupOps} _.

(** The payload bytes a run of arriving datagrams asks the receive queue
    to hold: the size of each datagram capped to its declared length. *)
Fixpoint arrivedBytes
    (pkts : list (stack.TransportEndpointID * stack.PacketBuffer)) : Z :=
  match pkts with
  | [] => 0
  | ip :: rest => buffer.Size (cappedData (snd ip)) + arrivedBytes rest
  end.

(** ** The small host stack, continued: multicast groups on NIC 1 *)

Module testgroups.

#[global] Instance groupOps : GroupOps teststack.State := {|
  JoinGroup := fun s _ nic _ =>
    if nic =? 1 then (None, s) else (Some tcpip.ErrUnknownNICID, s);
  LeaveGroup := fun s _ nic _ =>
    if nic =? 1 then (None, s) else (Some tcpip.ErrUnknownNICID, s);
  UniqueID := fun s => (1, s)
|}.

Definition stack0 : stack.Stack teststack.State :=
  {| stack.net := teststack.empty; stack.Stats_UDP := fun _ => 0 |}.

(** A fresh IPv4 endpoint on the small stack. *)
Definition fresh : endpoint teststack.State :=
  newEndpoint stack0 header.IPv4ProtocolNumber [].

(** The group 224.0.0.9 joined through NIC 1. *)
Definition group9 : tcpip.Address := [xe0; x00; x00; x09].

(** An explicit bind to the group address and port 5000 on no particular
    NIC, and the same endpoint then connected to the peer. *)
Definition group9Port5000 : tcpip.FullAddress :=
  {| tcpip.NIC := 0; tcpip.Addr := group9; tcpip.Port := 5000 |}.

Definition boundToGroup : endpoint teststack.State :=
  snd (Bind fresh group9Port5000).

Definition groupConnected : endpoint teststack.State :=
  snd (Connect boundToGroup teststack.peerV4).

End testgroups.

(** * Properties *)

(** ** Machine integers and bytes *)

Lemma uint8_mod (v : Z) : uint8 v = v mod 256.
Proof. unfold uint8. change 255 with (Z.ones 8). now rewrite Z.land_ones by lia. Qed.

Lemma uint16_mod (v : Z) : uint16 v = v mod 65536.
Proof. unfold uint16. change 65535 with (Z.ones 16). now rewrite Z.land_ones by lia. Qed.

Lemma uint32_mod (v : Z) : uint32 v = v mod 4294967296.
Proof. unfold uint32. change 4294967295 with (Z.ones 32). now rewrite Z.land_ones by lia. Qed.

Lemma uint64_mod (v : Z) : uint64 v = v mod 18446744073709551616.
Proof.
  unfold uint64. change 18446744073709551615 with (Z.ones 64).
  now rewrite Z.land_ones by lia.
Qed.

Lemma int_small (v : Z) : - 2 ^ 63 <= v < 2 ^ 63 -> int v = v.
Proof.
  intros H. unfold int. rewrite uint64_mod.
  rewrite Z.mod_small; lia.
Qed.

Lemma byteZ_range (b : byte) : 0 <= byteZ b < 256.
Proof.
  unfold byteZ. pose proof (Byte.to_N_bounded b) as H.
  lia.
Qed.

Lemma byteZ_byteOf (v : Z) : byteZ (byteOf v) = uint8 v.
Proof.
  unfold byteOf, byteZ.
  assert (Hr : 0 <= uint8 v < 256) by (rewrite uint8_mod; apply Z.mod_pos_bound; lia).
  destruct (Byte.of_N (Z.to_N (uint8 v))) as [b|] eqn:E.
  - apply Byte.to_of_N in E. rewrite E. lia.
  - apply Byte.of_N_None_iff in E. lia.
Qed.

Lemma int_uint8 (v : Z) : int (uint8 v) = v mod 256.
Proof.
  rewrite uint8_mod. apply int_small.
  pose proof (Z.mod_pos_bound v 256 ltac:(lia)). lia.
Qed.

(** ** Event masks *)

Lemma land_pow2 (m k : Z) :
  0 <= k -> Z.land m (2 ^ k) = if Z.testbit m k then 2 ^ k else 0.
Proof.
  intros Hk. apply Z.bits_inj'. intros n Hn.
  rewrite Z.land_spec, Z.pow2_bits_eqb by assumption.
  destruct (Z.eqb_spec k n) as [->|Hne].
  - rewrite andb_true_r. destruct (Z.testbit m n) eqn:E.
    + now rewrite Z.pow2_bits_true.
    + now rewrite Z.bits_0.
  - rewrite andb_false_r. destruct (Z.testbit m k).
    + rewrite Z.pow2_bits_false; [reflexivity | congruence].
    + now rewrite Z.bits_0.
Qed.

Lemma hasEvent_testbit (m k : Z) :
  0 <= k -> hasEvent m (2 ^ k) = Z.testbit m k.
Proof.
  intros Hk. unfold hasEvent. rewrite land_pow2 by assumption.
  destruct (Z.testbit m k); [|reflexivity].
  assert (0 < 2 ^ k) by (apply Z.pow_pos_nonneg; lia).
  destruct (Z.eqb_spec (2 ^ k) 0); [lia | reflexivity].
Qed.

Lemma hasEvent_In (m : Z) : hasEvent m waiter.EventIn = Z.testbit m 0.
Proof. exact (hasEvent_testbit m 0 ltac:(lia)). Qed.

Lemma hasEvent_Out (m : Z) : hasEvent m waiter.EventOut = Z.testbit m 2.
Proof. exact (hasEvent_testbit m 2 ltac:(lia)). Qed.

Lemma hasEvent_Err (m : Z) : hasEvent m waiter.EventErr = Z.testbit m 3.
Proof. exact (hasEvent_testbit m 3 ltac:(lia)). Qed.

Section EndpointProperties.

Context {Sigma : Type} {StackOps : stack.Ops Sigma}.

Implicit Types (e : endpoint Sigma) (mask : waiter.EventMask).

(** [Readiness] bit by bit. *)
Lemma Readiness_testbit e mask (n : Z) :
  0 <= n ->
  Z.testbit (Readiness e mask) n =
    (n =? 2) && Z.testbit mask 2
    || (n =? 0) && Z.testbit mask 0 && readable e
    || (n =? 3) && hasError e.
Proof.
  intros Hn. unfold Readiness, readable, hasError.
  fold (hasEvent mask waiter.EventIn). rewrite hasEvent_In.
  change waiter.EventOut with (2 ^ 2). change waiter.EventIn with (2 ^ 0).
  change waiter.EventErr with (2 ^ 3).
  destruct (Z.testbit mask 0) eqn:E0;
    destruct (negb (length (rcvList e) =? 0)%nat || rcvClosed e);
    destruct (lastError e);
    repeat rewrite Z.lor_spec; rewrite Z.land_spec;
    repeat rewrite Z.pow2_bits_eqb by lia;
    rewrite (Z.eqb_sym 2 n), ?(Z.eqb_sym 0 n), ?(Z.eqb_sym 3 n);
    destruct (Z.eqb_spec n 2); destruct (Z.eqb_spec n 0);
    destruct (Z.eqb_spec n 3);
    try lia; subst; rewrite ?E0; simpl;
    rewrite ?andb_false_r, ?orb_false_r; reflexivity.
Qed.

(** C2 (as amended): the writable bit is returned exactly when the caller asks
    for it; the readable bit exactly when the caller asks for it and the
    receive list is non-empty or the queue is closed; the error bit exactly
    when the last-error slot is non-empty, whether or not the caller asks
    for it; and every returned bit is in the caller's mask or is the error
    bit. *)
Theorem C2_readiness_bits e mask :
  hasEvent (Readiness e mask) waiter.EventOut = hasEvent mask waiter.EventOut
  /\ hasEvent (Readiness e mask) waiter.EventIn
     = hasEvent mask waiter.EventIn
       && (negb (length (rcvList e) =? 0)%nat || rcvClosed e)
  /\ hasEvent (Readiness e mask) waiter.EventErr
     = match lastError e with Some _ => true | None => false end
  /\ Z.land (Readiness e mask) (Z.lnot (Z.lor mask waiter.EventErr)) = 0.
Proof.
  rewrite !hasEvent_Out, !hasEvent_In, !hasEvent_Err.
  rewrite !Readiness_testbit by lia. cbn [Z.eqb Pos.eqb andb orb].
  repeat split.
  - now rewrite !orb_false_r.
  - unfold readable. now rewrite orb_false_r.
  - apply Z.bits_inj'. intros n Hn.
    rewrite Z.land_spec, Z.lnot_spec, Z.lor_spec, Z.bits_0 by assumption.
    rewrite Readiness_testbit by assumption.
    change waiter.EventErr with (2 ^ 3). rewrite Z.pow2_bits_eqb by lia.
    rewrite (Z.eqb_sym 3 n).
    destruct (Z.eqb_spec n 2); destruct (Z.eqb_spec n 0);
      destruct (Z.eqb_spec n 3); try lia; subst; cbn [andb orb negb];
      repeat match goal with
             | |- context [Z.testbit mask ?k] => destruct (Z.testbit mask k)
             | |- context [readable e] => destruct (readable e)
             | |- context [hasError e] => destruct (hasError e)
             end; reflexivity.
Qed.

End EndpointProperties.

(** C2 (as stated) fails: with a latched error and a caller interested in
    readability only, the error bit is returned although it is not in the
    caller's mask, and the writable bit is not returned. *)
Lemma C2_error_bit_not_masked :
  let e := set_lastError (teststack.newEndpoint header.IPv4ProtocolNumber)
             (Some tcpip.ErrConnectionRefused) in
  Readiness e waiter.EventIn = waiter.EventErr
  /\ Z.land (Readiness e waiter.EventIn) waiter.EventIn <> Readiness e waiter.EventIn
  /\ hasEvent (Readiness e waiter.EventIn) waiter.EventOut = false.
Proof. vm_compute. repeat split; discriminate. Qed.

Section OptionProperties.

Context {Sigma : Type} {StackOps : stack.Ops Sigma}.

Implicit Types (e : endpoint Sigma) (v : Z).

(** C9: the send-TOS and send-TClass options share one storage field:
    a value set through either option is read back, truncated to eight
    bits, through the other. *)
Theorem C9_tos_tclass_one_field e v :
  (exists e',
      SetSockOptInt e tcpip.IPv4TOSOption v = Ret (None, e')
      /\ GetSockOptInt e' tcpip.IPv6TrafficClassOption = (v mod 256, None)
      /\ GetSockOptInt e' tcpip.IPv4TOSOption = (v mod 256, None))
  /\ (exists e',
      SetSockOptInt e tcpip.IPv6TrafficClassOption v = Ret (None, e')
      /\ GetSockOptInt e' tcpip.IPv4TOSOption = (v mod 256, None)
      /\ GetSockOptInt e' tcpip.IPv6TrafficClassOption = (v mod 256, None)).
Proof.
  split; eexists; (split; [reflexivity|]);
    cbn [GetSockOptInt set_sendTOS sendTOS]; now rewrite int_uint8.
Qed.

(** C10: the unicast-TTL and multicast-TTL setters accept every value and
    store it truncated to eight bits. *)
Theorem C10_ttl_truncated_to_8_bits e v :
  (exists e',
      SetSockOptInt e tcpip.TTLOption v = Ret (None, e')
      /\ GetSockOptInt e' tcpip.TTLOption = (v mod 256, None))
  /\ (exists e',
      SetSockOptInt e tcpip.MulticastTTLOption v = Ret (None, e')
      /\ GetSockOptInt e' tcpip.MulticastTTLOption = (v mod 256, None)).
Proof.
  split; eexists; (split; [reflexivity|]);
    cbn [GetSockOptInt set_ttl ttl set_multicastTTL multicastTTL];
    now rewrite int_uint8.
Qed.

End OptionProperties.

Example SetSockOptInt_ttl_300 :
  match SetSockOptInt (teststack.newEndpoint header.IPv4ProtocolNumber)
          tcpip.TTLOption 300 with
  | Ret (err, e) => (err, GetSockOptInt e tcpip.TTLOption) = (None, (44, None))
  | Panicked => False
  end.
Proof. reflexivity. Qed.

Example SetSockOptInt_tos_negative :
  match SetSockOptInt (teststack.newEndpoint header.IPv4ProtocolNumber)
          tcpip.IPv4TOSOption (-1) with
  | Ret (err, e) =>
      (err, GetSockOptInt e tcpip.IPv6TrafficClassOption) = (None, (255, None))
  | Panicked => False
  end.
Proof. reflexivity. Qed.

Section ReadProperties.

Context {Sigma : Type} {StackOps : stack.Ops Sigma}.

Implicit Types (e : endpoint Sigma) (addr : option tcpip.FullAddress).

Lemma set_lastError_None_id e : lastError e = None -> set_lastError e None = e.
Proof. destruct e; cbn. intros ->. reflexivity. Qed.

(** [Read] with an empty last-error slot, case by case on the receive list. *)
Lemma Read_no_error e addr :
  lastError e = None ->
  Read e addr =
    match rcvList e with
    | [] =>
        if rcvClosed e
        then ({| rd_view := []; rd_cm := tcpip.ControlMessages_zero;
                 rd_err := Some tcpip.ErrClosedForReceive; rd_addr := addr |},
              stats_Increment e ReadErrors_ReadClosed)
        else ({| rd_view := []; rd_cm := tcpip.ControlMessages_zero;
                 rd_err := Some tcpip.ErrWouldBlock; rd_addr := addr |}, e)
    | p :: rest =>
        ({| rd_view := buffer.ToView (data p);
            rd_cm := rd_cm (fst (Read e addr));
            rd_err := None;
            rd_addr := match addr with
                       | Some _ => Some (senderAddress p)
                       | None => None
                       end |},
         set_rcvBufSize (set_rcvList e rest)
           (int (rcvBufSize e - buffer.Size (data p))))
    end.
Proof.
  intros H. unfold Read, LastError. rewrite H.
  rewrite (set_lastError_None_id e H).
  destruct (rcvList e) as [|p rest]; [destruct (rcvClosed e)|]; reflexivity.
Qed.

(** C6: with no pending asynchronous error, [Read] on an empty receive
    list reports closed-for-receive when the queue is closed and would-block
    when it is not; on a non-empty list it removes the head record,
    subtracts its payload size from the byte count and returns the head's
    payload, the rest of the queue staying as it was. *)
Theorem C6_read_pops_head e addr :
  lastError e = None ->
  (rcvList e = [] -> rcvClosed e = true ->
     rd_err (fst (Read e addr)) = Some tcpip.ErrClosedForReceive
     /\ rd_view (fst (Read e addr)) = []
     /\ rcvList (snd (Read e addr)) = []
     /\ rcvBufSize (snd (Read e addr)) = rcvBufSize e)
  /\ (rcvList e = [] -> rcvClosed e = false ->
     rd_err (fst (Read e addr)) = Some tcpip.ErrWouldBlock
     /\ rd_view (fst (Read e addr)) = []
     /\ snd (Read e addr) = e)
  /\ (forall p rest, rcvList e = p :: rest ->
     rd_err (fst (Read e addr)) = None
     /\ rd_view (fst (Read e addr)) = buffer.ToView (data p)
     /\ rcvList (snd (Read e addr)) = rest
     /\ rcvBufSize (snd (Read e addr)) = int (rcvBufSize e - buffer.Size (data p))
     /\ rcvClosed (snd (Read e addr)) = rcvClosed e).
Proof.
  intros H. rewrite (Read_no_error e addr H).
  split; [|split].
  - intros Hl Hc. rewrite Hl, Hc. cbn. repeat split; assumption.
  - intros Hl Hc. rewrite Hl, Hc. repeat split.
  - intros p rest Hl. rewrite Hl. repeat split.
Qed.

(** After [Read] has handed out a latched error the slot is empty and
    the receive queue is as it was. *)
Lemma Read_latched_error e addr err :
  lastError e = Some err ->
  rd_err (fst (Read e addr)) = Some err
  /\ snd (Read e addr) = set_lastError e None.
Proof. intros H. unfold Read, LastError. rewrite H. split; reflexivity. Qed.

Lemma Read_readOutcome e addr :
  lastError e = None ->
  rd_err (fst (Read e addr)) = readOutcome e
  /\ rd_view (fst (Read e addr))
     = match rcvList e with
       | [] => []
       | p :: _ => buffer.ToView (data p)
       end.
Proof.
  intros H. rewrite (Read_no_error e addr H). unfold readOutcome.
  destruct (rcvList e); [destruct (rcvClosed e)|]; split; reflexivity.
Qed.

(** [write] begins with the latched error. *)
Lemma Write_latched_error e err fuel p opts :
  lastError e = Some err ->
  exists c,
    Write fuel e p opts
    = Some (Ret (wr_fail err, stats_Increment (set_lastError e None) c)).
Proof.
  intros H. unfold Write, write, LastError. rewrite H.
  eexists. reflexivity.
Qed.

(** C5 (as amended): a port-unreachable control signal on a CONNECTED endpoint
    latches connection-refused and notifies the error event; the next
    [Read] or [Write] returns connection-refused and empties the slot; the
    [Read] after it returns what a [Read] with an empty slot returns on the
    same queue: would-block, data, or closed-for-receive when the receive
    side was shut down.  Two signals in a row leave one error. *)
Theorem C5_port_unreachable_latched_once e id extra pkt addr :
  state e = StateConnected ->
  let e1 := HandleControlPacket e id stack.ControlPortUnreachable extra pkt in
  lastError e1 = Some tcpip.ErrConnectionRefused
  /\ waiterQueue e1 = waiterQueue e ++ [waiter.EventErr]
  /\ (let e2 := snd (Read e1 addr) in
      rd_err (fst (Read e1 addr)) = Some tcpip.ErrConnectionRefused
      /\ lastError e2 = None
      /\ rcvList e2 = rcvList e
      /\ rd_err (fst (Read e2 addr)) = readOutcome e
      /\ rd_view (fst (Read e2 addr))
         = match rcvList e with
           | [] => []
           | p :: _ => buffer.ToView (data p)
           end)
  /\ (forall fuel p opts,
      exists e2,
        Write fuel e1 p opts = Some (Ret (wr_fail tcpip.ErrConnectionRefused, e2))
        /\ lastError e2 = None
        /\ rcvList e2 = rcvList e
        /\ rd_err (fst (Read e2 addr)) = readOutcome e)
  /\ (let e1' := HandleControlPacket e1 id stack.ControlPortUnreachable extra pkt in
      lastError e1' = Some tcpip.ErrConnectionRefused
      /\ lastError (snd (Read e1' addr)) = None).
Proof.
  intros Hst e1.
  assert (He1 : e1 = Notify (set_lastError e (Some tcpip.ErrConnectionRefused))
                       waiter.EventErr).
  { unfold e1, HandleControlPacket, EndpointState_. now rewrite Hst. }
  assert (Hl1 : lastError e1 = Some tcpip.ErrConnectionRefused) by now rewrite He1.
  split; [assumption|]. split; [now rewrite He1|].
  split; [|split].
  - destruct (Read_latched_error e1 addr _ Hl1) as [Hr He2].
    cbv zeta. rewrite He2, Hr.
    assert (Hn : lastError (set_lastError e1 None) = None) by reflexivity.
    destruct (Read_readOutcome _ addr Hn) as [Ho Hv].
    rewrite Ho, Hv, He1. repeat split.
  - intros fuel p opts.
    destruct (Write_latched_error e1 _ fuel p opts Hl1) as [c Hw].
    eexists. split; [exact Hw|].
    assert (Hn : lastError (stats_Increment (set_lastError e1 None) c) = None)
      by reflexivity.
    destruct (Read_readOutcome _ addr Hn) as [Ho _].
    rewrite Ho, He1. repeat split.
  - cbv zeta. unfold HandleControlPacket, EndpointState_.
    assert (Hs1 : state e1 = StateConnected) by now rewrite He1.
    rewrite Hs1. split; [reflexivity|].
    match goal with
    | |- lastError (snd (Read ?x addr)) = None =>
        destruct (Read_latched_error x addr tcpip.ErrConnectionRefused eq_refl)
          as [_ ->]
    end.
    reflexivity.
Qed.

End ReadProperties.

Lemma C6_read_pops_head_witness :
  lastError examples.connectedWithData = None
  /\ rd_err (fst (Read examples.connectedWithData None)) = None
  /\ rd_view (fst (Read examples.connectedWithData None)) = [x00; x00; x00]
  /\ rcvList (snd (Read examples.connectedWithData None))
     = tl (rcvList examples.connectedWithData).
Proof.
  assert (He : lastError examples.connectedWithData = None)
    by (vm_compute; reflexivity).
  split; [exact He|].
  destruct (C6_read_pops_head examples.connectedWithData None He) as (_ & _ & H).
  destruct (rcvList examples.connectedWithData) as [|p rest] eqn:Hq;
    [vm_compute in Hq; discriminate Hq|].
  destruct (H p rest eq_refl) as (Hr & Hv & Hl & _).
  rewrite Hr, Hv, Hl.
  assert (Hp : buffer.ToView (data p) = [x00; x00; x00]).
  { vm_compute in Hq. injection Hq as <- _. reflexivity. }
  rewrite Hp. repeat split.
Defined.

Lemma C5_port_unreachable_latched_once_witness :
  state teststack.connected = StateConnected
  /\ rd_err (fst (Read (HandleControlPacket teststack.connected examples.peerID
                         stack.ControlPortUnreachable 0 (examples.datagram 0))
                    None))
     = Some tcpip.ErrConnectionRefused.
Proof.
  assert (Hs : state teststack.connected = StateConnected)
    by (vm_compute; reflexivity).
  split; [exact Hs|].
  exact (proj1 (proj1 (proj2 (proj2
    (C5_port_unreachable_latched_once teststack.connected examples.peerID 0
       (examples.datagram 0) None Hs))))).
Defined.

(** C5 (as stated) fails: after the read side of a connected endpoint
    was shut down, the [Read] that follows the connection-refused one
    returns closed-for-receive, which is neither would-block nor data. *)
Lemma C5_second_read_closed_for_receive :
  let e1 := HandleControlPacket examples.connectedShutRead examples.peerID
              stack.ControlPortUnreachable 0 (examples.datagram 0) in
  let e2 := snd (Read e1 None) in
  state examples.connectedShutRead = StateConnected
  /\ rd_err (fst (Read e1 None)) = Some tcpip.ErrConnectionRefused
  /\ rd_err (fst (Read e2 None)) = Some tcpip.ErrClosedForReceive
  /\ rd_view (fst (Read e2 None)) = [].
Proof. vm_compute. repeat split. Qed.

Section LifecycleProperties.

Context {Sigma : Type} {StackOps : stack.Ops Sigma}.

Implicit Types (e : endpoint Sigma).

(** C8: the illegal lifecycle operations fail with their error and
    leave the endpoint, its view of the stack included, exactly as it was:
    [Bind] outside INITIAL, [Connect] outside INITIAL, BOUND and CONNECTED,
    [Shutdown] outside BOUND and CONNECTED. *)
Theorem C8_illegal_operations_do_not_mutate e :
  (forall addr, state e <> StateInitial ->
     Bind e addr = (Some tcpip.ErrInvalidEndpointState, e))
  /\ (forall addr,
     state e <> StateInitial -> state e <> StateBound ->
     state e <> StateConnected ->
     Connect e addr = (Some tcpip.ErrInvalidEndpointState, e))
  /\ (forall flags, state e <> StateBound -> state e <> StateConnected ->
     Shutdown e flags = (Some tcpip.ErrNotConnected, e)).
Proof.
  split; [|split].
  - intros addr H. unfold Bind, bindLocked, EndpointState_.
    destruct (state e); [congruence| | |]; reflexivity.
  - intros addr Hi Hb Hc. unfold Connect, EndpointState_.
    destruct (tcpip.Port addr =? 0); [reflexivity|].
    destruct (state e); [congruence|congruence|congruence|reflexivity].
  - intros flags Hb Hc. unfold Shutdown, EndpointState_.
    destruct (state e); [reflexivity|congruence|congruence|reflexivity].
Qed.

(** [registerWithStack] touches the stack and the bound port flags only,
    and the identifier it returns differs from the one it was given at most
    in a local port the stack chose. *)
Lemma registerWithStack_frame e nic protos id0 id btd err e1 :
  registerWithStack e nic protos id0 = (id, btd, err, e1) ->
  state e1 = state e
  /\ route e1 = route e
  /\ TransportEndpointInfo_ e1 = TransportEndpointInfo_ e
  /\ effectiveNetProtos e1 = effectiveNetProtos e
  /\ uniqueID e1 = uniqueID e
  /\ boundBindToDevice e1 = boundBindToDevice e
  /\ dstPort e1 = dstPort e
  /\ btd = bindToDevice e
  /\ stack.LocalAddress id = stack.LocalAddress id0
  /\ stack.RemotePort id = stack.RemotePort id0
  /\ stack.RemoteAddress id = stack.RemoteAddress id0
  /\ (stack.LocalPort (ID e) <> 0 -> id = id0).
Proof.
  unfold registerWithStack.
  destruct (Z.eqb_spec (stack.LocalPort (ID e)) 0) as [Hz|Hnz].
  - destruct (stack.ReservePort _ _ _ _ _ _ _ _) as [[port perr] n].
    destruct perr as [perr|].
    + intros [= <- <- <- <-]. repeat split; congruence.
    + match goal with
      | |- context [stack.RegisterTransportEndpoint ?a ?b ?c ?d ?f ?g ?h ?i] =>
          destruct (stack.RegisterTransportEndpoint a b c d f g h i) as [[rerr|] n']
      end; intros [= <- <- <- <-]; repeat split; congruence.
  - match goal with
    | |- context [stack.RegisterTransportEndpoint ?a ?b ?c ?d ?f ?g ?h ?i] =>
        destruct (stack.RegisterTransportEndpoint a b c d f g h i) as [[rerr|] n']
    end; intros [= <- <- <- <-]; repeat split; congruence.
Qed.

Lemma Address_eqb_eq (a b : tcpip.Address) : tcpip.Address_eqb a b = true <-> a = b.
Proof.
  unfold tcpip.Address_eqb. destruct (list_eq_dec byte_eq_dec a b); split;
    congruence.
Qed.

(** The guard of [Disconnect] that tells a bind made before the connect
    from an ephemeral one. *)
Lemma Disconnect_guard e :
  negb (BindNICID e =? 0) || tcpip.Address_eqb (stack.LocalAddress (ID e)) [] = true
  <-> (BindNICID e <> 0 \/ stack.LocalAddress (ID e) = []).
Proof.
  rewrite orb_true_iff, negb_true_iff, Z.eqb_neq, Address_eqb_eq. reflexivity.
Qed.

(** What [Disconnect] does on a CONNECTED endpoint, branch by branch of
    its guard.  When the bound NIC is non-zero or the local address is
    empty it re-registers under the local identity with the remote fields
    dropped and moves to BOUND, provided the stack accepts the registration
    (when it refuses, the error is returned and the endpoint stays
    CONNECTED with its route); otherwise it releases the port, when there
    is one, and moves to INITIAL with an empty identity.  Whenever it
    succeeds the old registration is dropped and the route is released. *)
Theorem Disconnect_by_guard e r :
  state e = StateConnected ->
  route e = Some r ->
  let id0 :=
    {| stack.LocalPort := stack.LocalPort (ID e);
       stack.LocalAddress := stack.LocalAddress (ID e);
       stack.RemotePort := 0; stack.RemoteAddress := [] |} in
  (BindNICID e <> 0 \/ stack.LocalAddress (ID e) = [] ->
     let '(id, btd, err, e1) :=
       registerWithStack e (RegisterNICID e) (effectiveNetProtos e) id0 in
     match err with
     | Some err =>
         Disconnect e = Ret (Some err, e1)
         /\ state e1 = StateConnected /\ route e1 = Some r
     | None =>
         exists e',
           Disconnect e = Ret (None, e')
           /\ state e' = StateBound
           /\ ID e' = id
           /\ stack.LocalAddress id = stack.LocalAddress (ID e)
           /\ stack.RemotePort id = 0
           /\ stack.RemoteAddress id = []
           /\ (stack.LocalPort (ID e) <> 0 ->
               stack.LocalPort id = stack.LocalPort (ID e))
           /\ route e' = None
           /\ dstPort e' = 0
           /\ stack.net (stack_ e')
              = stack.Route_Release
                  (stack.UnregisterTransportEndpoint (stack.net (stack_ e1))
                     (RegisterNICID e) (effectiveNetProtos e) ProtocolNumber
                     (ID e) (uniqueID e) (boundPortFlags e1)
                     (boundBindToDevice e))
                  r
     end)
  /\ (BindNICID e = 0 -> stack.LocalAddress (ID e) <> [] ->
     exists e',
       Disconnect e = Ret (None, e')
       /\ state e' = StateInitial
       /\ ID e' = stack.TransportEndpointID_zero
       /\ route e' = None
       /\ dstPort e' = 0
       /\ stack.net (stack_ e')
          = stack.Route_Release
              (stack.UnregisterTransportEndpoint
                 (if stack.LocalPort (ID e) =? 0
                  then stack.net (stack_ e)
                  else stack.ReleasePort (stack.net (stack_ e))
                         (effectiveNetProtos e) ProtocolNumber
                         (stack.LocalAddress (ID e)) (stack.LocalPort (ID e))
                         (boundPortFlags e) (boundBindToDevice e)
                         tcpip.FullAddress_zero)
                 (RegisterNICID e) (effectiveNetProtos e) ProtocolNumber
                 (ID e) (uniqueID e) (boundPortFlags e) (boundBindToDevice e))
              r).
Proof.
  intros Hst Hr id0. split.
  - intros Hg. apply Disconnect_guard in Hg.
    destruct (registerWithStack e (RegisterNICID e) (effectiveNetProtos e) id0)
      as [[[id btd] err] e1] eqn:Hreg.
    destruct (registerWithStack_frame _ _ _ _ _ _ _ _ Hreg)
      as (Hs1 & Hr1 & Hi1 & Hp1 & Hu1 & Hb1 & Hd1 & Hbtd & Hla & Hrp & Hra & Hlp).
    unfold Disconnect, EndpointState_. rewrite Hst, Hg. fold id0. rewrite Hreg.
    destruct err as [err|].
    + repeat split; congruence.
    + unfold Disconnect_finish. cbn [route set_boundBindToDevice set_ID
        set_TransportEndpointInfo set_net set_stack setEndpointState set_state].
      rewrite Hr1, Hr. eexists. split; [reflexivity|].
      cbn. unfold RegisterNICID, ID, setEndpointState. cbn.
      rewrite Hi1, Hp1, Hu1, Hb1.
      repeat split; try assumption. intros Hnz. now rewrite (Hlp Hnz).
  - intros Hb Ha.
    assert (Hg : negb (BindNICID e =? 0)
                 || tcpip.Address_eqb (stack.LocalAddress (ID e)) [] = false).
    { apply not_true_is_false. rewrite Disconnect_guard. tauto. }
    unfold Disconnect, EndpointState_. rewrite Hst, Hg.
    unfold Disconnect_finish.
    destruct (stack.LocalPort (ID e) =? 0); cbn; rewrite Hr;
      eexists; (split; [reflexivity|]); cbn; repeat split.
Qed.

End LifecycleProperties.

Lemma C8_illegal_operations_do_not_mutate_witness :
  state examples.closed <> StateInitial
  /\ Bind examples.closed teststack.peerV4
     = (Some tcpip.ErrInvalidEndpointState, examples.closed).
Proof.
  assert (H : state examples.closed <> StateInitial) by (vm_compute; discriminate).
  split; [exact H|].
  exact (proj1 (C8_illegal_operations_do_not_mutate examples.closed)
           teststack.peerV4 H).
Defined.

Lemma Disconnect_by_guard_example :
  state teststack.connected = StateConnected
  /\ route teststack.connected <> None
  /\ BindNICID teststack.connected = 0
  /\ stack.LocalAddress (ID teststack.connected) <> []
  /\ exists e',
       Disconnect teststack.connected = Ret (None, e')
       /\ state e' = StateInitial
       /\ ID e' = stack.TransportEndpointID_zero
       /\ route e' = None.
Proof.
  assert (Hs : state teststack.connected = StateConnected)
    by (vm_compute; reflexivity).
  destruct (route teststack.connected) as [r|] eqn:Hr;
    [|vm_compute in Hr; discriminate Hr].
  assert (Hb : BindNICID teststack.connected = 0) by (vm_compute; reflexivity).
  assert (Ha : stack.LocalAddress (ID teststack.connected) <> [])
    by (vm_compute; discriminate).
  repeat (split; [assumption || discriminate|]).
  destruct (proj2 (Disconnect_by_guard teststack.connected r Hs Hr)
              Hb Ha) as (e' & Hd & Hst & Hid & Hro & _).
  exists e'. repeat split; assumption.
Defined.

(** The guard of [Disconnect] on two endpoints.  An endpoint connected
    from the initial state has no bound NIC and a non-empty local address
    (the one the route gave it), and [Disconnect] takes it to INITIAL; an
    endpoint bound to the wildcard address and then connected has no bound
    NIC and an empty local address, and [Disconnect] takes it to BOUND. *)
Lemma Disconnect_guard_examples :
  (state teststack.connected = StateConnected
   /\ BindNICID teststack.connected = 0
   /\ stack.LocalAddress (ID teststack.connected) = teststack.localV4
   /\ match Disconnect teststack.connected with
      | Ret (None, e') => state e' = StateInitial
      | _ => False
      end)
  /\ (state teststack.boundThenConnected = StateConnected
      /\ BindNICID teststack.boundThenConnected = 0
      /\ stack.LocalAddress (ID teststack.boundThenConnected) = []
      /\ match Disconnect teststack.boundThenConnected with
         | Ret (None, e') => state e' = StateBound
         | _ => False
         end).
Proof. vm_compute. repeat split. Qed.

(** ** Wire format of the UDP header *)

Lemma uint16_range (v : Z) : 0 <= uint16 v < 65536.
Proof. rewrite uint16_mod. apply Z.mod_pos_bound. lia. Qed.

Lemma uint16_idem (v : Z) : uint16 (uint16 v) = uint16 v.
Proof. rewrite !uint16_mod. apply Z.mod_mod. lia. Qed.

Lemma uint16_small (v : Z) : 0 <= v < 65536 -> uint16 v = v.
Proof. intros H. rewrite uint16_mod. now apply Z.mod_small. Qed.

Lemma PutUint16_value (v : Z) :
  Z.lor (Z.shiftl (byteZ (byteOf (Z.shiftr v 8))) 8) (byteZ (byteOf v)) = uint16 v.
Proof.
  rewrite !byteZ_byteOf. unfold uint8, uint16.
  apply Z.bits_inj'. intros n Hn.
  rewrite Z.lor_spec, !Z.land_spec, Z.shiftl_spec by assumption.
  change 255 with (Z.ones 8). change 65535 with (Z.ones 16).
  destruct (Z.ltb_spec n 8) as [H8|H8].
  - rewrite (Z.testbit_neg_r _ (n - 8)) by lia.
    rewrite !Z.ones_spec_low by lia. now rewrite andb_true_r.
  - rewrite Z.land_spec, Z.shiftr_spec by lia.
    replace (n - 8 + 8) with n by lia.
    rewrite (Z.ones_spec_high 8 n) by lia. rewrite andb_false_r, orb_false_r.
    destruct (Z.ltb_spec n 16) as [H16|H16].
    + now rewrite !Z.ones_spec_low by lia.
    + now rewrite !Z.ones_spec_high by lia.
Qed.

(** Two bytes stored big-endian read back as the low sixteen bits. *)
Lemma Uint16_PutUint16 (v : Z) (rest : buffer.View) :
  header.Uint16 (header.PutUint16 v ++ rest) = Ret (uint16 v).
Proof.
  unfold header.PutUint16, header.Uint16. cbn [app]. f_equal.
  apply PutUint16_value.
Qed.

Lemma lor_shiftl_8 (hi lo : Z) :
  0 <= lo < 256 -> Z.lor (Z.shiftl hi 8) lo = hi * 256 + lo.
Proof.
  intros Hlo.
  assert (Hd : Z.land (Z.shiftl hi 8) lo = 0).
  { apply Z.bits_inj'. intros n Hn. rewrite Z.land_spec, Z.bits_0.
    destruct (Z.ltb_spec n 8) as [H8|H8].
    - now rewrite Z.shiftl_spec_low by lia.
    - replace lo with (Z.land lo (Z.ones 8))
        by (rewrite Z.land_ones by lia; apply Z.mod_small; cbn; lia).
      rewrite Z.land_spec, Z.ones_spec_high by lia.
      now rewrite !andb_false_r. }
  rewrite <- (Z.lxor_lor _ _ Hd), <- (Z.add_nocarry_lxor _ _ Hd).
  now rewrite Z.shiftl_mul_pow2 by lia.
Qed.

Lemma wordSum_PutUint16 (v : Z) : wordSum (header.PutUint16 v) = uint16 v.
Proof.
  rewrite <- PutUint16_value. cbn [wordSum header.PutUint16].
  rewrite lor_shiftl_8 by apply byteZ_range. lia.
Qed.

(** ** The Internet checksum *)

Lemma list_pair_ind (A : Type) (P : list A -> Prop) :
  P [] -> (forall a, P [a]) ->
  (forall a b rest, P rest -> P (a :: b :: rest)) ->
  forall l, P l.
Proof.
  intros Hnil Hone Hstep.
  assert (H : forall l, P l /\ forall a, P (a :: l)).
  { induction l as [|b l [IH1 IH2]]; split; auto. }
  intros l. apply H.
Qed.

Lemma wordSum_bounds (buf : buffer.View) :
  0 <= wordSum buf <= 65535 * Z.of_nat (length buf).
Proof.
  induction buf as [|b|b0 b1 rest IH] using list_pair_ind.
  - cbn. lia.
  - pose proof (byteZ_range b). cbn [wordSum length]. lia.
  - pose proof (byteZ_range b0). pose proof (byteZ_range b1).
    cbn [wordSum length]. lia.
Qed.

Lemma uint32_small (v : Z) : 0 <= v < 4294967296 -> uint32 v = v.
Proof. intros H. rewrite uint32_mod. now apply Z.mod_small. Qed.

Lemma calculateChecksum_acc_spec (buf : buffer.View) :
  forall v, 0 <= v -> v + wordSum buf < 4294967296 ->
  header.calculateChecksum_acc buf v = v + wordSum buf.
Proof.
  induction buf as [|b|b0 b1 rest IH] using list_pair_ind; intros v Hv Hb.
  - cbn. lia.
  - cbn [header.calculateChecksum_acc wordSum] in *.
    rewrite Z.shiftl_mul_pow2 by lia.
    pose proof (byteZ_range b). apply uint32_small. lia.
  - cbn [header.calculateChecksum_acc wordSum] in *.
    rewrite Z.shiftl_mul_pow2 by lia.
    pose proof (byteZ_range b0). pose proof (byteZ_range b1).
    pose proof (wordSum_bounds rest).
    rewrite uint32_small by lia. change (2 ^ 8) with 256.
    rewrite IH by lia. lia.
Qed.

Lemma fold16_range (x : Z) : 0 <= fold16 x <= 65535.
Proof.
  unfold fold16. destruct (x =? 0); [lia|].
  pose proof (Z.mod_pos_bound (x - 1) 65535 ltac:(lia)). lia.
Qed.

Lemma fold16_zero (x : Z) : 0 <= x -> (fold16 x = 0 <-> x = 0).
Proof.
  intros Hx. unfold fold16. destruct (Z.eqb_spec x 0); [tauto|].
  pose proof (Z.mod_pos_bound (x - 1) 65535 ltac:(lia)). lia.
Qed.

Lemma fold16_small (x : Z) : 0 <= x <= 65535 -> fold16 x = x.
Proof.
  intros Hx. unfold fold16. destruct (Z.eqb_spec x 0); [lia|].
  rewrite Z.mod_small; lia.
Qed.

(** [fold16 x] is [x] less a multiple of 65535. *)
Lemma fold16_congr (x : Z) :
  0 <= x -> exists k, 0 <= k /\ x = fold16 x + 65535 * k.
Proof.
  intros Hx. unfold fold16. destruct (Z.eqb_spec x 0) as [->|Hn].
  - exists 0. lia.
  - exists ((x - 1) / 65535).
    pose proof (Z.div_mod (x - 1) 65535 ltac:(lia)).
    pose proof (Z.div_pos (x - 1) 65535 ltac:(lia) ltac:(lia)). lia.
Qed.

Lemma fold16_add_multiple (x k : Z) :
  0 < x -> 0 <= k -> fold16 (x + 65535 * k) = fold16 x.
Proof.
  intros Hx Hk. unfold fold16.
  destruct (Z.eqb_spec (x + 65535 * k) 0); [lia|].
  destruct (Z.eqb_spec x 0); [lia|].
  replace (x + 65535 * k - 1) with (x - 1 + k * 65535) by lia.
  now rewrite Z.mod_add by lia.
Qed.

Lemma fold16_fold16_add (a b : Z) :
  0 <= a -> 0 <= b -> fold16 (fold16 a + b) = fold16 (a + b).
Proof.
  intros Ha Hb. destruct (fold16_congr a Ha) as (k & Hk & E).
  pose proof (fold16_range a) as Hr.
  destruct (Z.eq_dec (fold16 a + b) 0) as [Hz|Hnz].
  - assert (Ha0 : a = 0) by (apply fold16_zero; [exact Ha | lia]).
    subst a. replace b with 0 by (cbn in Hz; lia). reflexivity.
  - rewrite E at 2. replace (fold16 a + 65535 * k + b)
      with (fold16 a + b + 65535 * k) by lia.
    rewrite fold16_add_multiple by lia. reflexivity.
Qed.

(** The end-around-carry fold of a 32-bit accumulator. *)
Lemma ChecksumCombine_fold16 (v : Z) :
  0 <= v < 4294967296 ->
  header.ChecksumCombine (uint16 v) (uint16 (Z.shiftr v 16)) = fold16 v.
Proof.
  intros Hv. unfold header.ChecksumCombine.
  rewrite Z.shiftr_div_pow2 by lia. change (2 ^ 16) with 65536.
  assert (Hhi : 0 <= v / 65536 < 65536).
  { split; [apply Z.div_pos; lia|apply Z.div_lt_upper_bound; lia]. }
  rewrite (uint16_small (v / 65536)) by lia.
  rewrite (uint16_mod v).
  pose proof (Z.mod_pos_bound v 65536 ltac:(lia)) as Hlo.
  pose proof (Z.div_mod v 65536 ltac:(lia)) as Hdm.
  set (lo := v mod 65536) in *. set (hi := v / 65536) in *.
  rewrite (uint32_small (lo + hi)) by lia.
  rewrite Z.shiftr_div_pow2 by lia. change (2 ^ 16) with 65536.
  unfold fold16.
  destruct (Z.ltb_spec (lo + hi) 65536) as [Hs|Hs].
  - rewrite (Z.div_small (lo + hi)) by lia. rewrite Z.add_0_r.
    rewrite uint32_small, uint16_small by lia.
    destruct (Z.eqb_spec v 0) as [Hz|Hz]; [lia|].
    replace (v - 1) with (lo + hi - 1 + hi * 65535) by lia.
    rewrite Z.mod_add by lia. rewrite Z.mod_small; lia.
  - assert (Hq : (lo + hi) / 65536 = 1).
    { symmetry. apply (Z.div_unique _ _ 1 (lo + hi - 65536)); lia. }
    rewrite Hq. rewrite uint32_small by lia. rewrite uint16_mod.
    replace (lo + hi + 1) with (lo + hi - 65535 + 1 * 65536) by lia.
    rewrite Z.mod_add by lia. rewrite Z.mod_small by lia.
    destruct (Z.eqb_spec v 0) as [Hz|Hz]; [lia|].
    replace (v - 1) with (lo + hi - 65536 + (hi + 1) * 65535) by lia.
    rewrite Z.mod_add by lia. rewrite Z.mod_small; lia.
Qed.

(** [header.Checksum] on a buffer of at most 65535 bytes is the
    one's-complement sum of its words and the initial value. *)
Lemma Checksum_spec (buf : buffer.View) (initial : Z) :
  0 <= initial <= 65535 -> buffer.len buf <= 65535 ->
  header.Checksum buf initial = fold16 (initial + wordSum buf).
Proof.
  intros Hi Hl. unfold header.Checksum. unfold buffer.len in Hl.
  pose proof (wordSum_bounds buf) as Hw.
  assert (Hb : initial + wordSum buf < 4294967296) by lia.
  rewrite (uint32_small initial) by lia.
  rewrite calculateChecksum_acc_spec by lia.
  apply ChecksumCombine_fold16. lia.
Qed.

Lemma Checksum_range (buf : buffer.View) (initial : Z) :
  0 <= initial <= 65535 -> buffer.len buf <= 65535 ->
  0 <= header.Checksum buf initial <= 65535.
Proof. intros. rewrite Checksum_spec by assumption. apply fold16_range. Qed.

(** Folding the checksum over the views of a payload. *)
Lemma Checksum_views (views : list buffer.View) :
  forall x, 0 <= x ->
  Forall (fun v => buffer.len v <= 65535) views ->
  fold_left (fun xsum v => header.Checksum v xsum) views (fold16 x)
  = fold16 (x + fold_right (fun v s => wordSum v + s) 0 views).
Proof.
  induction views as [|v views IH]; intros x Hx Hall.
  - cbn. now rewrite Z.add_0_r.
  - inversion Hall as [|? ? Hv Hvs]; subst. cbn [fold_left fold_right].
    rewrite Checksum_spec by (auto using fold16_range).
    pose proof (wordSum_bounds v).
    rewrite fold16_fold16_add by lia.
    rewrite IH by (assumption || lia). f_equal. lia.
Qed.

Lemma PseudoHeaderChecksum_spec (protocol : Z) (src dst : tcpip.Address) (totalLen : Z) :
  buffer.len src <= 65535 -> buffer.len dst <= 65535 ->
  header.PseudoHeaderChecksum protocol src dst totalLen
  = fold16 (wordSum src + wordSum dst + uint16 totalLen + uint8 protocol).
Proof.
  intros Hs Hd. unfold header.PseudoHeaderChecksum.
  pose proof (wordSum_bounds src). pose proof (wordSum_bounds dst).
  pose proof (uint16_range totalLen).
  assert (Hp : wordSum [x00; byteOf protocol] = uint8 protocol).
  { cbn [wordSum]. rewrite byteZ_byteOf. change (byteZ x00) with 0. lia. }
  assert (0 <= uint8 protocol < 256)
    by (rewrite uint8_mod; apply Z.mod_pos_bound; lia).
  rewrite (Checksum_spec src 0) by lia. rewrite Z.add_0_l.
  rewrite (Checksum_spec dst) by (auto using fold16_range).
  rewrite fold16_fold16_add by lia.
  rewrite (Checksum_spec (header.PutUint16 totalLen))
    by first [apply fold16_range | unfold buffer.len; cbn [length header.PutUint16]; lia].
  rewrite wordSum_PutUint16. rewrite fold16_fold16_add by lia.
  rewrite (Checksum_spec [x00; byteOf protocol])
    by first [apply fold16_range | unfold buffer.len; cbn [length header.PutUint16]; lia].
  rewrite Hp. rewrite fold16_fold16_add by lia. reflexivity.
Qed.

(** The pseudo-header sum does not depend on which address comes first. *)
Lemma PseudoHeaderChecksum_comm (protocol : Z) (a b : tcpip.Address) (totalLen : Z) :
  buffer.len a <= 65535 -> buffer.len b <= 65535 ->
  header.PseudoHeaderChecksum protocol a b totalLen
  = header.PseudoHeaderChecksum protocol b a totalLen.
Proof.
  intros Ha Hb. rewrite !PseudoHeaderChecksum_spec by assumption.
  f_equal. lia.
Qed.

Lemma not16_spec (x : Z) : not16 x = 65535 - uint16 x.
Proof.
  unfold not16. change 65535 with (Z.ones 16).
  assert (Hd : Z.land (uint16 x) (Z.lxor (uint16 x) (Z.ones 16)) = 0).
  { apply Z.bits_inj'. intros n Hn. unfold uint16.
    change 65535 with (Z.ones 16).
    rewrite Z.land_spec, Z.lxor_spec, Z.land_spec, Z.bits_0.
    destruct (Z.ltb_spec n 16).
    - rewrite Z.ones_spec_low by lia. now destruct (Z.testbit x n).
    - rewrite Z.ones_spec_high by lia. now rewrite andb_false_r. }
  pose proof (Z.add_nocarry_lxor _ _ Hd) as H.
  rewrite <- Z.lxor_assoc, Z.lxor_nilpotent, Z.lxor_0_l in H.
  change (Z.ones 16) with 65535 in *. lia.
Qed.

(** ** The UDP header [sendUDP] builds *)

Lemma UDP_Encode_fresh (u : header.UDPFields) :
  header.UDP_Encode (repeat x00 (Z.to_nat header.UDPMinimumSize)) u
  = Ret (udpHeader (header.SrcPort u) (header.DstPort u) (header.Length u)
           (header.Checksum_ u)).
Proof. reflexivity. Qed.

Lemma UDP_SetChecksum_udpHeader (sp dp l c c' : Z) :
  header.UDP_SetChecksum (udpHeader sp dp l c) c' = Ret (udpHeader sp dp l c').
Proof. reflexivity. Qed.

Lemma UDP_CalculateChecksum_udpHeader (sp dp l c x : Z) :
  header.UDP_CalculateChecksum (udpHeader sp dp l c) x
  = Ret (header.Checksum (udpHeader sp dp l c) x).
Proof. reflexivity. Qed.

Lemma UDP_fields_udpHeader (sp dp l c : Z) :
  header.UDP_SourcePort (udpHeader sp dp l c) = Ret (uint16 sp)
  /\ header.UDP_DestinationPort (udpHeader sp dp l c) = Ret (uint16 dp)
  /\ header.UDP_Length (udpHeader sp dp l c) = Ret (uint16 l)
  /\ header.UDP_Checksum (udpHeader sp dp l c) = Ret (uint16 c).
Proof.
  repeat split;
    [ change (header.UDP_SourcePort (udpHeader sp dp l c))
        with (header.Uint16 (header.PutUint16 sp ++
                (header.PutUint16 dp ++ header.PutUint16 l ++ header.PutUint16 c)))
    | change (header.UDP_DestinationPort (udpHeader sp dp l c))
        with (header.Uint16 (header.PutUint16 dp ++
                (header.PutUint16 l ++ header.PutUint16 c)))
    | change (header.UDP_Length (udpHeader sp dp l c))
        with (header.Uint16 (header.PutUint16 l ++ header.PutUint16 c))
    | change (header.UDP_Checksum (udpHeader sp dp l c))
        with (header.Uint16 (header.PutUint16 c ++ [])) ];
    apply Uint16_PutUint16.
Qed.

Lemma wordSum_udpHeader (sp dp l c : Z) :
  wordSum (udpHeader sp dp l c) = uint16 sp + uint16 dp + uint16 l + uint16 c.
Proof.
  rewrite <- !wordSum_PutUint16. unfold udpHeader, header.PutUint16.
  cbn [app wordSum]. lia.
Qed.

Lemma len_udpHeader (sp dp l c : Z) : buffer.len (udpHeader sp dp l c) = 8.
Proof. reflexivity. Qed.

Lemma Checksum_in_range (buf : buffer.View) (initial : Z) :
  0 <= header.Checksum buf initial <= 65535.
Proof.
  unfold header.Checksum, header.ChecksumCombine.
  match goal with |- 0 <= uint16 ?x <= _ => pose proof (uint16_range x) end.
  lia.
Qed.

Lemma fold_Checksum_in_range (views : list buffer.View) :
  forall x, 0 <= x <= 65535 ->
  0 <= fold_left (fun xsum v => header.Checksum v xsum) views x <= 65535.
Proof.
  induction views as [|v views IH]; intros x Hx; cbn [fold_left].
  - assumption.
  - apply IH, Checksum_in_range.
Qed.


(** The packet [sendUDP] builds, in closed form: it never panics, the
    header is the encoded one and the checksum field holds the complement
    of the computed sum when a checksum is required and zero otherwise. *)
Lemma sendUDP_packet_eq (r : stack.Route) (data : buffer.VectorisedView)
    (localPort remotePort owner : Z) (noChecksum : bool) :
  sendUDP_packet r data localPort remotePort owner noChecksum
  = Ret {| stack.Owner := owner; stack.NICID := 0;
           stack.NetworkProtocolNumber := 0;
           stack.TransportProtocolNumber := ProtocolNumber;
           stack.RXTransportChecksumValidated := false;
           stack.NetworkHeader := stack.Network_zero;
           stack.TransportHeader :=
             udpHeader localPort remotePort (udpLength data)
               (if checksumRequired r noChecksum
                then not16 (header.Checksum
                              (udpHeader localPort remotePort (udpLength data) 0)
                              (payloadChecksum r data (udpLength data)))
                else 0);
           stack.Data := data |}.
Proof.
  unfold sendUDP_packet. rewrite UDP_Encode_fresh. cbn [bind].
  cbn [header.SrcPort header.DstPort header.Length header.Checksum_].
  fold (udpLength data). fold (checksumRequired r noChecksum).
  destruct (checksumRequired r noChecksum).
  - fold (payloadChecksum r data (udpLength data)).
    rewrite UDP_CalculateChecksum_udpHeader. cbn [bind].
    rewrite UDP_SetChecksum_udpHeader. reflexivity.
  - reflexivity.
Qed.

Lemma not16_range (x : Z) : 0 <= not16 x <= 65535.
Proof. rewrite not16_spec. pose proof (uint16_range x). lia. Qed.

(** C7: on the send path the checksum field is computed and set exactly
    when the route requires transport checksums and the no-checksum option
    is off or the network protocol is IPv6; otherwise the field stays
    zero.  So over IPv6 it is computed whatever the option says, and over
    another protocol with the option on it is left zero. *)
Theorem C7_checksum_set_iff_required (r : stack.Route)
    (data : buffer.VectorisedView) (localPort remotePort owner : Z)
    (noChecksum : bool) :
  exists pkt,
    sendUDP_packet r data localPort remotePort owner noChecksum = Ret pkt
    /\ stack.Data pkt = data
    /\ header.UDP_SourcePort (stack.TransportHeader pkt) = Ret (uint16 localPort)
    /\ header.UDP_DestinationPort (stack.TransportHeader pkt) = Ret (uint16 remotePort)
    /\ header.UDP_Length (stack.TransportHeader pkt) = Ret (udpLength data)
    /\ header.UDP_Checksum (stack.TransportHeader pkt)
       = Ret (if stack.Route_RequiresTXTransportChecksum r
                 && (negb noChecksum
                     || (stack.Route_NetProto r =? header.IPv6ProtocolNumber))
              then not16 (header.Checksum
                            (udpHeader localPort remotePort (udpLength data) 0)
                            (payloadChecksum r data (udpLength data)))
              else 0)
    /\ (stack.Route_RequiresTXTransportChecksum r = true ->
        stack.Route_NetProto r = header.IPv6ProtocolNumber ->
        header.UDP_Checksum (stack.TransportHeader pkt)
        = Ret (not16 (header.Checksum
                        (udpHeader localPort remotePort (udpLength data) 0)
                        (payloadChecksum r data (udpLength data)))))
    /\ (stack.Route_NetProto r <> header.IPv6ProtocolNumber ->
        noChecksum = true ->
        header.UDP_Checksum (stack.TransportHeader pkt) = Ret 0).
Proof.
  eexists. split; [apply sendUDP_packet_eq|]. cbn [stack.Data stack.TransportHeader].
  destruct (UDP_fields_udpHeader localPort remotePort (udpLength data)
              (if checksumRequired r noChecksum
               then not16 (header.Checksum
                             (udpHeader localPort remotePort (udpLength data) 0)
                             (payloadChecksum r data (udpLength data)))
               else 0)) as (Hs & Hd & Hl & Hc).
  assert (Hc' : header.UDP_Checksum
                  (udpHeader localPort remotePort (udpLength data)
                     (if checksumRequired r noChecksum
                      then not16 (header.Checksum
                                    (udpHeader localPort remotePort (udpLength data) 0)
                                    (payloadChecksum r data (udpLength data)))
                      else 0))
                = Ret (if checksumRequired r noChecksum
                       then not16 (header.Checksum
                                     (udpHeader localPort remotePort (udpLength data) 0)
                                     (payloadChecksum r data (udpLength data)))
                       else 0)).
  { rewrite Hc. f_equal. destruct (checksumRequired r noChecksum).
    - apply uint16_small. pose proof (not16_range
        (header.Checksum (udpHeader localPort remotePort (udpLength data) 0)
           (payloadChecksum r data (udpLength data)))). lia.
    - reflexivity. }
  split; [reflexivity|]. split; [exact Hs|]. split; [exact Hd|].
  split; [rewrite Hl; f_equal; apply uint16_idem|].
  split; [exact Hc'|]. split.
  - intros Hreq H6. rewrite Hc'. unfold checksumRequired.
    rewrite Hreq, H6, Z.eqb_refl, orb_true_r. reflexivity.
  - intros H6 Hno. rewrite Hc'. unfold checksumRequired.
    apply Z.eqb_neq in H6. rewrite H6, Hno, andb_false_r. reflexivity.
Qed.

Lemma C7_checksum_set_iff_required_witness :
  stack.Route_RequiresTXTransportChecksum examples.route6 = true
  /\ stack.Route_NetProto examples.route6 = header.IPv6ProtocolNumber
  /\ exists pkt,
       sendUDP_packet examples.route6 [[x01; x02; x03]] 49152 53 0 true = Ret pkt
       /\ header.UDP_Checksum (stack.TransportHeader pkt)
          = Ret (not16 (header.Checksum
                          (udpHeader 49152 53 (udpLength [[x01; x02; x03]]) 0)
                          (payloadChecksum examples.route6 [[x01; x02; x03]]
                             (udpLength [[x01; x02; x03]])))).
Proof.
  split; [reflexivity|]. split; [reflexivity|].
  destruct (C7_checksum_set_iff_required examples.route6 [[x01; x02; x03]]
              49152 53 0 true) as (pkt & Hp & _ & _ & _ & _ & _ & H6 & _).
  exists pkt. split; [exact Hp|]. apply H6; reflexivity.
Defined.

(** [uint16] on a value already encoded as a length. *)
Lemma uint16_udpLength (data : buffer.VectorisedView) :
  uint16 (udpLength data) = udpLength data.
Proof. apply uint16_idem. Qed.

(** [verifyChecksum] on a packet delivered over route [r]. *)
Lemma verifyChecksum_delivered (hdr : header.UDP) (r : stack.Route)
    (params : stack.NetworkHeaderParams) (pkt : stack.PacketBuffer) :
  verifyChecksum hdr (delivered r params pkt)
  = (c <- header.UDP_Checksum hdr ;;
     if negb (c =? 0) || (stack.Route_NetProto r =? header.IPv6ProtocolNumber)
     then
       if (stack.Route_NetProto r =? header.IPv4ProtocolNumber)
          || (stack.Route_NetProto r =? header.IPv6ProtocolNumber)
       then
         l <- header.UDP_Length hdr ;;
         cs <- header.UDP_CalculateChecksum hdr
                 (fold_left (fun xsum v => header.Checksum v xsum)
                    (buffer.Views (stack.Data pkt))
                    (header.PseudoHeaderChecksum ProtocolNumber
                       (stack.Route_RemoteAddress r) (stack.Route_LocalAddress r) l)) ;;
         Ret (cs =? 0xffff)
       else Panicked
     else Ret true).
Proof.
  unfold verifyChecksum, stack.PacketBuffer_Network, delivered.
  cbn [stack.RXTransportChecksumValidated stack.NetworkProtocolNumber
       stack.NetworkHeader stack.Data stack.DestinationAddress stack.SourceAddress].
  destruct (header.UDP_Checksum hdr) as [c|]; [|reflexivity]. cbn [bind].
  destruct (negb (c =? 0) || (stack.Route_NetProto r =? header.IPv6ProtocolNumber));
    [|reflexivity].
  destruct ((stack.Route_NetProto r =? header.IPv4ProtocolNumber)
            || (stack.Route_NetProto r =? header.IPv6ProtocolNumber)); reflexivity.
Qed.

(** X26: the checksum round trip of the send and receive paths: a packet
    that [sendUDP] emits with the checksum filled in passes [verifyChecksum]
    when it is received over the same route. *)
Theorem sendUDP_verifyChecksum_roundtrip (r : stack.Route)
    (data : buffer.VectorisedView) (localPort remotePort owner : Z)
    (noChecksum : bool) (params : stack.NetworkHeaderParams) :
  buffer.len (stack.Route_LocalAddress r) <= 65535 ->
  buffer.len (stack.Route_RemoteAddress r) <= 65535 ->
  stack.Route_NetProto r = header.IPv4ProtocolNumber
  \/ stack.Route_NetProto r = header.IPv6ProtocolNumber ->
  checksumRequired r noChecksum = true ->
  exists pkt,
    sendUDP_packet r data localPort remotePort owner noChecksum = Ret pkt
    /\ verifyChecksum (stack.TransportHeader pkt) (delivered r params pkt)
       = Ret true.
Proof.
  intros Hl Hr Hproto Hreq.
  eexists. split; [apply sendUDP_packet_eq|].
  rewrite Hreq. cbn [stack.TransportHeader].
  set (x := payloadChecksum r data (udpLength data)).
  set (S := header.Checksum (udpHeader localPort remotePort (udpLength data) 0) x).
  assert (Hx : 0 <= x <= 65535).
  { unfold x, payloadChecksum. apply fold_Checksum_in_range.
    unfold stack.Route_PseudoHeaderChecksum, header.PseudoHeaderChecksum.
    apply Checksum_in_range. }
  assert (HS : S = fold16 (x + (uint16 localPort + uint16 remotePort + udpLength data))).
  { unfold S. rewrite Checksum_spec by (rewrite ?len_udpHeader; lia).
    rewrite wordSum_udpHeader, uint16_udpLength.
    change (uint16 0) with 0. f_equal. lia. }
  pose proof (fold16_range (x + (uint16 localPort + uint16 remotePort + udpLength data)))
    as HSr. rewrite <- HS in HSr.
  assert (Hn : not16 S = 65535 - S)
    by (rewrite not16_spec, uint16_small by lia; reflexivity).
  rewrite verifyChecksum_delivered. cbn [stack.Data].
  destruct (UDP_fields_udpHeader localPort remotePort (udpLength data) (not16 S))
    as (_ & _ & Hlen & Hck).
  rewrite Hck. cbn [bind]. rewrite (uint16_small (not16 S)) by lia.
  destruct (negb (not16 S =? 0)
            || (stack.Route_NetProto r =? header.IPv6ProtocolNumber)); [|reflexivity].
  assert (Hp : (stack.Route_NetProto r =? header.IPv4ProtocolNumber)
               || (stack.Route_NetProto r =? header.IPv6ProtocolNumber) = true)
    by (destruct Hproto as [-> | ->]; reflexivity).
  rewrite Hp, Hlen. cbn [bind]. rewrite uint16_udpLength.
  rewrite PseudoHeaderChecksum_comm by assumption.
  fold (stack.Route_PseudoHeaderChecksum r ProtocolNumber (udpLength data)).
  fold (payloadChecksum r data (udpLength data)). fold x.
  rewrite UDP_CalculateChecksum_udpHeader. cbn [bind].
  rewrite Checksum_spec by (rewrite ?len_udpHeader; lia).
  rewrite wordSum_udpHeader, uint16_udpLength, (uint16_small (not16 S)) by lia.
  rewrite Hn, HS.
  set (T := x + (uint16 localPort + uint16 remotePort + udpLength data)).
  assert (HT : 0 <= T).
  { unfold T. pose proof (uint16_range localPort). pose proof (uint16_range remotePort).
    pose proof (uint16_range (int (header.UDPMinimumSize + buffer.Size data))).
    unfold udpLength. lia. }
  destruct (fold16_congr T HT) as (k & Hk & E).
  replace (x + (uint16 localPort + uint16 remotePort + udpLength data
                + (65535 - fold16 T)))
    with (65535 + 65535 * k) by (unfold T in *; lia).
  rewrite fold16_add_multiple by lia. reflexivity.
Qed.

Lemma sendUDP_verifyChecksum_roundtrip_witness :
  checksumRequired examples.route6 false = true
  /\ exists pkt,
       sendUDP_packet examples.route6 examples.payloadAllOnes 49152 53 0 false
       = Ret pkt
       /\ verifyChecksum (stack.TransportHeader pkt)
            (delivered examples.route6
               {| stack.Protocol := 17; stack.TTL := 64; stack.NHP_TOS := 0 |} pkt)
          = Ret true.
Proof.
  split; [reflexivity|].
  apply sendUDP_verifyChecksum_roundtrip.
  - vm_compute. discriminate.
  - vm_compute. discriminate.
  - right. reflexivity.
  - reflexivity.
Defined.

(** C4, the code at the failing input: over IPv6, on a route that requires
    the transport checksum, the one's-complement sum of this datagram is
    0xffff and [sendUDP] stores its complement, so the packet goes out
    with a zero checksum field. *)
Theorem C4_ipv6_packet_with_zero_checksum :
  stack.Route_NetProto examples.route6 = header.IPv6ProtocolNumber
  /\ checksumRequired examples.route6 false = true
  /\ header.Checksum (udpHeader 49152 53 (udpLength examples.payloadAllOnes) 0)
       (payloadChecksum examples.route6 examples.payloadAllOnes
          (udpLength examples.payloadAllOnes)) = 0xffff
  /\ match sendUDP_packet examples.route6 examples.payloadAllOnes 49152 53 0 false with
     | Ret pkt => header.UDP_Checksum (stack.TransportHeader pkt) = Ret 0
     | Panicked => False
     end.
Proof. vm_compute. repeat split. Qed.

(** ** Vectorised views *)

Lemma len_nonneg (v : buffer.View) : 0 <= buffer.len v.
Proof. unfold buffer.len. lia. Qed.

Lemma Size_nonneg (vv : buffer.VectorisedView) : 0 <= buffer.Size vv.
Proof.
  induction vv as [|v vv IH]; cbn [buffer.Size]; [lia|].
  pose proof (len_nonneg v). lia.
Qed.

Lemma Size_capViews (vv : list buffer.View) :
  forall n, 0 <= n <= buffer.Size vv -> buffer.Size (buffer.capViews vv n) = n.
Proof.
  induction vv as [|v vv IH]; intros n Hn; cbn [buffer.Size buffer.capViews] in *.
  - lia.
  - destruct (Z.leb_spec n (buffer.len v)) as [Hle|Hgt].
    + destruct (Z.eqb_spec n 0) as [->|Hnz]; [reflexivity|].
      cbn [buffer.Size]. unfold buffer.len in *.
      rewrite length_firstn. lia.
    + cbn [buffer.Size]. rewrite IH by lia. lia.
Qed.

(** [CapLength] keeps everything when the view is shorter than the cap and
    exactly [length] bytes otherwise. *)
Lemma Size_CapLength (vv : buffer.VectorisedView) (n : Z) :
  buffer.Size (buffer.CapLength vv n) = Z.min (buffer.Size vv) (Z.max n 0).
Proof.
  unfold buffer.CapLength. pose proof (Size_nonneg vv).
  destruct (Z.ltb_spec n 0).
  - destruct (Z.ltb_spec (buffer.Size vv) 0); [lia|].
    rewrite Size_capViews by lia. lia.
  - destruct (Z.ltb_spec (buffer.Size vv) n); [lia|].
    rewrite Size_capViews by lia. lia.
Qed.

Lemma Size_cappedData (pkt : stack.PacketBuffer) :
  0 <= buffer.Size (cappedData pkt) <= buffer.Size (stack.Data pkt)
  /\ (length (stack.TransportHeader pkt) = 8%nat ->
      buffer.Size (cappedData pkt) <= 65535).
Proof.
  split; [split; [apply Size_nonneg|]|].
  - unfold cappedData. destruct (header.UDP_PayloadLength _); [|lia].
    rewrite Size_CapLength. lia.
  - intros H8. unfold cappedData, header.UDP_PayloadLength.
    destruct (header.UDP_Length (stack.TransportHeader pkt)) as [l|] eqn:El.
    + cbn [bind]. rewrite Size_CapLength.
      pose proof (uint16_range (l - header.UDPMinimumSize)). lia.
    + exfalso. revert El. unfold header.UDP_Length, header.udpLength.
      destruct (stack.TransportHeader pkt)
        as [|b0 [|b1 [|b2 [|b3 [|b4 [|b5 [|b6 [|b7 [|]]]]]]]]];
        try discriminate H8. cbn. discriminate.
Qed.

Lemma UDP_ports_of_header (hdr : header.UDP) :
  length hdr = 8%nat ->
  exists sp dp, header.UDP_SourcePort hdr = Ret sp
                /\ header.UDP_DestinationPort hdr = Ret dp.
Proof.
  intros H8.
  destruct hdr as [|b0 [|b1 [|b2 [|b3 [|b4 [|b5 [|b6 [|b7 [|]]]]]]]]];
    try discriminate H8.
  do 2 eexists. split; reflexivity.
Qed.

Lemma Forall_firstn_keeps (A : Type) (P : A -> Prop) (l : list A) :
  Forall P l -> forall n, Forall P (firstn n l).
Proof.
  induction 1 as [|a l Ha Hl IH]; intros [|n]; cbn [firstn]; auto.
Qed.

Section ReceivePath.

Context {Sigma : Type} {StackOps : stack.Ops Sigma}.

Implicit Types (e : endpoint Sigma) (pkt : stack.PacketBuffer)
  (id : stack.TransportEndpointID).

(** One step of the receive path on a datagram that passes validation,
    at a ready and open receive queue: dropped and counted as an overflow
    when the byte count has reached the capacity, appended otherwise. *)
Lemma HandlePacket_validated e id pkt :
  passesValidation pkt = true ->
  rcvReady e = true -> rcvClosed e = false ->
  exists e',
    HandlePacket e id pkt = Ret e'
    /\ rcvReady e' = true /\ rcvClosed e' = false
    /\ rcvBufSizeMax e' = rcvBufSizeMax e
    /\ stats e' ReceiveErrors_ClosedReceiver = stats e ReceiveErrors_ClosedReceiver
    /\ stats e' ReceiveErrors_MalformedPacketsReceived
       = stats e ReceiveErrors_MalformedPacketsReceived
    /\ stats e' ReceiveErrors_ChecksumErrors = stats e ReceiveErrors_ChecksumErrors
    /\ if rcvBufSize e >=? rcvBufSizeMax e
       then
         rcvList e' = rcvList e
         /\ rcvBufSize e' = rcvBufSize e
         /\ stats e' ReceiveErrors_ReceiveBufferOverflow
            = tcpip.Increment (stats e ReceiveErrors_ReceiveBufferOverflow)
       else
         exists p,
           rcvList e' = rcvList e ++ [p]
           /\ data p = cappedData pkt
           /\ rcvBufSize e' = int (rcvBufSize e + buffer.Size (cappedData pkt))
           /\ stats e' ReceiveErrors_ReceiveBufferOverflow
              = stats e ReceiveErrors_ReceiveBufferOverflow.
Proof.
  intros Hv Hready Hclosed. unfold passesValidation in Hv.
  apply andb_true_iff in Hv as [Hv Hrest]. apply andb_true_iff in Hv as [H8 Hproto].
  apply Nat.eqb_eq in H8.
  destruct (header.UDP_Length (stack.TransportHeader pkt)) as [l|] eqn:El;
    [|discriminate Hrest].
  apply andb_true_iff in Hrest as [Hlen Hck]. apply negb_true_iff in Hlen.
  assert (Hcap : cappedData pkt
                 = buffer.CapLength (stack.Data pkt) (uint16 (l - header.UDPMinimumSize))).
  { unfold cappedData, header.UDP_PayloadLength. now rewrite El. }
  destruct (verifyChecksum (stack.TransportHeader pkt)
              (stack.set_Data pkt (cappedData pkt))) as [ok|] eqn:Ev;
    [|discriminate Hck]. subst ok.
  destruct (UDP_ports_of_header _ H8) as (sp & dp & Hsp & Hdp).
  unfold HandlePacket. rewrite El. cbn [bind]. rewrite Hlen.
  unfold header.UDP_PayloadLength. rewrite El. cbn [bind].
  rewrite <- Hcap, Ev. cbn [bind negb].
  cbn [rcvReady rcvClosed stats_Increment stack_Stats_Increment set_stats set_stack
       rcvBufSize rcvBufSizeMax].
  rewrite Hready, Hclosed. cbn [negb orb].
  destruct (rcvBufSize e >=? rcvBufSizeMax e).
  - eexists. split; [reflexivity|]. cbn. repeat split; assumption.
  - rewrite Hsp, Hdp. cbn [bind].
    unfold stack.PacketBuffer_Network.
    cbn [stack.set_Data stack.NetworkProtocolNumber stack.NetworkHeader stack.Data].
    rewrite Hproto. cbn [bind].
    eexists. split; [reflexivity|].
    destruct (rcvBufSize e =? 0); cbn;
      (repeat split; try assumption); eexists; repeat split.
Qed.

Lemma int_add_accepted (b s C : Z) :
  0 <= b -> b < C -> C <= maxInt - 65535 -> 0 <= s <= 65535 ->
  int (b + s) = b + s.
Proof.
  intros Hb Hlt HC Hs. apply int_small. unfold maxInt in HC. lia.
Qed.

(** The receive path over a run of datagrams that pass validation, at a
    ready and open queue: the queue grows by the accepted datagrams, the
    byte count by their sizes, the overflow counter by one per datagram not
    accepted, and no other drop counter moves. *)
Lemma HandlePackets_accounting pkts :
  forall e,
  rcvReady e = true -> rcvClosed e = false ->
  0 <= rcvBufSize e -> rcvBufSizeMax e <= maxInt - 65535 ->
  Forall (fun ip => passesValidation (snd ip) = true) pkts ->
  exists e' q,
    HandlePackets e pkts = Ret e'
    /\ rcvList e' = rcvList e ++ q
    /\ (length q <= length pkts)%nat
    /\ rcvBufSize e' = rcvBufSize e + queuedBytes q
    /\ stats e' ReceiveErrors_ReceiveBufferOverflow
       = Nat.iter (length pkts - length q) tcpip.Increment
           (stats e ReceiveErrors_ReceiveBufferOverflow)
    /\ stats e' ReceiveErrors_ClosedReceiver = stats e ReceiveErrors_ClosedReceiver
    /\ stats e' ReceiveErrors_MalformedPacketsReceived
       = stats e ReceiveErrors_MalformedPacketsReceived
    /\ stats e' ReceiveErrors_ChecksumErrors = stats e ReceiveErrors_ChecksumErrors
    /\ rcvBufSizeMax e' = rcvBufSizeMax e
    /\ rcvBufSize e' <= Z.max (rcvBufSize e) (rcvBufSizeMax e + 65534)
    /\ (forall q' p, q = q' ++ [p] ->
        rcvBufSize e' - buffer.Size (data p) < rcvBufSizeMax e).
Proof.
  induction pkts as [|[id pkt] rest IH]; intros e Hready Hclosed Hb HC Hall.
  - exists e, []. cbn [HandlePackets length Nat.sub Nat.iter queuedBytes].
    rewrite app_nil_r. repeat split; try lia.
    intros [|? ?] p Hq; discriminate Hq.
  - inversion Hall as [|? ? Hv Hrest]; subst. cbn [snd] in Hv.
    destruct (HandlePacket_validated e id pkt Hv Hready Hclosed)
      as (e1 & Hstep & Hready1 & Hclosed1 & Hmax1 & Hcr1 & Hmf1 & Hce1 & Hcase).
    assert (H8 : length (stack.TransportHeader pkt) = 8%nat).
    { unfold passesValidation in Hv. apply andb_true_iff in Hv as [Hv _].
      apply andb_true_iff in Hv as [Hv _]. now apply Nat.eqb_eq. }
    destruct (Size_cappedData pkt) as [[Hs0 _] Hs1]. specialize (Hs1 H8).
    cbn [HandlePackets]. rewrite Hstep. cbn [bind].
    rewrite Z.geb_leb in Hcase.
    destruct (Z.leb_spec (rcvBufSizeMax e) (rcvBufSize e)) as [Hfull|Hroom].
    + destruct Hcase as (Hl1 & Hb1 & Ho1).
      destruct (IH e1 Hready1 Hclosed1 ltac:(lia) ltac:(lia) Hrest)
        as (e' & q & Hrun & Hl & Hlen & Hbytes & Ho & Hcr & Hmf & Hce & Hmax & Hbound & Hlast).
      exists e', q. split; [exact Hrun|].
      split; [congruence|]. split; [cbn [length]; lia|].
      split; [lia|]. split.
      { rewrite Ho, Ho1. cbn [length].
        replace (S (length rest) - length q)%nat
          with (S (length rest - length q)) by lia.
        now rewrite Nat.iter_succ_r. }
      do 4 (split; [congruence|]).
      split; [rewrite Hmax1, Hb1 in Hbound; exact Hbound|].
      intros q' p Hq. rewrite <- Hmax1. now apply (Hlast q' p).
    + destruct Hcase as (p & Hl1 & Hd1 & Hb1 & Ho1).
      rewrite (int_add_accepted _ _ (rcvBufSizeMax e)) in Hb1 by lia.
      destruct (IH e1 Hready1 Hclosed1 ltac:(lia) ltac:(lia) Hrest)
        as (e' & q & Hrun & Hl & Hlen & Hbytes & Ho & Hcr & Hmf & Hce & Hmax & Hbound & Hlast).
      exists e', (p :: q). split; [exact Hrun|].
      split; [rewrite Hl, Hl1, <- app_assoc; reflexivity|].
      split; [cbn [length]; lia|].
      split; [cbn [queuedBytes]; rewrite Hd1; lia|].
      split; [rewrite Ho, Ho1; reflexivity|].
      do 4 (split; [congruence|]).
      split; [lia|].
      intros q' p' Hq. destruct q' as [|p0 q'].
      * cbn in Hq. injection Hq as <- ->.
        cbn [queuedBytes] in Hbytes. rewrite Hd1. lia.
      * cbn in Hq. injection Hq as _ ->.
        rewrite <- Hmax1. now apply (Hlast q' p').
Qed.

(** C3 (as amended): at a ready and open receive queue of capacity C, at every
    point of a sequence of arriving datagrams that pass validation, the
    overflow counter has been bumped once for each datagram that was not
    queued and no other drop counter has moved; the byte count is the sum
    of the queued payload sizes; every datagram was accepted while the byte
    count was still below C, so the byte count stays below C plus the size
    of the datagram accepted last (at most C + 65534), and can exceed C. *)
Theorem C3_overflow_counted_bytes_below_capacity_at_accept e pkts C n :
  rcvReady e = true -> rcvClosed e = false ->
  rcvList e = [] -> rcvBufSize e = 0 ->
  rcvBufSizeMax e = C -> C <= maxInt - 65535 ->
  Forall (fun ip => passesValidation (snd ip) = true) pkts ->
  exists e' q,
    HandlePackets e (firstn n pkts) = Ret e'
    /\ rcvList e' = q
    /\ (length q <= length (firstn n pkts))%nat
    /\ rcvBufSize e' = queuedBytes q
    /\ stats e' ReceiveErrors_ReceiveBufferOverflow
       = Nat.iter (length (firstn n pkts) - length q) tcpip.Increment
           (stats e ReceiveErrors_ReceiveBufferOverflow)
    /\ stats e' ReceiveErrors_ClosedReceiver = stats e ReceiveErrors_ClosedReceiver
    /\ stats e' ReceiveErrors_MalformedPacketsReceived
       = stats e ReceiveErrors_MalformedPacketsReceived
    /\ stats e' ReceiveErrors_ChecksumErrors = stats e ReceiveErrors_ChecksumErrors
    /\ rcvBufSize e' <= Z.max 0 (C + 65534)
    /\ (forall q' p, q = q' ++ [p] -> rcvBufSize e' - buffer.Size (data p) < C).
Proof.
  intros Hready Hclosed Hempty Hzero HC Hmax Hall.
  destruct (HandlePackets_accounting (firstn n pkts) e Hready Hclosed
              ltac:(lia) ltac:(lia) (Forall_firstn_keeps _ _ _ Hall n))
    as (e' & q & Hrun & Hl & Hlen & Hbytes & Ho & Hcr & Hmf & Hce & _ & Hbound & Hlast).
  rewrite Hempty in Hl. cbn [app] in Hl. rewrite Hzero, HC in *.
  exists e', q. repeat split; assumption.
Qed.

End ReceivePath.

Lemma C3_overflow_counted_bytes_below_capacity_at_accept_witness :
  let pkts := [(examples.peerID, examples.datagram 32);
               (examples.peerID, examples.datagram 32);
               (examples.peerID, examples.datagram 32)] in
  rcvBufSizeMax examples.bound64 = 64
  /\ exists e',
       HandlePackets examples.bound64 pkts = Ret e'
       /\ length (rcvList e') = 2%nat
       /\ rcvBufSize e' = 64
       /\ stats e' ReceiveErrors_ReceiveBufferOverflow = 1.
Proof.
  intros pkts.
  assert (HC : rcvBufSizeMax examples.bound64 = 64) by (vm_compute; reflexivity).
  assert (H1 : rcvReady examples.bound64 = true) by (vm_compute; reflexivity).
  assert (H2 : rcvClosed examples.bound64 = false) by (vm_compute; reflexivity).
  assert (H3 : rcvList examples.bound64 = []) by (vm_compute; reflexivity).
  assert (H4 : rcvBufSize examples.bound64 = 0) by (vm_compute; reflexivity).
  assert (H5 : 64 <= maxInt - 65535) by (vm_compute; discriminate).
  assert (H6 : Forall (fun ip => passesValidation (snd ip) = true) pkts).
  { repeat (apply Forall_cons; [vm_compute; reflexivity|]). apply Forall_nil. }
  split; [exact HC|].
  pose proof (C3_overflow_counted_bytes_below_capacity_at_accept
                examples.bound64 pkts 64 3 H1 H2 H3 H4 HC H5 H6) as H.
  destruct H as (e' & q & Hrun & _).
  change (firstn 3 pkts) with pkts in Hrun.
  assert (Hc : match HandlePackets examples.bound64 pkts with
               | Ret e =>
                   length (rcvList e) = 2%nat /\ rcvBufSize e = 64
                   /\ stats e ReceiveErrors_ReceiveBufferOverflow = 1
               | Panicked => False
               end) by (vm_compute; repeat split).
  rewrite Hrun in Hc.
  exists e'. split; [exact Hrun | exact Hc].
Defined.

(** C3 (as stated) fails: with capacity 64, a 48-byte datagram and then a
    32-byte one (80 bytes in all) are both accepted, the second because
    the byte count, 48, is still below 64; the byte count is then 80 and
    nothing was counted as an overflow. *)
Lemma C3_byte_count_exceeds_capacity :
  match HandlePackets examples.bound64
          [(examples.peerID, examples.datagram 48);
           (examples.peerID, examples.datagram 32)] with
  | Ret e' =>
      rcvBufSizeMax e' = 64
      /\ rcvBufSize e' = 80
      /\ length (rcvList e') = 2%nat
      /\ stats e' ReceiveErrors_ReceiveBufferOverflow = 0
  | Panicked => False
  end.
Proof. vm_compute. repeat split. Qed.

(** * Further properties of the endpoint *)

(** Case analysis on the scrutinee of a [match] of the goal or of a
    hypothesis, innermost first. *)
Ltac break_match :=
  match goal with
  | |- context [match ?x with _ => _ end] =>
      lazymatch x with
      | context [match _ with _ => _ end] => fail
      | _ => destruct x eqn:?
      end
  end.

Ltac break_match_in H :=
  match type of H with
  | context [match ?x with _ => _ end] =>
      lazymatch x with
      | context [match _ with _ => _ end] => fail
      | _ => destruct x eqn:?
      end
  end.

Ltac split_hyps :=
  repeat match goal with
         | H : _ /\ _ |- _ => destruct H
         | H : _ <-> _ |- _ => destruct H
         end.

Section Invariants.

Context {Sigma : Type} {StackOps : stack.Ops Sigma} {StackGroupOps : GroupOps Sigma}.

Implicit Types (e : endpoint Sigma).

Lemma keeps_refl e : keeps e e.
Proof. unfold keeps. tauto. Qed.

Lemma keeps_trans e1 e2 e3 : keeps e1 e2 -> keeps e2 e3 -> keeps e1 e3.
Proof. unfold keeps. tauto. Qed.

Lemma sameCore_refl e : sameCore e e.
Proof. unfold sameCore. tauto. Qed.

Lemma sameCore_trans e1 e2 e3 : sameCore e1 e2 -> sameCore e2 e3 -> sameCore e1 e3.
Proof. unfold sameCore. intros. split_hyps. repeat split; congruence. Qed.

Lemma sameCore_keeps e e' : sameCore e e' -> keeps e e'.
Proof.
  unfold sameCore, keeps, wellFormed. intros (H1 & H2 & H3 & H4 & H5 & H6 & H7).
  rewrite H1, H2, H3, H4, H5, H6, H7. tauto.
Qed.

(** Closes a goal [sameCore e e'] where [e'] is [e] with other fields
    updated. *)
Ltac same_core := unfold sameCore; cbn; repeat split.

Lemma sameCore_set_net e n : sameCore e (set_net e n).
Proof. same_core. Qed.

Lemma sameCore_stats_Increment e c : sameCore e (stats_Increment e c).
Proof. same_core. Qed.

Lemma sameCore_stack_Stats_Increment e c : sameCore e (stack_Stats_Increment e c).
Proof. same_core. Qed.

Lemma sameCore_set_lastError e v : sameCore e (set_lastError e v).
Proof. same_core. Qed.

Lemma registerWithStack_sameCore e nic protos id0 :
  sameCore e (snd (registerWithStack e nic protos id0)).
Proof. unfold registerWithStack. repeat break_match; same_core. Qed.

Lemma connectRoute_sameCore e nic addr netProto :
  sameCore e (snd (connectRoute e nic addr netProto)).
Proof. unfold connectRoute. repeat break_match; same_core. Qed.

(** [bindLocked] either fails and leaves the core of the endpoint alone,
    or starts from INITIAL and ends BOUND with the receive queue ready. *)
Lemma bindLocked_cases e addr :
  let '(err, e') := bindLocked e addr in
  match err with
  | Some _ => sameCore e e'
  | None =>
      state e = StateInitial /\ state e' = StateBound /\ rcvReady e' = true
      /\ route e' = route e /\ rcvClosed e' = rcvClosed e
      /\ rcvList e' = rcvList e /\ rcvBufSize e' = rcvBufSize e
      /\ shutdownFlags e' = shutdownFlags e
  end.
Proof.
  unfold bindLocked, EndpointState_.
  destruct (state e) eqn:Hst; try apply sameCore_refl.
  destruct (checkV4MappedLocked e addr) as [[addr' netProto] [err|]];
    try apply sameCore_refl.
  cbv zeta.
  match goal with
  | |- context [if ?c then (Some tcpip.ErrBadLocalAddress, e) else _] =>
      destruct c
  end; try apply sameCore_refl.
  match goal with
  | |- context [registerWithStack ?a ?b ?c ?d] =>
      pose proof (registerWithStack_sameCore a b c d) as Hk;
      destruct (registerWithStack a b c d) as [[[id btd] rerr] e1]
  end.
  cbn [snd] in Hk. destruct rerr; [exact Hk|].
  destruct Hk as (H1 & H2 & H3 & H4 & H5 & H6 & H7).
  cbn. repeat split; assumption.
Qed.

Lemma keeps_of_bound e e' :
  state e = StateInitial -> state e' = StateBound -> rcvReady e' = true ->
  route e' = route e -> rcvClosed e' = rcvClosed e ->
  rcvList e' = rcvList e -> rcvBufSize e' = rcvBufSize e ->
  shutdownFlags e' = shutdownFlags e ->
  keeps e e'.
Proof.
  intros Hs Hs' Hr Hro Hc Hl Hb Hf.
  unfold keeps, wellFormed. rewrite Hs, Hs', Hr, Hro, Hc, Hl, Hb, Hf.
  repeat split; intros; split_hyps;
    try solve [assumption | congruence | discriminate
              | intuition (congruence || discriminate)].
Qed.

Lemma bindLocked_keeps e addr : keeps e (snd (bindLocked e addr)).
Proof.
  pose proof (bindLocked_cases e addr) as H.
  destruct (bindLocked e addr) as [[err|] e']; cbn [snd].
  - now apply sameCore_keeps.
  - destruct H as (? & ? & ? & ? & ? & ? & ? & ?). now apply keeps_of_bound.
Qed.

Lemma Bind_keeps e addr : keeps e (snd (Bind e addr)).
Proof.
  unfold Bind. pose proof (bindLocked_keeps e addr) as H.
  destruct (bindLocked e addr) as [[err|] e']; cbn [snd] in *; [exact H|].
  eapply keeps_trans; [exact H|]. apply sameCore_keeps. same_core.
Qed.

Lemma Shutdown_keeps e flags : keeps e (snd (Shutdown e flags)).
Proof.
  unfold Shutdown, EndpointState_.
  destruct (state e) eqn:Hst; cbn [snd]; try apply keeps_refl;
    repeat break_match; cbn [snd];
    unfold keeps, wellFormed; cbn; rewrite ?Hst;
    repeat split; intros; split_hyps;
    try solve [assumption | congruence | discriminate
              | intuition (congruence || discriminate)].
Qed.

Lemma set_net_same e : set_net e (stack.net (stack_ e)) = e.
Proof. destruct e as [? [? ?]]. reflexivity. Qed.

(** Leaving the groups only moves the stack on. *)
Lemma leave_groups_set_net (order : list multicastMembership) :
  forall e, exists n,
    fold_left
      (fun e mem =>
         set_net e
           (snd (LeaveGroup (stack.net (stack_ e)) (NetProto e) (nicID mem)
                   (multicastAddr_ mem))))
      order e
    = set_net e n.
Proof.
  induction order as [|m order IH]; intros e; cbn [fold_left].
  - exists (stack.net (stack_ e)). symmetry. apply set_net_same.
  - match goal with
    | |- context [fold_left ?f order ?x] => destruct (IH x) as [n Hn]
    end.
    exists n. rewrite Hn. reflexivity.
Qed.

Lemma Close_core order e :
  let e' := Close order e in
  state e' = StateClosed /\ route e' = None /\ rcvClosed e' = true
  /\ rcvList e' = [] /\ rcvBufSize e' = 0 /\ multicastMemberships e' = []
  /\ shutdownFlags e' = Z.lor tcpip.ShutdownRead tcpip.ShutdownWrite
  /\ rcvReady e' = rcvReady e
  /\ waiterQueue e'
     = waiterQueue e
       ++ [Z.lor (Z.lor (Z.lor waiter.EventHUp waiter.EventErr) waiter.EventIn)
             waiter.EventOut].
Proof.
  unfold Close. cbv zeta.
  match goal with
  | |- context [fold_left ?f order ?a] =>
      destruct (leave_groups_set_net order a) as [n Hn]; rewrite Hn
  end.
  unfold EndpointState_. cbn. destruct (state e); cbn;
    destruct (route e) eqn:Hr; cbn; rewrite ?Hr; repeat split.
Qed.

Lemma Close_keeps order e : keeps e (Close order e).
Proof.
  destruct (Close_core order e) as (H1 & H2 & H3 & H4 & H5 & H6 & H7 & H8 & _).
  unfold keeps, wellFormed. rewrite H1, H2, H3, H4, H5, H7, H8.
  repeat split; intros; split_hyps;
    try solve [assumption | congruence | discriminate
              | intuition (congruence || discriminate)].
Qed.

Lemma keeps_of_connected e e' :
  state e <> StateClosed -> state e' = StateConnected -> route e' <> None ->
  rcvReady e' = true -> rcvClosed e' = rcvClosed e ->
  rcvList e' = rcvList e -> rcvBufSize e' = rcvBufSize e ->
  shutdownFlags e' = shutdownFlags e ->
  keeps e e'.
Proof.
  intros Hs Hs' Hro Hr Hc Hl Hb Hf.
  unfold keeps, wellFormed. rewrite Hs', Hr, Hc, Hl, Hb, Hf.
  repeat split; intros; split_hyps;
    try solve [assumption | congruence | discriminate
              | intuition (congruence || discriminate)].
Qed.

(** [Connect] either fails and leaves the core of the endpoint alone, or
    ends CONNECTED holding a route, the receive queue ready. *)
Lemma Connect_cases e addr :
  let '(err, e') := Connect e addr in
  match err with
  | Some _ => sameCore e e'
  | None =>
      state e <> StateClosed /\ state e' = StateConnected /\ route e' <> None
      /\ rcvReady e' = true /\ rcvClosed e' = rcvClosed e
      /\ rcvList e' = rcvList e /\ rcvBufSize e' = rcvBufSize e
      /\ shutdownFlags e' = shutdownFlags e
  end.
Proof.
  unfold Connect.
  destruct (tcpip.Port addr =? 0); [apply sameCore_refl|].
  cbv zeta.
  match goal with
  | |- context [match ?sw with inl _ => _ | inr _ => _ end] =>
      assert (Hsw : state e = StateClosed -> exists err, sw = inr err);
      [|destruct sw as [[nic lp]|err0]]
  end.
  { unfold EndpointState_. intros ->. eexists. reflexivity. }
  2: apply sameCore_refl.
  assert (Hnc : state e <> StateClosed).
  { intros Hc. destruct (Hsw Hc) as [? ?]. discriminate. }
  clear Hsw.
  destruct (checkV4MappedLocked e addr) as [[addr' netProto] [err|]];
    [apply sameCore_refl|].
  pose proof (connectRoute_sameCore e nic addr' netProto) as Hcr.
  destruct (connectRoute e nic addr' netProto) as [[[r nic']|err] e1];
    cbn [snd] in Hcr; [|exact Hcr].
  match goal with
  | |- context [registerWithStack ?a ?b ?c ?d] =>
      pose proof (registerWithStack_sameCore a b c d) as Hk;
      destruct (registerWithStack a b c d) as [[[id btd] rerr] e2]
  end.
  cbn [snd] in Hk.
  pose proof (sameCore_trans _ _ _ Hcr Hk) as H2.
  destruct rerr.
  - eapply sameCore_trans; [exact H2|]. same_core.
  - destruct H2 as (H1 & _ & H3 & H4 & H5 & H6 & H7).
    destruct (stack.Route_Clone _ r) as [clone n] eqn:Hclone.
    destruct (negb (stack.LocalPort (ID e2) =? 0)); cbn;
      (split; [exact Hnc|]); repeat split; try assumption; discriminate.
Qed.

Lemma Connect_keeps e addr : keeps e (snd (Connect e addr)).
Proof.
  pose proof (Connect_cases e addr) as H.
  destruct (Connect e addr) as [[err|] e']; cbn [snd].
  - now apply sameCore_keeps.
  - destruct H as (? & ? & ? & ? & ? & ? & ? & ?). now apply keeps_of_connected.
Qed.

(** [Disconnect] on an endpoint that is not CONNECTED does nothing; on a
    CONNECTED one it either fails and leaves the core alone, or ends BOUND
    or INITIAL without a route. *)
Lemma Disconnect_cases e err e' :
  Disconnect e = Ret (err, e') ->
  (state e <> StateConnected /\ err = None /\ e' = e)
  \/ (state e = StateConnected
      /\ match err with
         | Some _ => sameCore e e'
         | None =>
             (state e' = StateBound \/ state e' = StateInitial)
             /\ route e' = None /\ rcvReady e' = rcvReady e
             /\ rcvClosed e' = rcvClosed e /\ rcvList e' = rcvList e
             /\ rcvBufSize e' = rcvBufSize e
             /\ shutdownFlags e' = shutdownFlags e
         end).
Proof.
  unfold Disconnect, EndpointState_.
  destruct (state e) eqn:Hst;
    try (intros [= <- <-]; left; repeat split; congruence).
  right. split; [reflexivity|]. revert H.
  destruct (negb (BindNICID e =? 0)
            || tcpip.Address_eqb (stack.LocalAddress (ID e)) []).
  - match goal with
    | |- context [registerWithStack ?a ?b ?c ?d] =>
        pose proof (registerWithStack_sameCore a b c d) as Hk;
        destruct (registerWithStack a b c d) as [[[id btd] rerr] e1]
    end.
    cbn [snd] in Hk. destruct rerr.
    + intros [= <- <-]. exact Hk.
    + unfold Disconnect_finish. cbn.
      destruct Hk as (H1 & H2 & H3 & H4 & H5 & H6 & H7).
      destruct (route e1); [|discriminate].
      intros [= <- <-]. cbn. repeat split; try assumption. now left.
  - unfold Disconnect_finish.
    destruct (negb (stack.LocalPort (ID e) =? 0)); cbn;
      (destruct (route e); [|discriminate]);
      intros [= <- <-]; cbn; repeat split; now right.
Qed.

Lemma Disconnect_keeps e err e' : Disconnect e = Ret (err, e') -> keeps e e'.
Proof.
  intros H. destruct (Disconnect_cases e err e' H) as [(_ & _ & ->)|[Hst Hc]].
  - apply keeps_refl.
  - destruct err; [now apply sameCore_keeps|].
    destruct Hc as (Hs' & Hro & Hr & Hcl & Hl & Hb & Hf).
    unfold keeps, wellFormed. rewrite Hro, Hr, Hcl, Hl, Hb, Hf, Hst.
    repeat split; intros; split_hyps;
      try solve [assumption | congruence | discriminate
                | destruct Hs'; congruence
                | intuition (congruence || discriminate)].
Qed.

Lemma Read_keeps e addr : keeps e (snd (Read e addr)).
Proof.
  unfold Read, LastError.
  destruct (lastError e); cbn [snd]; [apply sameCore_keeps; same_core|].
  cbn [rcvList set_lastError].
  destruct (rcvList e) as [|p rest] eqn:Hl.
  - cbn [rcvClosed set_lastError]. destruct (rcvClosed e); cbn [snd];
      apply sameCore_keeps; same_core; assumption.
  - cbn [snd]. unfold keeps, wellFormed. cbn. rewrite Hl.
    repeat split; intros; split_hyps;
      try solve [assumption | congruence | discriminate
                | intuition (congruence || discriminate)].
Qed.

Lemma HandleControlPacket_sameCore e id typ extra pkt :
  sameCore e (HandleControlPacket e id typ extra pkt).
Proof.
  unfold HandleControlPacket, EndpointState_.
  destruct typ, (state e); try apply sameCore_refl; same_core.
Qed.

Lemma SetSockOptInt_sameCore e opt v err e' :
  SetSockOptInt e opt v = Ret (err, e') -> sameCore e e'.
Proof.
  unfold SetSockOptInt. intros H.
  destruct opt; repeat (break_match_in H; try discriminate);
    injection H as <- <-; try apply sameCore_refl; same_core.
Qed.

Lemma membershipNIC_sameCore e unset nic ia ma :
  sameCore e (snd (membershipNIC e unset nic ia ma)).
Proof.
  unfold membershipNIC. repeat break_match; cbn [snd];
    try apply sameCore_refl; same_core.
Qed.

Lemma SetSockOpt_sameCore e opt : sameCore e (snd (SetSockOpt e opt)).
Proof.
  unfold SetSockOpt. destruct opt; try apply sameCore_refl.
  - destruct (checkV4MappedLocked e _) as [[fa netProto] [err|]];
      [apply sameCore_refl|].
    repeat break_match; cbn [snd]; try apply sameCore_refl; same_core.
  - break_match; [apply sameCore_refl|].
    match goal with
    | |- context [membershipNIC ?a ?b ?c ?d ?f] =>
        pose proof (membershipNIC_sameCore a b c d f) as Hm;
        destruct (membershipNIC a b c d f) as [nic e1]
    end.
    cbn [snd] in Hm.
    repeat break_match; cbn [snd]; try exact Hm;
      (eapply sameCore_trans; [exact Hm|]); same_core.
  - break_match; [apply sameCore_refl|].
    match goal with
    | |- context [membershipNIC ?a ?b ?c ?d ?f] =>
        pose proof (membershipNIC_sameCore a b c d f) as Hm;
        destruct (membershipNIC a b c d f) as [nic e1]
    end.
    cbn [snd] in Hm.
    repeat break_match; cbn [snd]; try exact Hm;
      (eapply sameCore_trans; [exact Hm|]); same_core.
  - break_match; cbn [snd]; [apply sameCore_refl|same_core].
Qed.

(** [HandlePacket] leaves the lifecycle alone and never touches a closed
    receive queue. *)
Lemma HandlePacket_cases e id pkt e' :
  HandlePacket e id pkt = Ret e' ->
  state e' = state e /\ route e' = route e /\ rcvReady e' = rcvReady e
  /\ rcvClosed e' = rcvClosed e /\ shutdownFlags e' = shutdownFlags e
  /\ lastError e' = lastError e
  /\ ((rcvList e' = rcvList e /\ rcvBufSize e' = rcvBufSize e)
      \/ (rcvReady e = true /\ rcvClosed e = false
          /\ rcvBufSize e < rcvBufSizeMax e
          /\ exists p, rcvList e' = rcvList e ++ [p]
                       /\ data p = cappedData pkt
                       /\ rcvBufSize e'
                          = int (rcvBufSize e + buffer.Size (cappedData pkt)))).
Proof.
  unfold HandlePacket. intros H.
  destruct (header.UDP_Length (stack.TransportHeader pkt)) as [l|] eqn:El;
    [|discriminate H]. cbn [bind] in H.
  destruct (l >? int (buffer.Size (stack.Data pkt) + header.UDPMinimumSize)).
  { injection H as <-. cbn. repeat split. left. split; reflexivity. }
  assert (Hcap : cappedData pkt
                 = buffer.CapLength (stack.Data pkt) (uint16 (l - header.UDPMinimumSize))).
  { unfold cappedData, header.UDP_PayloadLength. now rewrite El. }
  unfold header.UDP_PayloadLength in H. rewrite El in H. cbn [bind] in H.
  rewrite <- Hcap in H.
  destruct (verifyChecksum _ _) as [ok|]; [|discriminate H]. cbn [bind] in H.
  destruct ok; cbn [negb] in H.
  2: { injection H as <-. cbn. repeat split. left. split; reflexivity. }
  cbn [rcvReady rcvClosed stats_Increment stack_Stats_Increment set_stats set_stack
       rcvBufSize rcvBufSizeMax] in H.
  destruct (negb (rcvReady e) || rcvClosed e) eqn:Hq.
  { injection H as <-. cbn. repeat split. left. split; reflexivity. }
  apply orb_false_iff in Hq as [Hready Hclosed]. apply negb_false_iff in Hready.
  rewrite Z.geb_leb in H.
  destruct (Z.leb_spec (rcvBufSizeMax e) (rcvBufSize e)) as [Hfull|Hroom].
  { injection H as <-. cbn. repeat split. left. split; reflexivity. }
  destruct (header.UDP_SourcePort _) as [sp|]; [|discriminate H].
  destruct (header.UDP_DestinationPort _) as [dp|]; [|discriminate H].
  cbn [bind] in H.
  destruct (stack.PacketBuffer_Network _) as [net|]; [|discriminate H].
  cbn [bind] in H. injection H as <-.
  destruct (rcvBufSize e =? 0); cbn; repeat split; right;
    (repeat split; try assumption); eexists; repeat split.
Qed.

Lemma HandlePacket_keeps e id pkt e' : HandlePacket e id pkt = Ret e' -> keeps e e'.
Proof.
  intros H.
  destruct (HandlePacket_cases e id pkt e' H)
    as (Hs & Hro & Hr & Hc & Hf & _ & [[Hl Hb]|(Hready & Hclosed & _ & p & Hl & _ & Hb)]).
  - apply sameCore_keeps. unfold sameCore. repeat split; assumption.
  - unfold keeps, wellFormed. rewrite Hs, Hro, Hr, Hc, Hf.
    repeat split; intros; split_hyps;
      try solve [assumption | congruence | discriminate
                | intuition (congruence || discriminate)].
Qed.

Lemma prepareForWrite_keeps e to :
  keeps e (snd (prepareForWrite e to)).
Proof.
  unfold prepareForWrite, EndpointState_.
  destruct (state e) eqn:Hst; try destruct to; cbn [snd]; try apply keeps_refl.
  all: pose proof (bindLocked_keeps e tcpip.FullAddress_zero) as H;
    destruct (bindLocked e tcpip.FullAddress_zero) as [[err|] e'];
    cbn [snd] in *; exact H.
Qed.

Lemma prepareForWrite_loop_keeps fuel :
  forall e to r e',
  prepareForWrite_loop fuel e to = Some (r, e') -> keeps e e'.
Proof.
  induction fuel as [|fuel IH]; intros e to r e' H; cbn [prepareForWrite_loop] in H;
    [discriminate H|].
  pose proof (prepareForWrite_keeps e to) as Hk.
  destruct (prepareForWrite e to) as [[retry err] e1]. cbn [snd] in Hk.
  destruct err as [err|].
  - injection H as <- <-. exact Hk.
  - destruct retry.
    + eapply keeps_trans; [exact Hk|]. eapply IH. exact H.
    + injection H as <- <-. exact Hk.
Qed.

Lemma write_send_sameCore e route dstPort p w e' :
  write_send e route dstPort p = Ret (w, e') -> sameCore e e'.
Proof.
  unfold write_send, bind. intros H.
  destruct route as [r|]; [|discriminate H].
  repeat (break_match_in H; try discriminate H);
    injection H as <- <-;
    repeat match goal with
           | Hx : (_, _) = (_, _) |- _ => injection Hx as ? ?; subst
           end;
    try apply sameCore_refl; same_core.
Qed.

Lemma write_prepared_sameCore e to p w e' :
  write_prepared e to p = Ret (w, e') -> sameCore e e'.
Proof.
  unfold write_prepared. intros H.
  destruct to as [to|]; [|now apply write_send_sameCore in H].
  match type of H with
  | context [if ?c then Ret (wr_fail tcpip.ErrNoRoute, e) else _] => destruct c
  end; [injection H as <- <-; apply sameCore_refl|].
  cbv zeta in H.
  destruct (tcpip.Port to =? 0); [injection H as <- <-; apply sameCore_refl|].
  destruct (checkV4MappedLocked e to) as [[dst netProto] [err|]];
    [injection H as <- <-; apply sameCore_refl|].
  match type of H with
  | context [connectRoute ?a ?b ?c ?d] =>
      pose proof (connectRoute_sameCore a b c d) as Hcr;
      destruct (connectRoute a b c d) as [[[r nic]|err] e1]
  end; cbn [snd] in Hcr.
  - unfold bind in H.
    destruct (write_send e1 (Some r) (tcpip.Port dst) p) as [[w1 e2]|] eqn:Hw;
      [|discriminate H].
    apply write_send_sameCore in Hw. injection H as <- <-.
    eapply sameCore_trans; [exact Hcr|].
    eapply sameCore_trans; [exact Hw|]. same_core.
  - injection H as <- <-. exact Hcr.
Qed.

Lemma write_keeps fuel e p opts w e' :
  write fuel e p opts = Some (Ret (w, e')) -> keeps e e'.
Proof.
  unfold write, LastError. intros H.
  destruct (lastError e).
  { injection H as <- <-. apply sameCore_keeps. same_core. }
  destruct (tcpip.More opts).
  { injection H as <- <-. apply sameCore_keeps. same_core. }
  match type of H with
  | context [if ?c then _ else _] => destruct c
  end.
  { injection H as <- <-. apply sameCore_keeps. same_core. }
  destruct (prepareForWrite_loop fuel _ _) as [[[err|] e1]|] eqn:Hloop;
    [| |discriminate H].
  - injection H as <- <-.
    eapply keeps_trans; [apply sameCore_keeps; apply (sameCore_set_lastError e None)|].
    eapply prepareForWrite_loop_keeps. exact Hloop.
  - injection H as H.
    eapply keeps_trans; [apply sameCore_keeps; apply (sameCore_set_lastError e None)|].
    eapply keeps_trans; [eapply prepareForWrite_loop_keeps; exact Hloop|].
    apply sameCore_keeps. eapply write_prepared_sameCore. exact H.
Qed.

Lemma Write_keeps fuel e p opts w e' :
  Write fuel e p opts = Some (Ret (w, e')) -> keeps e e'.
Proof.
  unfold Write. intros H.
  destruct (write fuel e p opts) as [[[w1 e1]|]|] eqn:Hw; try discriminate H.
  injection H as <- <-.
  eapply keeps_trans; [eapply write_keeps; exact Hw|].
  apply sameCore_keeps. apply sameCore_stats_Increment.
Qed.

(** No step of a run undoes well-formedness, reopens the receive queue,
    unmarks it ready, or leaves the closed state. *)
Lemma step_keeps e e' : step e e' -> keeps e e'.
Proof.
  intros H. destruct H.
  - apply Bind_keeps.
  - apply Connect_keeps.
  - eapply Disconnect_keeps; eassumption.
  - apply Shutdown_keeps.
  - apply Close_keeps.
  - apply Read_keeps.
  - eapply Write_keeps; eassumption.
  - apply sameCore_keeps. eapply SetSockOptInt_sameCore; eassumption.
  - apply sameCore_keeps. apply SetSockOpt_sameCore.
  - apply sameCore_keeps. same_core.
  - apply sameCore_keeps. same_core.
  - apply sameCore_keeps. same_core.
  - eapply HandlePacket_keeps; eassumption.
  - apply sameCore_keeps. apply HandleControlPacket_sameCore.
  - apply sameCore_keeps. same_core.
  - apply sameCore_keeps. same_core.
Qed.

Lemma newEndpoint_wellFormed s netProto wq : wellFormed (newEndpoint s netProto wq).
Proof.
  unfold newEndpoint. destruct (UniqueID (stack.net s)) as [uid n].
  unfold wellFormed. cbn. repeat split; intros; try discriminate;
    try congruence; destruct H; discriminate.
Qed.

End Invariants.

Section Lifecycle.

Context {Sigma : Type} {StackOps : stack.Ops Sigma} {StackGroupOps : GroupOps Sigma}.

Implicit Types (e : endpoint Sigma).

Lemma reachable_wellFormed_aux e : reachable e -> wellFormed e.
Proof.
  induction 1 as [s netProto wq|e e' _ IH Hstep].
  - apply newEndpoint_wellFormed.
  - now apply (step_keeps e e' Hstep).
Qed.

(** X1: every endpoint a run from [newEndpoint] can reach holds a route
    exactly when it is CONNECTED, has its receive queue marked ready when it
    is BOUND or CONNECTED, and, when it is CLOSED, has a closed and empty
    receive queue with a zero byte count and is shut down for writing. *)
Theorem reachable_endpoints_are_well_formed e :
  reachable e ->
  (route e <> None <-> state e = StateConnected)
  /\ (state e = StateBound \/ state e = StateConnected -> rcvReady e = true)
  /\ (state e = StateClosed ->
      rcvClosed e = true /\ rcvList e = [] /\ rcvBufSize e = 0
      /\ Z.land (shutdownFlags e) tcpip.ShutdownWrite <> 0).
Proof. intros H. exact (reachable_wellFormed_aux e H). Qed.

(** X2: no operation and no outside change takes an endpoint out of the
    CLOSED state, reopens a closed receive queue, or unmarks a ready one. *)
Theorem closed_state_is_final e e' :
  step e e' ->
  (state e = StateClosed -> state e' = StateClosed)
  /\ (rcvClosed e = true -> rcvClosed e' = true)
  /\ (rcvReady e = true -> rcvReady e' = true).
Proof.
  intros H. destruct (step_keeps e e' H) as (_ & H1 & H2 & H3). auto.
Qed.

(** X3: [Disconnect] on an endpoint that is not CONNECTED returns no
    error and changes nothing, and on a reachable endpoint it always
    returns: the route it releases is there. *)
Theorem Disconnect_returns e :
  (state e <> StateConnected -> Disconnect e = Ret (None, e))
  /\ (reachable e -> exists err e', Disconnect e = Ret (err, e')).
Proof.
  split.
  - intros H. unfold Disconnect, EndpointState_.
    destruct (state e); congruence.
  - intros Hr. apply reachable_wellFormed_aux in Hr. destruct Hr as [[_ Hro] _].
    unfold Disconnect, EndpointState_.
    destruct (state e) eqn:Hst; try (do 2 eexists; reflexivity).
    specialize (Hro eq_refl). destruct (route e) as [r|] eqn:Hr; [|congruence].
    destruct (negb (BindNICID e =? 0)
              || tcpip.Address_eqb (stack.LocalAddress (ID e)) []).
    + match goal with
      | |- context [registerWithStack ?a ?b ?c ?d] =>
          pose proof (registerWithStack_sameCore a b c d) as Hk;
          destruct (registerWithStack a b c d) as [[[id btd] rerr] e1]
      end.
      cbn [snd] in Hk. destruct Hk as (_ & Hr1 & _).
      destruct rerr; [do 2 eexists; reflexivity|].
      unfold Disconnect_finish. cbn. rewrite Hr1, Hr. do 2 eexists. reflexivity.
    + unfold Disconnect_finish.
      destruct (negb (stack.LocalPort (ID e) =? 0)); cbn; rewrite Hr;
        do 2 eexists; reflexivity.
Qed.

End Lifecycle.

Lemma reachable_endpoints_are_well_formed_witness :
  let bound :=
    snd (Bind testgroups.fresh
           {| tcpip.NIC := 0; tcpip.Addr := []; tcpip.Port := 5000 |}) in
  let connected := snd (Connect bound teststack.peerV4) in
  let closed := Close [] connected in
  (state bound = StateBound /\ route bound = None /\ rcvReady bound = true)
  /\ (state connected = StateConnected /\ route connected <> None
      /\ rcvReady connected = true)
  /\ (state closed = StateClosed /\ route closed = None
      /\ rcvClosed closed = true /\ rcvList closed = []
      /\ rcvBufSize closed = 0
      /\ Z.land (shutdownFlags closed) tcpip.ShutdownWrite <> 0).
Proof.
  intros bound connected closed.
  assert (Hb : reachable bound).
  { eapply reachable_step; [apply reachable_new|apply step_Bind]. }
  assert (Hc : reachable connected).
  { eapply reachable_step; [exact Hb|apply step_Connect]. }
  assert (Hx : reachable closed).
  { eapply reachable_step; [exact Hc|apply step_Close]. }
  assert (Sb : state bound = StateBound) by (vm_compute; reflexivity).
  assert (Sc : state connected = StateConnected) by (vm_compute; reflexivity).
  assert (Sx : state closed = StateClosed) by (vm_compute; reflexivity).
  destruct (reachable_endpoints_are_well_formed bound Hb) as ([Rb _] & Qb & _).
  destruct (reachable_endpoints_are_well_formed connected Hc) as ([_ Rc] & Qc & _).
  destruct (reachable_endpoints_are_well_formed closed Hx) as ([Rx _] & _ & Cx).
  split; [|split].
  - split; [exact Sb|]. split; [|exact (Qb (or_introl Sb))].
    destruct (route bound) as [r|]; [|reflexivity].
    assert (Hn : Some r <> None) by discriminate.
    specialize (Rb Hn). rewrite Sb in Rb. discriminate Rb.
  - split; [exact Sc|]. split; [exact (Rc Sc)|exact (Qc (or_intror Sc))].
  - split; [exact Sx|]. split.
    + destruct (route closed) as [r|]; [|reflexivity].
      assert (Hn : Some r <> None) by discriminate.
      specialize (Rx Hn). rewrite Sx in Rx. discriminate Rx.
    + exact (Cx Sx).
Defined.

Lemma closed_state_is_final_witness :
  step examples.closed (snd (Bind examples.closed teststack.peerV4))
  /\ state (snd (Bind examples.closed teststack.peerV4)) = StateClosed.
Proof.
  assert (H : step examples.closed (snd (Bind examples.closed teststack.peerV4)))
    by apply step_Bind.
  split; [exact H|].
  apply (proj1 (closed_state_is_final _ _ H)). reflexivity.
Defined.

Lemma Disconnect_returns_witness :
  state examples.bound <> StateConnected
  /\ Disconnect examples.bound = Ret (None, examples.bound).
Proof.
  assert (H : state examples.bound <> StateConnected) by (vm_compute; discriminate).
  split; [exact H|].
  exact (proj1 (Disconnect_returns examples.bound) H).
Defined.

Section WriteProperties.

Context {Sigma : Type} {StackOps : stack.Ops Sigma} {StackGroupOps : GroupOps Sigma}.

Implicit Types (e : endpoint Sigma).

(** [sendUDP] always returns: building the header cannot panic. *)
Lemma sendUDP_returns (s : stack.Stack Sigma) r data lp rp ttl udt tos owner nc :
  exists err s', sendUDP s r data lp rp ttl udt tos owner nc = Ret (err, s').
Proof.
  unfold sendUDP. rewrite sendUDP_packet_eq. cbn [bind].
  destruct (stack.Route_WritePacket _ _ _ _) as [[err|] n]; do 2 eexists; reflexivity.
Qed.

Lemma write_send_returns e r dstPort p :
  exists w e', write_send e (Some r) dstPort p = Ret (w, e').
Proof.
  unfold write_send.
  destruct (negb _ && _); [do 2 eexists; reflexivity|].
  destruct (stack.Route_IsResolutionRequired r).
  - destruct (stack.Route_Resolve _ _) as [[ch rerr] n].
    destruct rerr as [err|].
    + destruct err; do 2 eexists; reflexivity.
    + destruct (tcpip.FullPayload p) as [v [err|]]; [do 2 eexists; reflexivity|].
      destruct (_ >? _); [do 2 eexists; reflexivity|].
      match goal with
      | |- context [sendUDP ?a ?b ?c ?d ?f ?g ?h ?i ?j ?k] =>
          destruct (sendUDP_returns a b c d f g h i j k) as (err & s' & Hs);
          rewrite Hs
      end; cbn [bind]; destruct err; do 2 eexists; reflexivity.
  - destruct (tcpip.FullPayload p) as [v [err|]]; [do 2 eexists; reflexivity|].
    destruct (_ >? _); [do 2 eexists; reflexivity|].
    match goal with
    | |- context [sendUDP ?a ?b ?c ?d ?f ?g ?h ?i ?j ?k] =>
        destruct (sendUDP_returns a b c d f g h i j k) as (err & s' & Hs);
        rewrite Hs
    end; cbn [bind]; destruct err; do 2 eexists; reflexivity.
Qed.

Lemma write_prepared_returns e to p :
  to <> None \/ route e <> None ->
  exists w e', write_prepared e to p = Ret (w, e').
Proof.
  intros H. unfold write_prepared. destruct to as [to|].
  - destruct (_ && _); [do 2 eexists; reflexivity|].
    destruct (tcpip.Port to =? 0); [do 2 eexists; reflexivity|].
    destruct (checkV4MappedLocked e to) as [[dst netProto] [err|]];
      [do 2 eexists; reflexivity|].
    destruct (connectRoute _ _ _ _) as [[[r nic]|err] e1];
      [|do 2 eexists; reflexivity].
    destruct (write_send_returns e1 r (tcpip.Port dst) p) as (w & e' & Hw).
    rewrite Hw. cbn [bind]. do 2 eexists. reflexivity.
  - destruct H as [H|H]; [congruence|].
    destruct (route e) as [r|]; [|congruence]. apply write_send_returns.
Qed.

(** The retry loop around [prepareForWrite] exits within two rounds, and
    when it exits without an error the endpoint is CONNECTED, or BOUND with
    a destination given. *)
Lemma prepareForWrite_loop_exits fuel e to :
  (2 <= fuel)%nat ->
  exists r e1,
    prepareForWrite_loop fuel e to = Some (r, e1)
    /\ (r = None ->
        (state e1 = StateConnected /\ e1 = e)
        \/ (state e1 = StateBound /\ to <> None)).
Proof.
  intros Hf. destruct fuel as [|[|fuel]]; try lia.
  cbn [prepareForWrite_loop]. unfold prepareForWrite at 1, EndpointState_.
  destruct (state e) eqn:Hst.
  - pose proof (bindLocked_cases e tcpip.FullAddress_zero) as Hb.
    destruct (bindLocked e tcpip.FullAddress_zero) as [[err|] e1].
    + do 2 eexists. split; [reflexivity|discriminate].
    + destruct Hb as (_ & Hs1 & _).
      unfold prepareForWrite, EndpointState_. rewrite Hs1.
      destruct to; do 2 eexists; (split; [reflexivity|]);
        [intros _; right; split; [assumption|discriminate] | discriminate].
  - destruct to; do 2 eexists; (split; [reflexivity|]);
      [intros _; right; split; [assumption|discriminate] | discriminate].
  - do 2 eexists. split; [reflexivity|]. intros _. left. auto.
  - do 2 eexists. split; [reflexivity|discriminate].
Qed.

(** X4: on a reachable endpoint [Write] always returns: its retry loop
    around the implicit bind runs at most twice and the route it sends on
    is there. *)
Theorem Write_returns e fuel p opts :
  reachable e -> (2 <= fuel)%nat ->
  exists w e', Write fuel e p opts = Some (Ret (w, e')).
Proof.
  intros Hr Hf. apply reachable_wellFormed_aux in Hr.
  unfold Write, write, LastError.
  destruct (lastError e); [do 2 eexists; reflexivity|].
  destruct (tcpip.More opts); [do 2 eexists; reflexivity|].
  match goal with
  | |- context [if ?c then _ else _] => destruct c
  end; [do 2 eexists; reflexivity|].
  assert (Hw0 : wellFormed (set_lastError e None)).
  { apply (sameCore_keeps _ _ (sameCore_set_lastError e None)). exact Hr. }
  destruct (prepareForWrite_loop_exits fuel (set_lastError e None) (tcpip.To opts) Hf)
    as (r & e1 & Hloop & Hcase).
  rewrite Hloop. destruct r as [err|]; [do 2 eexists; reflexivity|].
  assert (Hp : tcpip.To opts <> None \/ route e1 <> None).
  { destruct (Hcase eq_refl) as [[Hs ->]|[_ Ht]]; [right|left; exact Ht].
    apply Hw0. exact Hs. }
  destruct (write_prepared_returns e1 (tcpip.To opts) p Hp) as (w & e' & Hw).
  rewrite Hw. do 2 eexists. reflexivity.
Qed.

End WriteProperties.

Lemma Write_returns_witness :
  reachable testgroups.fresh
  /\ exists w e', Write 2 testgroups.fresh examples.payload3 examples.noOpts
                  = Some (Ret (w, e')).
Proof.
  assert (H : reachable testgroups.fresh) by apply reachable_new.
  split; [exact H|].
  apply Write_returns; [exact H|]. apply Nat.le_refl.
Defined.

Section WriteOutcomes.

Context {Sigma : Type} {StackOps : stack.Ops Sigma} {StackGroupOps : GroupOps Sigma}.

Implicit Types (e : endpoint Sigma).

(** X5: what [Write] refuses before it looks for a route, on an endpoint
    with no latched error.  With the More option set: invalid option value.
    Without it, on an endpoint shut down for writing: closed for send.
    Without it and with the write side open, on an endpoint that is BOUND
    or CONNECTED already (an INITIAL one is bound first): a BOUND endpoint
    given no destination is refused with destination required, which the
    counters file under send-to-network failures; a destination whose NIC
    conflicts with the bound NIC (both non-zero and different) with no
    route; and a destination with port zero whose NIC does not conflict
    with the bound NIC with invalid endpoint state.  In each case the one
    counter named is incremented and nothing else of the endpoint or of
    the stack changes. *)
Theorem Write_rejects_before_routing e fuel p opts :
  lastError e = None ->
  (tcpip.More opts = true ->
   Write fuel e p opts
   = Some (Ret (wr_fail tcpip.ErrInvalidOptionValue,
                stats_Increment e WriteErrors_InvalidArgs)))
  /\ (tcpip.More opts = false ->
      Z.land (shutdownFlags e) tcpip.ShutdownWrite <> 0 ->
      Write fuel e p opts
      = Some (Ret (wr_fail tcpip.ErrClosedForSend,
                   stats_Increment e WriteErrors_WriteClosed)))
  /\ (tcpip.More opts = false ->
      Z.land (shutdownFlags e) tcpip.ShutdownWrite = 0 ->
      (1 <= fuel)%nat ->
      (state e = StateBound -> tcpip.To opts = None ->
       Write fuel e p opts
       = Some (Ret (wr_fail tcpip.ErrDestinationRequired,
                    stats_Increment e SendErrors_SendToNetworkFailed)))
      /\ (forall to, state e = StateBound \/ state e = StateConnected ->
          tcpip.To opts = Some to ->
          BindNICID e <> 0 -> tcpip.NIC to <> 0 -> tcpip.NIC to <> BindNICID e ->
          Write fuel e p opts
          = Some (Ret (wr_fail tcpip.ErrNoRoute,
                       stats_Increment e SendErrors_NoRoute)))
      /\ (forall to, state e = StateBound \/ state e = StateConnected ->
          tcpip.To opts = Some to -> tcpip.Port to = 0 ->
          BindNICID e = 0 \/ tcpip.NIC to = 0 \/ tcpip.NIC to = BindNICID e ->
          Write fuel e p opts
          = Some (Ret (wr_fail tcpip.ErrInvalidEndpointState,
                       stats_Increment e WriteErrors_InvalidEndpointState)))).
Proof.
  intros Hle. unfold Write, write, LastError. rewrite Hle.
  rewrite (set_lastError_None_id e Hle).
  split; [intros ->; reflexivity|].
  split.
  { intros -> Hsh. apply Z.eqb_neq in Hsh. rewrite Hsh. reflexivity. }
  intros -> Hsh Hf. apply Z.eqb_eq in Hsh. rewrite Hsh. cbn [negb].
  destruct fuel as [|fuel]; [lia|]. cbn [prepareForWrite_loop].
  split; [|split].
  - intros Hst Hto. unfold prepareForWrite, EndpointState_. rewrite Hst, Hto.
    reflexivity.
  - intros to Hst Hto Hb Hn Hne. rewrite Hto.
    assert (Hg : negb (BindNICID e =? 0) && negb (tcpip.NIC to =? 0)
                 && negb (tcpip.NIC to =? BindNICID e) = true).
    { apply Z.eqb_neq in Hb, Hn, Hne. rewrite Hb, Hn, Hne. reflexivity. }
    unfold prepareForWrite, EndpointState_.
    destruct Hst as [Hst|Hst]; rewrite Hst; unfold write_prepared;
      rewrite Hg; reflexivity.
  - intros to Hst Hto Hp Hnic. rewrite Hto.
    assert (Hg : negb (BindNICID e =? 0) && negb (tcpip.NIC to =? 0)
                 && negb (tcpip.NIC to =? BindNICID e) = false).
    { destruct Hnic as [H|[H|H]]; rewrite H.
      - reflexivity.
      - destruct (BindNICID e =? 0); reflexivity.
      - rewrite Z.eqb_refl. destruct (BindNICID e =? 0); reflexivity. }
    unfold prepareForWrite, EndpointState_.
    destruct Hst as [Hst|Hst]; rewrite Hst; unfold write_prepared;
      rewrite Hg, Hp; reflexivity.
Qed.

(** The TTL [write] sends with: the multicast TTL to a multicast
    destination, else the endpoint's TTL, or the route's default when that
    is zero. *)
Lemma sendUDP_eq (s : stack.Stack Sigma) r data lp rp ttl_ udt tos owner_ nc :
  sendUDP s r data lp rp ttl_ udt tos owner_ nc
  = let pkt :=
      {| stack.Owner := owner_; stack.NICID := 0;
         stack.NetworkProtocolNumber := 0;
         stack.TransportProtocolNumber := ProtocolNumber;
         stack.RXTransportChecksumValidated := false;
         stack.NetworkHeader := stack.Network_zero;
         stack.TransportHeader :=
           udpHeader lp rp (udpLength data)
             (if checksumRequired r nc
              then not16 (header.Checksum
                            (udpHeader lp rp (udpLength data) 0)
                            (payloadChecksum r data (udpLength data)))
              else 0);
         stack.Data := data |} in
    let out :=
      stack.Route_WritePacket (stack.net s) r
        {| stack.Protocol := ProtocolNumber;
           stack.TTL := if udt then stack.Route_DefaultTTL r else ttl_;
           stack.NHP_TOS := tos |} pkt in
    Ret (fst out,
         stack.Stats_Increment (stack.set_net s (snd out))
           (match fst out with
            | Some _ => stack.UDP_PacketSendErrors
            | None => stack.UDP_PacketsSent
            end)).
Proof.
  unfold sendUDP. rewrite sendUDP_packet_eq. cbn [bind]. cbv zeta.
  destruct udt; destruct (stack.Route_WritePacket _ _ _ _) as [[err|] n];
    reflexivity.
Qed.

(** X6: a plain [Write] on a CONNECTED endpoint whose stored route needs
    no link-address resolution.  Throughout: no error is latched, the More
    option is off, no destination is given and the write side is open.
    - When the route is an outbound broadcast and the broadcast option is
      off, [Write] fails with broadcast-disabled, counted as a no-route
      send error, and nothing is handed to the route.
    - Otherwise, when the payload is obtained without error but is longer
      than 65535 bytes, [Write] fails with message-too-long, counted as
      an invalid-argument write error, and nothing is handed to the route.
    - Otherwise, when the payload is obtained without error and is at most
      65535 bytes, exactly one packet is handed to the route: its UDP
      header carries the endpoint's local port, the connected port, the
      length and the checksum of the send path, its data is the caller's
      payload, and it is sent with the endpoint's TOS and with the
      multicast TTL to a multicast peer, else the endpoint's TTL or, when
      that is zero, the route's default.  The route's verdict is what
      [Write] returns, with the payload length on success. *)
Theorem Write_connected_sends e r fuel p opts :
  lastError e = None -> tcpip.More opts = false -> tcpip.To opts = None ->
  Z.land (shutdownFlags e) tcpip.ShutdownWrite = 0 -> (1 <= fuel)%nat ->
  state e = StateConnected -> route e = Some r ->
  (tcpip.GetBroadcast (ops e) = false ->
   stack.Route_IsOutboundBroadcast r = true ->
   Write fuel e p opts
   = Some (Ret (wr_fail tcpip.ErrBroadcastDisabled,
                stats_Increment e SendErrors_NoRoute)))
  /\ (forall v,
      tcpip.GetBroadcast (ops e) = true
      \/ stack.Route_IsOutboundBroadcast r = false ->
      stack.Route_IsResolutionRequired r = false ->
      tcpip.FullPayload p = (v, None) ->
      header.UDPMaximumPacketSize < buffer.len v ->
      Write fuel e p opts
      = Some (Ret (wr_fail tcpip.ErrMessageTooLong,
                   stats_Increment e WriteErrors_InvalidArgs)))
  /\ (forall v,
      tcpip.GetBroadcast (ops e) = true
      \/ stack.Route_IsOutboundBroadcast r = false ->
      stack.Route_IsResolutionRequired r = false ->
      tcpip.FullPayload p = (v, None) ->
      buffer.len v <= header.UDPMaximumPacketSize ->
      let data := buffer.ToVectorisedView v in
      let multicast :=
        header.IsV4MulticastAddress (stack.Route_RemoteAddress r)
        || header.IsV6MulticastAddress (stack.Route_RemoteAddress r) in
      let out :=
        stack.Route_WritePacket (stack.net (stack_ e)) r
          {| stack.Protocol := ProtocolNumber;
             stack.TTL := if multicast then multicastTTL e
                          else if ttl e =? 0 then stack.Route_DefaultTTL r
                               else ttl e;
             stack.NHP_TOS := sendTOS e |}
          {| stack.Owner := owner e; stack.NICID := 0;
             stack.NetworkProtocolNumber := 0;
             stack.TransportProtocolNumber := ProtocolNumber;
             stack.RXTransportChecksumValidated := false;
             stack.NetworkHeader := stack.Network_zero;
             stack.TransportHeader :=
               udpHeader (stack.LocalPort (ID e)) (dstPort e) (udpLength data)
                 (if checksumRequired r (tcpip.GetNoChecksum (ops e))
                  then not16 (header.Checksum
                                (udpHeader (stack.LocalPort (ID e)) (dstPort e)
                                   (udpLength data) 0)
                                (payloadChecksum r data (udpLength data)))
                  else 0);
             stack.Data := data |} in
      exists w e',
        Write fuel e p opts = Some (Ret (w, e'))
        /\ wr_err w = fst out
        /\ wr_n w = match fst out with Some _ => 0 | None => buffer.len v end
        /\ stack.net (stack_ e') = snd out
        /\ (fst out = None ->
            e' = stats_Increment
                   (set_stack e
                      (stack.Stats_Increment (stack.set_net (stack_ e) (snd out))
                         stack.UDP_PacketsSent))
                   PacketsSent)).
Proof.
  intros Hle Hmore Hto Hsh Hf Hst Hr.
  assert (Hw : Write fuel e p opts
               = match write_send e (Some r) (dstPort e) p with
                 | Panicked => Some Panicked
                 | Ret (w, e0) =>
                     Some (Ret (w, stats_Increment e0
                       match wr_err w with
                       | None => PacketsSent
                       | Some tcpip.ErrMessageTooLong
                       | Some tcpip.ErrInvalidOptionValue => WriteErrors_InvalidArgs
                       | Some tcpip.ErrClosedForSend => WriteErrors_WriteClosed
                       | Some tcpip.ErrInvalidEndpointState =>
                           WriteErrors_InvalidEndpointState
                       | Some tcpip.ErrNoLinkAddress => SendErrors_NoLinkAddr
                       | Some tcpip.ErrNoRoute
                       | Some tcpip.ErrBroadcastDisabled
                       | Some tcpip.ErrNetworkUnreachable => SendErrors_NoRoute
                       | Some _ => SendErrors_SendToNetworkFailed
                       end))
                 end).
  { unfold Write, write, LastError. rewrite Hle, Hmore, Hto.
    rewrite (set_lastError_None_id e Hle).
    apply Z.eqb_eq in Hsh. rewrite Hsh. cbn [negb].
    destruct fuel as [|fuel]; [lia|]. cbn [prepareForWrite_loop].
    unfold prepareForWrite, EndpointState_. rewrite Hst.
    unfold write_prepared. rewrite Hr.
    destruct (write_send e (Some r) (dstPort e) p) as [[w e0]|]; reflexivity. }
  split; [|split].
  - intros Hb Ho. rewrite Hw. unfold write_send. rewrite Hb, Ho. reflexivity.
  - intros v Hbc Hres Hp Hlen. rewrite Hw. unfold write_send.
    assert (Hg : negb (tcpip.GetBroadcast (ops e))
                 && stack.Route_IsOutboundBroadcast r = false).
    { destruct Hbc as [-> | ->]; [reflexivity|apply andb_false_r]. }
    rewrite Hg, Hres, Hp.
    assert (Hl : (buffer.len v >? header.UDPMaximumPacketSize) = true).
    { rewrite Z.gtb_ltb. apply Z.ltb_lt. exact Hlen. }
    rewrite Hl. reflexivity.
  - intros v Hbc Hres Hp Hlen data multicast out. rewrite Hw.
    unfold write_send.
    assert (Hg : negb (tcpip.GetBroadcast (ops e))
                 && stack.Route_IsOutboundBroadcast r = false).
    { destruct Hbc as [-> | ->]; [reflexivity|apply andb_false_r]. }
    rewrite Hg, Hres, Hp.
    assert (Hl : (buffer.len v >? header.UDPMaximumPacketSize) = false).
    { rewrite Z.gtb_ltb. apply Z.ltb_ge. exact Hlen. }
    rewrite Hl. rewrite sendUDP_eq. cbv zeta. cbn [bind fst snd].
    fold data. fold multicast.
    assert (Httl : (if (if multicast then false else ttl e =? 0)
                    then stack.Route_DefaultTTL r
                    else if multicast then multicastTTL e else ttl e)
                   = (if multicast then multicastTTL e
                      else if ttl e =? 0 then stack.Route_DefaultTTL r else ttl e)).
    { destruct multicast; reflexivity. }
    rewrite Httl. fold out.
    destruct (fst out) as [err|] eqn:Hout.
    + do 2 eexists. split; [reflexivity|].
      repeat split; try reflexivity. discriminate.
    + do 2 eexists. split; [reflexivity|].
      repeat split; reflexivity.
Qed.


End WriteOutcomes.

Lemma Write_rejects_before_routing_witness :
  let toPortZero :=
    {| tcpip.To := Some {| tcpip.NIC := 0; tcpip.Addr := [xc0; x00; x02; x01];
                           tcpip.Port := 0 |};
       tcpip.More := false |} in
  Write 1 examples.bound examples.payload3 examples.noOpts
  = Some (Ret (wr_fail tcpip.ErrDestinationRequired,
               stats_Increment examples.bound SendErrors_SendToNetworkFailed))
  /\ Write 1 examples.bound examples.payload3 toPortZero
     = Some (Ret (wr_fail tcpip.ErrInvalidEndpointState,
                  stats_Increment examples.bound
                    WriteErrors_InvalidEndpointState)).
Proof.
  intros toPortZero.
  assert (H : lastError examples.bound = None) by (vm_compute; reflexivity).
  assert (Hsh : Z.land (shutdownFlags examples.bound) tcpip.ShutdownWrite = 0)
    by (vm_compute; reflexivity).
  assert (Hst : state examples.bound = StateBound) by (vm_compute; reflexivity).
  pose proof (Write_rejects_before_routing examples.bound 1 examples.payload3
                examples.noOpts H) as (_ & _ & H3).
  pose proof (Write_rejects_before_routing examples.bound 1 examples.payload3
                toPortZero H) as (_ & _ & H4).
  split.
  - apply (proj1 (H3 eq_refl Hsh (Nat.le_refl 1))); [exact Hst|reflexivity].
  - apply (proj2 (proj2 (H4 eq_refl Hsh (Nat.le_refl 1)))
             {| tcpip.NIC := 0; tcpip.Addr := [xc0; x00; x02; x01];
                tcpip.Port := 0 |}).
    + left. exact Hst.
    + reflexivity.
    + reflexivity.
    + right. left. reflexivity.
Defined.

Lemma Write_connected_sends_witness :
  exists w e',
    Write 1 teststack.connected examples.payload3 examples.noOpts
    = Some (Ret (w, e'))
    /\ wr_err w = None /\ wr_n w = 3.
Proof.
  assert (H1 : lastError teststack.connected = None) by (vm_compute; reflexivity).
  assert (H2 : Z.land (shutdownFlags teststack.connected) tcpip.ShutdownWrite = 0)
    by (vm_compute; reflexivity).
  assert (H3 : state teststack.connected = StateConnected)
    by (vm_compute; reflexivity).
  assert (H4 : exists r, route teststack.connected = Some r
               /\ stack.Route_IsOutboundBroadcast r = false
               /\ stack.Route_IsResolutionRequired r = false).
  { vm_compute. eexists. repeat split. }
  destruct H4 as (r & H4 & H5 & H6).
  assert (H7 : buffer.len [x01; x02; x03] <= header.UDPMaximumPacketSize)
    by (vm_compute; discriminate).
  pose proof (Write_connected_sends teststack.connected r 1 examples.payload3
                examples.noOpts H1 eq_refl eq_refl H2
                (Nat.le_refl 1) H3 H4) as (_ & _ & Hsend).
  pose proof (Hsend [x01; x02; x03] (or_intror H5) H6 eq_refl H7)
    as (w & e' & Hw & Herr & Hn & _).
  exists w, e'. split; [exact Hw|].
  split.
  - rewrite Herr. reflexivity.
  - rewrite Hn. reflexivity.
Defined.


Section Closing.

Context {Sigma : Type} {StackOps : stack.Ops Sigma} {StackGroupOps : GroupOps Sigma}.

Implicit Types (e : endpoint Sigma).

(** On an endpoint that is already closed and holds nothing, [Close] only
    notifies the waiters again. *)
Lemma Close_of_closed e :
  state e = StateClosed -> route e = None -> rcvClosed e = true ->
  rcvList e = [] -> rcvBufSize e = 0 -> multicastMemberships e = [] ->
  shutdownFlags e = Z.lor tcpip.ShutdownRead tcpip.ShutdownWrite ->
  Close [] e
  = Notify e
      (Z.lor (Z.lor (Z.lor waiter.EventHUp waiter.EventErr) waiter.EventIn)
         waiter.EventOut).
Proof.
  destruct e. cbn. intros -> -> -> -> -> -> ->. reflexivity.
Qed.

(** X8: a second [Close] does not give back twice what the first one gave
    back: after [Close] the membership map is empty, and closing again
    leaves the endpoint and the stack as they are and only notifies the
    waiters once more. *)
Theorem Close_twice_only_notifies order e :
  multicastMemberships (Close order e) = []
  /\ Close [] (Close order e)
     = Notify (Close order e)
         (Z.lor (Z.lor (Z.lor waiter.EventHUp waiter.EventErr) waiter.EventIn)
            waiter.EventOut).
Proof.
  destruct (Close_core order e) as (H1 & H2 & H3 & H4 & H5 & H6 & H7 & _).
  split; [exact H6|].
  apply Close_of_closed; assumption.
Qed.

(** X9: a reachable endpoint in the CLOSED state is inert.  With no error
    latched, [Read] fails with closed-for-receive and [Write] with
    closed-for-send, each moving its one counter only; a datagram that
    arrives is never queued; [Disconnect] does nothing; there is no remote
    address; and the endpoint polls readable to whoever asks for it. *)
Theorem closed_endpoint_is_inert e :
  reachable e -> state e = StateClosed ->
  (forall addr, lastError e = None ->
     Read e addr
     = ({| rd_view := []; rd_cm := tcpip.ControlMessages_zero;
           rd_err := Some tcpip.ErrClosedForReceive; rd_addr := addr |},
        stats_Increment e ReadErrors_ReadClosed))
  /\ (forall fuel p opts, lastError e = None -> tcpip.More opts = false ->
      Write fuel e p opts
      = Some (Ret (wr_fail tcpip.ErrClosedForSend,
                   stats_Increment e WriteErrors_WriteClosed)))
  /\ (forall id pkt e', HandlePacket e id pkt = Ret e' ->
      rcvList e' = [] /\ rcvBufSize e' = 0 /\ state e' = StateClosed)
  /\ Disconnect e = Ret (None, e)
  /\ GetRemoteAddress e = (tcpip.FullAddress_zero, Some tcpip.ErrNotConnected)
  /\ (forall mask,
      hasEvent (Readiness e mask) waiter.EventIn = hasEvent mask waiter.EventIn).
Proof.
  intros Hr Hst. apply reachable_wellFormed_aux in Hr.
  destruct Hr as (_ & _ & Hc). destruct (Hc Hst) as (Hrc & Hl & Hb & Hsh).
  split; [|split; [|split; [|split; [|split]]]].
  - intros addr Hle. rewrite (Read_no_error e addr Hle), Hl, Hrc. reflexivity.
  - intros fuel p opts Hle Hmore. unfold Write, write, LastError.
    rewrite Hle, Hmore, (set_lastError_None_id e Hle).
    apply Z.eqb_neq in Hsh. rewrite Hsh. reflexivity.
  - intros id pkt e' H. apply HandlePacket_cases in H.
    destruct H as (H1 & _ & _ & _ & _ & _ & [[H7 H8]|(_ & H8 & _)]).
    + repeat split; congruence.
    + congruence.
  - unfold Disconnect, EndpointState_. rewrite Hst. reflexivity.
  - unfold GetRemoteAddress, EndpointState_. rewrite Hst. reflexivity.
  - intros mask. rewrite !hasEvent_In, Readiness_testbit by lia.
    unfold readable. rewrite Hrc. cbn [Z.eqb Pos.eqb andb orb].
    rewrite orb_true_r, andb_true_r, orb_false_r. reflexivity.
Qed.

End Closing.

Lemma closed_endpoint_is_inert_witness :
  Read (Close [] testgroups.fresh) None
  = ({| rd_view := []; rd_cm := tcpip.ControlMessages_zero;
        rd_err := Some tcpip.ErrClosedForReceive; rd_addr := None |},
     stats_Increment (Close [] testgroups.fresh) ReadErrors_ReadClosed).
Proof.
  assert (Hr : reachable (Close [] testgroups.fresh)).
  { eapply reachable_step; [apply reachable_new|apply step_Close]. }
  assert (Hs : state (Close [] testgroups.fresh) = StateClosed)
    by (vm_compute; reflexivity).
  pose proof (closed_endpoint_is_inert (Close [] testgroups.fresh) Hr Hs)
    as (H & _).
  apply H. vm_compute; reflexivity.
Defined.

Section ReceiveQueue.

Context {Sigma : Type} {StackOps : stack.Ops Sigma} {StackGroupOps : GroupOps Sigma}.

Implicit Types (e : endpoint Sigma).

Lemma queuedBytes_nonneg (q : list udpPacket) : 0 <= queuedBytes q.
Proof.
  induction q as [|p q IH]; cbn [queuedBytes]; [lia|].
  pose proof (Size_nonneg (data p)). lia.
Qed.

Lemma arrivedBytes_nonneg pkts : 0 <= arrivedBytes pkts.
Proof.
  induction pkts as [|ip pkts IH]; cbn [arrivedBytes]; [lia|].
  pose proof (Size_nonneg (cappedData (snd ip))). lia.
Qed.

Lemma queuedBytes_arrived (q : list udpPacket) :
  forall pkts, map data q = map (fun ip => cappedData (snd ip)) pkts ->
  queuedBytes q = arrivedBytes pkts.
Proof.
  induction q as [|p q IH]; intros [|ip pkts] H; try discriminate H.
  - reflexivity.
  - cbn [map] in H. injection H as Hd Hq.
    cbn [queuedBytes arrivedBytes]. rewrite Hd, (IH pkts Hq). reflexivity.
Qed.

(** As many [Read]s as there are queued datagrams hand them out front
    first and leave the queue empty. *)
Lemma Reads_drain (q : list udpPacket) :
  forall e, lastError e = None -> rcvList e = q ->
  map rd_view (fst (Reads (length q) e))
  = map (fun p => buffer.ToView (data p)) q
  /\ Forall (fun r => rd_err r = None) (fst (Reads (length q) e))
  /\ rcvList (snd (Reads (length q) e)) = []
  /\ rcvClosed (snd (Reads (length q) e)) = rcvClosed e
  /\ lastError (snd (Reads (length q) e)) = None
  /\ state (snd (Reads (length q) e)) = state e
  /\ (rcvBufSize e = queuedBytes q -> queuedBytes q <= maxInt ->
      rcvBufSize (snd (Reads (length q) e)) = 0).
Proof.
  induction q as [|p q IH]; intros e Hle Hl; cbn [length Reads].
  - cbn [fst snd map queuedBytes]. repeat split; auto.
  - pose proof (Read_no_error e None Hle) as HR. rewrite Hl in HR.
    destruct (Read e None) as [r e1]. injection HR as -> ->.
    match goal with
    | |- context [Reads (length q) ?x] => set (e1 := x)
    end.
    assert (Hle1 : lastError e1 = None) by exact Hle.
    assert (Hl1 : rcvList e1 = q) by reflexivity.
    destruct (IH e1 Hle1 Hl1) as (H1 & H2 & H3 & H4 & H5 & H6 & H7).
    destruct (Reads (length q) e1) as [rs e2]. cbn [fst snd] in *.
    cbn [map rd_view rd_err]. rewrite H1.
    split; [reflexivity|]. split; [constructor; [reflexivity|exact H2]|].
    split; [exact H3|]. split; [exact H4|]. split; [exact H5|].
    split; [exact H6|].
    intros Hb Hmax. cbn [queuedBytes] in Hb, Hmax.
    pose proof (Size_nonneg (data p)). pose proof (queuedBytes_nonneg q).
    apply H7; [|lia].
    change (rcvBufSize e1) with (int (rcvBufSize e - buffer.Size (data p))).
    rewrite Hb. rewrite int_small; unfold maxInt in *; lia.
Qed.

(** The receive path over datagrams that pass validation and fit the
    buffer together: all are queued, in arrival order. *)
Lemma HandlePackets_no_loss pkts :
  forall e,
  rcvReady e = true -> rcvClosed e = false -> 0 <= rcvBufSize e ->
  rcvBufSize e + arrivedBytes pkts < rcvBufSizeMax e ->
  rcvBufSizeMax e <= maxInt ->
  Forall (fun ip => passesValidation (snd ip) = true) pkts ->
  exists e' q,
    HandlePackets e pkts = Ret e'
    /\ rcvList e' = rcvList e ++ q
    /\ map data q = map (fun ip => cappedData (snd ip)) pkts
    /\ rcvBufSize e' = rcvBufSize e + arrivedBytes pkts
    /\ lastError e' = lastError e
    /\ rcvClosed e' = false
    /\ stats e' ReceiveErrors_ReceiveBufferOverflow
       = stats e ReceiveErrors_ReceiveBufferOverflow.
Proof.
  induction pkts as [|[id pkt] rest IH]; intros e Hready Hclosed Hb Hfit Hmax Hall.
  - exists e, []. cbn [HandlePackets arrivedBytes map]. rewrite app_nil_r.
    repeat split; auto; lia.
  - inversion Hall as [|? ? Hv Hrest]; subst. cbn [snd] in Hv.
    cbn [arrivedBytes snd] in Hfit.
    pose proof (arrivedBytes_nonneg rest) as Hrest0.
    pose proof (Size_nonneg (cappedData pkt)) as Hsz.
    destruct (HandlePacket_validated e id pkt Hv Hready Hclosed)
      as (e1 & Hstep & Hready1 & Hclosed1 & Hmax1 & _ & _ & _ & Hcase).
    pose proof (HandlePacket_cases e id pkt e1 Hstep)
      as (_ & _ & _ & _ & _ & Hle1 & _).
    rewrite Z.geb_leb in Hcase.
    destruct (Z.leb_spec (rcvBufSizeMax e) (rcvBufSize e)) as [Hfull|Hroom]; [lia|].
    destruct Hcase as (p & Hl1 & Hd1 & Hb1 & Ho1).
    rewrite int_small in Hb1 by (unfold maxInt in *; lia).
    destruct (IH e1 Hready1 Hclosed1 ltac:(lia) ltac:(lia) ltac:(lia) Hrest)
      as (e' & q & Hrun & Hl & Hd & Hbytes & Hle & Hcl & Ho).
    exists e', (p :: q). cbn [HandlePackets]. rewrite Hstep. cbn [bind].
    split; [exact Hrun|].
    split; [rewrite Hl, Hl1, <- app_assoc; reflexivity|].
    split; [cbn [map snd]; rewrite Hd1, Hd; reflexivity|].
    split; [cbn [arrivedBytes snd]; lia|].
    split; [congruence|]. split; [exact Hcl|]. congruence.
Qed.

(** X10: datagrams that pass validation and together stay below the
    capacity of an empty, ready and open receive queue are all queued, and
    as many [Read]s hand their payloads (capped to the declared length)
    back in arrival order, without an error; the queue is then empty, the
    byte count is back at zero, no overflow was counted and a further
    [Read] would block. *)
Theorem datagrams_read_in_arrival_order e pkts :
  rcvReady e = true -> rcvClosed e = false ->
  rcvList e = [] -> rcvBufSize e = 0 -> lastError e = None ->
  Forall (fun ip => passesValidation (snd ip) = true) pkts ->
  arrivedBytes pkts < rcvBufSizeMax e -> rcvBufSizeMax e <= maxInt ->
  exists e1,
    HandlePackets e pkts = Ret e1
    /\ stats e1 ReceiveErrors_ReceiveBufferOverflow
       = stats e ReceiveErrors_ReceiveBufferOverflow
    /\ rcvBufSize e1 = arrivedBytes pkts
    /\ map rd_view (fst (Reads (length pkts) e1))
       = map (fun ip => buffer.ToView (cappedData (snd ip))) pkts
    /\ Forall (fun r => rd_err r = None) (fst (Reads (length pkts) e1))
    /\ rcvList (snd (Reads (length pkts) e1)) = []
    /\ rcvBufSize (snd (Reads (length pkts) e1)) = 0
    /\ rd_err (fst (Read (snd (Reads (length pkts) e1)) None))
       = Some tcpip.ErrWouldBlock.
Proof.
  intros Hready Hclosed Hempty Hzero Hle Hall Hfit Hmax.
  destruct (HandlePackets_no_loss pkts e Hready Hclosed ltac:(lia) ltac:(lia)
              Hmax Hall)
    as (e1 & q & Hrun & Hl & Hd & Hb & Hle1 & Hcl & Ho).
  rewrite Hempty in Hl. cbn [app] in Hl. rewrite Hzero in Hb. cbn in Hb.
  rewrite Hle in Hle1.
  assert (Hlen : length pkts = length q).
  { rewrite <- (length_map data q), Hd, length_map. reflexivity. }
  pose proof (queuedBytes_arrived q pkts Hd) as Hqb.
  destruct (Reads_drain q e1 Hle1 Hl) as (H1 & H2 & H3 & H4 & H5 & _ & H7).
  exists e1. rewrite Hlen.
  split; [exact Hrun|]. split; [exact Ho|]. split; [exact Hb|].
  split.
  { rewrite H1. rewrite <- (map_map data buffer.ToView), Hd, map_map. reflexivity. }
  split; [exact H2|]. split; [exact H3|].
  split; [apply H7; lia|].
  rewrite (proj1 (Read_readOutcome _ None H5)).
  unfold readOutcome. rewrite H3, H4, Hcl. reflexivity.
Qed.

(** X11: shutting down the read side of a BOUND or CONNECTED endpoint
    closes the receive queue without discarding it: the call succeeds, the
    write side is not touched, the datagrams already queued can still be
    read front first, after them [Read] reports closed-for-receive, and no
    datagram that arrives later is queued. *)
Theorem Shutdown_read_keeps_queued_data e :
  state e = StateBound \/ state e = StateConnected -> lastError e = None ->
  let e1 := snd (Shutdown e tcpip.ShutdownRead) in
  let n := length (rcvList e) in
  fst (Shutdown e tcpip.ShutdownRead) = None
  /\ rcvClosed e1 = true
  /\ Z.land (shutdownFlags e1) tcpip.ShutdownWrite
     = Z.land (shutdownFlags e) tcpip.ShutdownWrite
  /\ map rd_view (fst (Reads n e1))
     = map (fun p => buffer.ToView (data p)) (rcvList e)
  /\ Forall (fun r => rd_err r = None) (fst (Reads n e1))
  /\ rd_err (fst (Read (snd (Reads n e1)) None)) = Some tcpip.ErrClosedForReceive
  /\ (forall id pkt e', HandlePacket e1 id pkt = Ret e' ->
      rcvList e' = rcvList e1).
Proof.
  intros Hst Hle e1 n. subst n.
  assert (H : fst (Shutdown e tcpip.ShutdownRead) = None
              /\ rcvClosed e1 = true /\ rcvList e1 = rcvList e
              /\ lastError e1 = lastError e
              /\ shutdownFlags e1 = Z.lor (shutdownFlags e) tcpip.ShutdownRead).
  { unfold e1, Shutdown, EndpointState_.
    destruct Hst as [-> | ->]; cbn; destruct (rcvClosed e); cbn; repeat split. }
  destruct H as (H1 & H2 & H3 & H4 & H5).
  rewrite Hle in H4.
  destruct (Reads_drain (rcvList e) e1 H4 H3) as (R1 & R2 & R3 & R4 & R5 & _).
  split; [exact H1|]. split; [exact H2|].
  split.
  { rewrite H5, Z.land_lor_distr_l. change (Z.land tcpip.ShutdownRead tcpip.ShutdownWrite)
      with 0. apply Z.lor_0_r. }
  split; [exact R1|]. split; [exact R2|].
  split.
  { rewrite (proj1 (Read_readOutcome _ None R5)).
    unfold readOutcome. rewrite R3, R4, H2. reflexivity. }
  intros id pkt e' Hp. apply HandlePacket_cases in Hp.
  destruct Hp as (_ & _ & _ & _ & _ & _ & [[Hl _]|(_ & Hc & _)]);
    [exact Hl|congruence].
Qed.

End ReceiveQueue.

Lemma datagrams_read_in_arrival_order_witness :
  let pkts := [(examples.peerID, examples.datagram 3);
               (examples.peerID, examples.datagram 5)] in
  exists e1,
    HandlePackets examples.bound pkts = Ret e1
    /\ map rd_view (fst (Reads (length pkts) e1))
       = [[x00; x00; x00]; [x00; x00; x00; x00; x00]].
Proof.
  intros pkts.
  assert (H1 : rcvReady examples.bound = true) by (vm_compute; reflexivity).
  assert (H2 : rcvClosed examples.bound = false) by (vm_compute; reflexivity).
  assert (H3 : rcvList examples.bound = []) by (vm_compute; reflexivity).
  assert (H4 : rcvBufSize examples.bound = 0) by (vm_compute; reflexivity).
  assert (H5 : lastError examples.bound = None) by (vm_compute; reflexivity).
  assert (H6 : Forall (fun ip => passesValidation (snd ip) = true) pkts).
  { repeat constructor; vm_compute; reflexivity. }
  assert (H7 : arrivedBytes pkts < rcvBufSizeMax examples.bound)
    by (vm_compute; reflexivity).
  assert (H8 : rcvBufSizeMax examples.bound <= maxInt)
    by (vm_compute; discriminate).
  pose proof (datagrams_read_in_arrival_order examples.bound pkts
                H1 H2 H3 H4 H5 H6 H7 H8) as (e1 & Hrun & _ & _ & Hmap & _).
  exists e1. split; [exact Hrun|].
  rewrite Hmap. vm_compute. reflexivity.
Defined.

Lemma Shutdown_read_keeps_queued_data_witness :
  rd_err (fst (Read (snd (Reads 2 (snd (Shutdown examples.connectedWithData
                                          tcpip.ShutdownRead)))) None))
  = Some tcpip.ErrClosedForReceive.
Proof.
  assert (H1 : state examples.connectedWithData = StateConnected)
    by (vm_compute; reflexivity).
  assert (H2 : lastError examples.connectedWithData = None)
    by (vm_compute; reflexivity).
  assert (Hn : length (rcvList examples.connectedWithData) = 2%nat)
    by (vm_compute; reflexivity).
  pose proof (Shutdown_read_keeps_queued_data examples.connectedWithData
                (or_intror H1) H2) as H.
  cbv zeta in H. destruct H as (_ & _ & _ & _ & _ & H & _).
  rewrite Hn in H. exact H.
Defined.

Section Identity.

Context {Sigma : Type} {StackOps : stack.Ops Sigma} {StackGroupOps : GroupOps Sigma}.

Implicit Types (e : endpoint Sigma).

(** [e'] is [e] up to the stack and the bound port flags. *)
Lemma only_stack_refl e :
  set_boundPortFlags (set_stack e (stack_ e)) (boundPortFlags e) = e.
Proof. destruct e. reflexivity. Qed.

Lemma registerWithStack_only_stack e nic protos id0 :
  let e1 := snd (registerWithStack e nic protos id0) in
  set_boundPortFlags (set_stack e1 (stack_ e)) (boundPortFlags e) = e.
Proof.
  unfold registerWithStack. repeat break_match; destruct e; reflexivity.
Qed.

Lemma connectRoute_only_stack e nic addr netProto :
  exists n, snd (connectRoute e nic addr netProto) = set_net e n.
Proof.
  unfold connectRoute. cbv zeta.
  destruct (stack.FindRoute _ _ _ _ _ _) as [[r|err] n]; exists n; reflexivity.
Qed.

(** When the endpoint is bound to a NIC, [connectRoute] is asked for a
    route on that NIC and hands the same NIC back. *)
Lemma connectRoute_nic e nic addr netProto r nic' e1 :
  connectRoute e nic addr netProto = (inl (r, nic'), e1) ->
  nic <> 0 -> nic' = nic.
Proof.
  unfold connectRoute. cbv zeta. intros H Hn.
  apply Z.eqb_neq in Hn. rewrite Hn, !andb_false_r in H.
  destruct (stack.FindRoute _ _ _ _ _ _) as [[r0|err] n]; [|discriminate H].
  now injection H as _ <- _.
Qed.

(** The facts a successful [Connect] establishes. *)
Lemma Connect_success_facts e addr e' :
  Connect e addr = (None, e') ->
  tcpip.Port addr <> 0 /\ state e <> StateClosed
  /\ state e' = StateConnected /\ rcvReady e' = true
  /\ dstPort e' = stack.RemotePort (ID e')
  /\ dstPort e' = tcpip.Port (fst (fst (checkV4MappedLocked e addr)))
  /\ GetRemoteAddress e'
     = ({| tcpip.NIC := RegisterNICID e';
           tcpip.Addr := stack.RemoteAddress (ID e');
           tcpip.Port := stack.RemotePort (ID e') |}, None)
  /\ (state e <> StateInitial ->
      stack.LocalAddress (ID e') = stack.LocalAddress (ID e)
      /\ (stack.LocalPort (ID e) <> 0 ->
          stack.LocalPort (ID e') = stack.LocalPort (ID e))
      /\ (BindNICID e <> 0 -> RegisterNICID e' = BindNICID e))
  /\ BindNICID e' = BindNICID e
  /\ rcvList e' = rcvList e /\ lastError e' = lastError e
  /\ multicastMemberships e' = multicastMemberships e.
Proof.
  unfold Connect. intros H.
  destruct (Z.eqb_spec (tcpip.Port addr) 0) as [|Hport]; [discriminate H|].
  cbv zeta in H.
  match type of H with
  | context [match ?sw with inl _ => _ | inr _ => _ end] =>
      assert (Hsw : match sw with
                    | inl (nic, lp) =>
                        state e <> StateClosed
                        /\ (state e <> StateInitial ->
                            lp = stack.LocalPort (ID e)
                            /\ (BindNICID e <> 0 -> nic = BindNICID e))
                    | inr _ => True
                    end);
      [|destruct sw as [[nic lp]|err0]; [|discriminate H]]
  end.
  { unfold EndpointState_. destruct (state e); try exact I.
    - split; [discriminate|]. intros Hc. congruence.
    - destruct (Z.eqb_spec (BindNICID e) 0).
      + split; [discriminate|]. intros _. split; [reflexivity|]. intros; congruence.
      + destruct (negb (tcpip.NIC addr =? 0) && negb (tcpip.NIC addr =? BindNICID e));
          [exact I|].
        split; [discriminate|]. intros _. split; reflexivity.
    - destruct (Z.eqb_spec (BindNICID e) 0).
      + split; [discriminate|]. intros _. split; [reflexivity|]. intros; congruence.
      + destruct (negb (tcpip.NIC addr =? 0) && negb (tcpip.NIC addr =? BindNICID e));
          [exact I|].
        split; [discriminate|]. intros _. split; reflexivity. }
  destruct Hsw as (Hnc & Hkeep).
  destruct (checkV4MappedLocked e addr) as [[addr' netProto] [err|]];
    [discriminate H|]. cbn [fst].
  destruct (connectRoute_only_stack e nic addr' netProto) as [n1 Hn1].
  destruct (connectRoute e nic addr' netProto) as [[[r nic']|err] e1] eqn:Hcr;
    [|discriminate H].
  cbn [snd] in Hn1. subst e1.
  match type of H with
  | context [registerWithStack ?a ?b ?c ?d] =>
      pose proof (registerWithStack_only_stack a b c d) as Hfr;
      destruct (registerWithStack a b c d) as [[[id btd] rerr] e2] eqn:Hreg
  end.
  cbn [snd] in Hfr.
  destruct rerr; [discriminate H|].
  apply registerWithStack_frame in Hreg.
  destruct Hreg as (F1 & F2 & F3 & F4 & F5 & F6 & F7 & F8 & F9 & F10 & F11 & F12).
  cbn [stack.LocalAddress stack.RemotePort stack.RemoteAddress] in F9, F10, F11.
  assert (HI : ID e2 = ID e) by (unfold ID; rewrite F3; reflexivity).
  assert (HB : BindNICID e2 = BindNICID e) by (unfold BindNICID; rewrite F3; reflexivity).
  assert (HL : rcvList e2 = rcvList e) by exact (f_equal rcvList Hfr).
  assert (HE : lastError e2 = lastError e) by exact (f_equal lastError Hfr).
  assert (HM : multicastMemberships e2 = multicastMemberships e)
    by exact (f_equal multicastMemberships Hfr).
  assert (HK : state e <> StateInitial ->
               stack.LocalAddress id = stack.LocalAddress (ID e)
               /\ (stack.LocalPort (ID e) <> 0 ->
                   stack.LocalPort id = stack.LocalPort (ID e))
               /\ (BindNICID e <> 0 -> nic' = BindNICID e)).
  { intros Hni. destruct (Hkeep Hni) as (Hlp & Hnic).
    split; [|split].
    - rewrite F9. unfold EndpointState_.
      change (state (set_net e n1)) with (state e).
      destruct (state e); [congruence|reflexivity..].
    - intros Hp. rewrite (F12 Hp). cbn [stack.LocalPort]. exact Hlp.
    - intros Hb. rewrite <- (Hnic Hb).
      apply (connectRoute_nic _ _ _ _ _ _ _ Hcr). rewrite (Hnic Hb). exact Hb. }
  split; [exact Hport|]. split; [exact Hnc|].
  unfold GetRemoteAddress, EndpointState_.
  destruct (negb (stack.LocalPort (ID e2) =? 0));
    destruct (stack.Route_Clone _ r) as [clone n];
    injection H as <-; cbn;
    (split; [reflexivity|]); (split; [reflexivity|]);
    (split; [congruence|]); (split; [reflexivity|]); (split; [reflexivity|]);
    (split; [exact HK|]); (split; [exact HB|]); (split; [exact HL|]);
    split; assumption.
Qed.

(** X12: what a successful [Connect] establishes.  The endpoint was not
    CLOSED and the port asked for is not zero; it is now CONNECTED with the
    receive queue ready, the destination port is the remote port of its
    identity and [GetRemoteAddress] reports that peer; an endpoint that was
    already BOUND or CONNECTED keeps its local address and its non-zero
    local port, and one bound to a NIC stays registered on that NIC; the
    bound NIC, the datagrams queued, a latched error and the multicast
    memberships are not touched. *)
Theorem Connect_success e addr e' :
  Connect e addr = (None, e') ->
  tcpip.Port addr <> 0 /\ state e <> StateClosed
  /\ state e' = StateConnected /\ rcvReady e' = true
  /\ dstPort e' = stack.RemotePort (ID e')
  /\ dstPort e' = tcpip.Port (fst (fst (checkV4MappedLocked e addr)))
  /\ GetRemoteAddress e'
     = ({| tcpip.NIC := RegisterNICID e';
           tcpip.Addr := stack.RemoteAddress (ID e');
           tcpip.Port := stack.RemotePort (ID e') |}, None)
  /\ (state e <> StateInitial ->
      stack.LocalAddress (ID e') = stack.LocalAddress (ID e)
      /\ (stack.LocalPort (ID e) <> 0 ->
          stack.LocalPort (ID e') = stack.LocalPort (ID e))
      /\ (BindNICID e <> 0 -> RegisterNICID e' = BindNICID e))
  /\ BindNICID e' = BindNICID e
  /\ rcvList e' = rcvList e /\ lastError e' = lastError e
  /\ multicastMemberships e' = multicastMemberships e.
Proof. exact (Connect_success_facts e addr e'). Qed.

(** A failed [Connect] or [Bind] touches the stack and the bound port
    flags only. *)
Lemma failed_Connect_or_Bind_only_stack e addr err e' :
  Connect e addr = (Some err, e') \/ Bind e addr = (Some err, e') ->
  set_boundPortFlags (set_stack e' (stack_ e)) (boundPortFlags e) = e.
Proof.
  intros [H|H].
  - unfold Connect in H.
    destruct (tcpip.Port addr =? 0).
    { injection H as _ <-. apply only_stack_refl. }
    cbv zeta in H.
    match type of H with
    | context [match ?sw with inl _ => _ | inr _ => _ end] =>
        destruct sw as [[nic lp]|err0]
    end.
    2: { injection H as _ <-. apply only_stack_refl. }
    destruct (checkV4MappedLocked e addr) as [[addr' netProto] [err1|]].
    { injection H as _ <-. apply only_stack_refl. }
    destruct (connectRoute_only_stack e nic addr' netProto) as [n1 Hn1].
    destruct (connectRoute e nic addr' netProto) as [[[r nic']|err1] e1].
    2: { injection H as _ <-. cbn [snd] in Hn1. subst e1. destruct e; reflexivity. }
    cbn [snd] in Hn1. subst e1.
    match type of H with
    | context [registerWithStack ?a ?b ?c ?d] =>
        pose proof (registerWithStack_only_stack a b c d) as Hfr;
        destruct (registerWithStack a b c d) as [[[id btd] rerr] e2]
    end.
    cbn [snd] in Hfr.
    destruct rerr as [err1|].
    + injection H as _ <-.
      rewrite <- (only_stack_refl e) at 3.
      transitivity (set_boundPortFlags
                      (set_stack
                         (set_boundPortFlags
                            (set_stack e2 (stack_ (set_net e n1)))
                            (boundPortFlags (set_net e n1)))
                         (stack_ e)) (boundPortFlags e)).
      * destruct e2; reflexivity.
      * rewrite Hfr. destruct e; reflexivity.
    + destruct (negb (stack.LocalPort (ID e2) =? 0));
        destruct (stack.Route_Clone _ r) as [clone n]; discriminate H.
  - unfold Bind in H.
    destruct (bindLocked e addr) as [[err1|] e1] eqn:Hb; [|discriminate H].
    injection H as _ <-. unfold bindLocked in Hb.
    destruct (EndpointState_ e);
      try (injection Hb as _ <-; apply only_stack_refl).
    destruct (checkV4MappedLocked e addr) as [[addr' netProto] [err2|]].
    { injection Hb as _ <-. apply only_stack_refl. }
    cbv zeta in Hb.
    match type of Hb with
    | context [if ?c then (Some tcpip.ErrBadLocalAddress, e) else _] => destruct c
    end.
    { injection Hb as _ <-. apply only_stack_refl. }
    match type of Hb with
    | context [registerWithStack ?a ?b ?c ?d] =>
        pose proof (registerWithStack_only_stack a b c d) as Hfr;
        destruct (registerWithStack a b c d) as [[[id btd] rerr] e2]
    end.
    cbn [snd] in Hfr.
    destruct rerr as [err2|]; [|discriminate Hb].
    injection Hb as _ <-. exact Hfr.
Qed.

(** X13: a [Connect] or a [Bind] that fails changes nothing of the endpoint
    but its handle on the stack and the bound port flags: the state, the
    identity, the route and the peer of a CONNECTED endpoint, the receive
    queue and every option are as they were. *)
Theorem failed_Connect_or_Bind_keeps_endpoint e addr err e' :
  Connect e addr = (Some err, e') \/ Bind e addr = (Some err, e') ->
  set_boundPortFlags (set_stack e' (stack_ e)) (boundPortFlags e) = e.
Proof. exact (failed_Connect_or_Bind_only_stack e addr err e'). Qed.

(** The facts a successful [Bind] establishes. *)
Lemma Bind_success_facts e addr e' :
  Bind e addr = (None, e') ->
  let a := fst (fst (checkV4MappedLocked e addr)) in
  let netProto := snd (fst (checkV4MappedLocked e addr)) in
  let netProtos :=
    if (netProto =? header.IPv6ProtocolNumber)
       && negb (tcpip.GetV6Only (ops e))
       && tcpip.Address_eqb (tcpip.Addr a) []
    then [header.IPv6ProtocolNumber; header.IPv4ProtocolNumber]
    else [netProto] in
  let unicast :=
    negb (length (tcpip.Addr a) =? 0)%nat
    && negb (isBroadcastOrMulticast e (tcpip.NIC a) netProto (tcpip.Addr a)) in
  state e = StateInitial /\ state e' = StateBound /\ rcvReady e' = true
  /\ stack.LocalAddress (ID e') = tcpip.Addr a
  /\ stack.RemotePort (ID e') = 0 /\ stack.RemoteAddress (ID e') = []
  /\ (stack.LocalPort (ID e) <> 0 -> stack.LocalPort (ID e') = tcpip.Port a)
  /\ (stack.LocalPort (ID e) = 0 ->
      exists n,
        stack.ReservePort (stack.net (stack_ e)) netProtos ProtocolNumber
          (tcpip.Addr a) (tcpip.Port a) (portFlags e) (bindToDevice e)
          tcpip.FullAddress_zero
        = (stack.LocalPort (ID e'), None, n))
  /\ BindNICID e' = RegisterNICID e'
  /\ RegisterNICID e'
     = (if unicast
        then stack.CheckLocalAddress (stack.net (stack_ e)) (tcpip.NIC a)
               netProto (tcpip.Addr a)
        else tcpip.NIC a)
  /\ (unicast = true -> RegisterNICID e' <> 0)
  /\ effectiveNetProtos e' = netProtos
  /\ boundPortFlags e' = portFlags e /\ boundBindToDevice e' = bindToDevice e
  /\ dstPort e' = dstPort e
  /\ multicastMemberships e' = multicastMemberships e
  /\ GetLocalAddress e'
     = Ret ({| tcpip.NIC := RegisterNICID e';
               tcpip.Addr := stack.LocalAddress (ID e');
               tcpip.Port := stack.LocalPort (ID e') |}, None).
Proof.
  intros H a netProto netProtos unicast. unfold Bind in H.
  destruct (bindLocked e addr) as [[err|] e1] eqn:Hb; [discriminate H|].
  injection H as <-. unfold bindLocked, EndpointState_ in Hb.
  destruct (state e) eqn:Hst; try discriminate Hb.
  subst a netProto netProtos unicast.
  destruct (checkV4MappedLocked e addr) as [[a netProto] [err|]];
    [discriminate Hb|].
  cbn [fst snd]. cbv zeta in Hb.
  set (unicast := negb (length (tcpip.Addr a) =? 0)%nat
                  && negb (isBroadcastOrMulticast e (tcpip.NIC a) netProto
                             (tcpip.Addr a))) in *.
  set (nic := if unicast
              then stack.CheckLocalAddress (stack.net (stack_ e)) (tcpip.NIC a)
                     netProto (tcpip.Addr a)
              else tcpip.NIC a) in *.
  set (netProtos := if (netProto =? header.IPv6ProtocolNumber)
                       && negb (tcpip.GetV6Only (ops e))
                       && tcpip.Address_eqb (tcpip.Addr a) []
                    then [header.IPv6ProtocolNumber; header.IPv4ProtocolNumber]
                    else [netProto]) in *.
  destruct (unicast && (nic =? 0)) eqn:Hchk; [discriminate Hb|].
  assert (Hnz : unicast = true -> nic <> 0).
  { intros Hu. rewrite Hu in Hchk. cbn in Hchk. now apply Z.eqb_neq. }
  unfold registerWithStack in Hb.
  destruct (Z.eqb_spec (stack.LocalPort (ID e)) 0) as [Hz|Hnzp].
  - destruct (stack.ReservePort _ _ _ _ _ _ _ _) as [[port perr] n] eqn:Hres.
    cbn [stack.LocalAddress stack.LocalPort] in Hres.
    destruct perr as [perr|]; [discriminate Hb|].
    match type of Hb with
    | context [stack.RegisterTransportEndpoint ?a ?b ?c ?d ?f ?g ?h ?i] =>
        destruct (stack.RegisterTransportEndpoint a b c d f g h i) as [[rerr|] n']
    end; [discriminate Hb|].
    injection Hb as <-. unfold GetLocalAddress, EndpointState_. cbn.
    repeat split; try reflexivity; try congruence; try assumption.
    intros _. exists n. reflexivity.
  - match type of Hb with
    | context [stack.RegisterTransportEndpoint ?a ?b ?c ?d ?f ?g ?h ?i] =>
        destruct (stack.RegisterTransportEndpoint a b c d f g h i) as [[rerr|] n']
    end; [discriminate Hb|].
    injection Hb as <-. unfold GetLocalAddress, EndpointState_. cbn.
    repeat split; try reflexivity; try congruence; try assumption.
Qed.

(** X14: what a successful [Bind] establishes.  The endpoint was
    INITIAL and is now BOUND with the receive queue ready; its identity has
    the address asked for (in canonical form) as local address and no
    remote part; the local port is the one asked for when the endpoint had
    one already, and otherwise the one the stack reserved for the request;
    the bound NIC is the NIC it registered on, which for a unicast address
    is the NIC that owns the address; the flags and the device it was
    registered with are remembered; the destination port and the
    multicast memberships are not touched; and [GetLocalAddress] reports that
    identity. *)
Theorem Bind_success e addr e' :
  Bind e addr = (None, e') ->
  let a := fst (fst (checkV4MappedLocked e addr)) in
  let netProto := snd (fst (checkV4MappedLocked e addr)) in
  let netProtos :=
    if (netProto =? header.IPv6ProtocolNumber)
       && negb (tcpip.GetV6Only (ops e))
       && tcpip.Address_eqb (tcpip.Addr a) []
    then [header.IPv6ProtocolNumber; header.IPv4ProtocolNumber]
    else [netProto] in
  let unicast :=
    negb (length (tcpip.Addr a) =? 0)%nat
    && negb (isBroadcastOrMulticast e (tcpip.NIC a) netProto (tcpip.Addr a)) in
  state e = StateInitial /\ state e' = StateBound /\ rcvReady e' = true
  /\ stack.LocalAddress (ID e') = tcpip.Addr a
  /\ stack.RemotePort (ID e') = 0 /\ stack.RemoteAddress (ID e') = []
  /\ (stack.LocalPort (ID e) <> 0 -> stack.LocalPort (ID e') = tcpip.Port a)
  /\ (stack.LocalPort (ID e) = 0 ->
      exists n,
        stack.ReservePort (stack.net (stack_ e)) netProtos ProtocolNumber
          (tcpip.Addr a) (tcpip.Port a) (portFlags e) (bindToDevice e)
          tcpip.FullAddress_zero
        = (stack.LocalPort (ID e'), None, n))
  /\ BindNICID e' = RegisterNICID e'
  /\ RegisterNICID e'
     = (if unicast
        then stack.CheckLocalAddress (stack.net (stack_ e)) (tcpip.NIC a)
               netProto (tcpip.Addr a)
        else tcpip.NIC a)
  /\ (unicast = true -> RegisterNICID e' <> 0)
  /\ effectiveNetProtos e' = netProtos
  /\ boundPortFlags e' = portFlags e /\ boundBindToDevice e' = bindToDevice e
  /\ dstPort e' = dstPort e
  /\ multicastMemberships e' = multicastMemberships e
  /\ GetLocalAddress e'
     = Ret ({| tcpip.NIC := RegisterNICID e';
               tcpip.Addr := stack.LocalAddress (ID e');
               tcpip.Port := stack.LocalPort (ID e') |}, None).
Proof. exact (Bind_success_facts e addr e'). Qed.

End Identity.

Lemma Connect_success_witness :
  state teststack.boundThenConnected = StateConnected
  /\ dstPort teststack.boundThenConnected = 9
  /\ stack.LocalPort (ID teststack.boundThenConnected) = 5000.
Proof.
  assert (H : exists e',
             Connect examples.bound teststack.peerV4 = (None, e')
             /\ e' = teststack.boundThenConnected
             /\ state examples.bound <> StateInitial
             /\ stack.LocalPort (ID examples.bound) = 5000
             /\ tcpip.Port (fst (fst (checkV4MappedLocked examples.bound
                                        teststack.peerV4))) = 9).
  { eexists. split; [|split; [reflexivity|]].
    - unfold teststack.boundThenConnected, examples.bound.
      match goal with
      | |- ?c = _ => assert (Hf : fst c = None) by (vm_compute; reflexivity);
                     destruct c as [x y]; cbn [fst snd] in *; now subst x
      end.
    - repeat split; try (vm_compute; reflexivity). vm_compute. discriminate. }
  destruct H as (e' & Hc & -> & Hni & Hlp & Hp).
  pose proof (Connect_success examples.bound teststack.peerV4 _ Hc)
    as (_ & _ & Hs & _ & _ & Hd & _ & Hk & _).
  destruct (Hk Hni) as (_ & Hport & _).
  split; [exact Hs|]. split; [rewrite Hd; exact Hp|].
  rewrite Hport; [exact Hlp|]. rewrite Hlp. discriminate.
Defined.

Lemma failed_Connect_or_Bind_keeps_endpoint_witness :
  exists e',
    Bind examples.bound teststack.peerV4 = (Some tcpip.ErrInvalidEndpointState, e')
    /\ set_boundPortFlags (set_stack e' (stack_ examples.bound))
         (boundPortFlags examples.bound) = examples.bound.
Proof.
  assert (H : exists e', Bind examples.bound teststack.peerV4
                         = (Some tcpip.ErrInvalidEndpointState, e')).
  { match goal with
    | |- exists e', ?c = _ =>
        assert (Hf : fst c = Some tcpip.ErrInvalidEndpointState)
          by (vm_compute; reflexivity);
        destruct c as [x y]; cbn [fst] in Hf; subst x; exists y; reflexivity
    end. }
  destruct H as (e' & H). exists e'. split; [exact H|].
  exact (failed_Connect_or_Bind_keeps_endpoint examples.bound teststack.peerV4
           _ e' (or_intror H)).
Defined.

Lemma Bind_success_witness :
  state examples.bound = StateBound
  /\ stack.LocalAddress (ID examples.bound) = []
  /\ BindNICID examples.bound = RegisterNICID examples.bound.
Proof.
  assert (H : Bind (teststack.newEndpoint header.IPv4ProtocolNumber)
                {| tcpip.NIC := 0; tcpip.Addr := []; tcpip.Port := 5000 |}
              = (None, examples.bound)).
  { unfold examples.bound.
    match goal with
    | |- ?c = _ => assert (Hf : fst c = None) by (vm_compute; reflexivity);
                   destruct c as [x y]; cbn [fst snd] in *; now subst x
    end. }
  pose proof (Bind_success _ _ _ H) as Hb. cbv zeta in Hb.
  destruct Hb as (_ & Hs & _ & Ha & _ & _ & _ & _ & Hn & _).
  split; [exact Hs|]. split; [|exact Hn].
  rewrite Ha. reflexivity.
Defined.

Section Frames.

Context {Sigma : Type} {StackOps : stack.Ops Sigma} {StackGroupOps : GroupOps Sigma}.

Implicit Types (e : endpoint Sigma).

Lemma set_stack_set_stack e s1 s2 : set_stack (set_stack e s1) s2 = set_stack e s2.
Proof. destruct e. reflexivity. Qed.

(** The send path from the route on touches the stack only. *)
Lemma write_send_frame e route dstPort p w e' :
  write_send e route dstPort p = Ret (w, e') -> exists s, e' = set_stack e s.
Proof.
  unfold write_send, bind. intros H.
  destruct route as [r|]; [|discriminate H].
  exists (stack_ e').
  repeat (break_match_in H; try discriminate H);
    injection H as <- <-;
    repeat match goal with
           | Hx : (_, _) = (_, _) |- _ => injection Hx as ? ?; subst
           end;
    destruct e; reflexivity.
Qed.

Lemma write_prepared_frame e to p w e' :
  write_prepared e to p = Ret (w, e') -> exists s, e' = set_stack e s.
Proof.
  unfold write_prepared. intros H.
  destruct to as [to|]; [|now apply write_send_frame in H].
  assert (Hid : exists s, e = set_stack e s)
    by (exists (stack_ e); destruct e; reflexivity).
  match type of H with
  | context [if ?c then Ret (wr_fail tcpip.ErrNoRoute, e) else _] => destruct c
  end; [injection H as <- <-; exact Hid|].
  cbv zeta in H.
  destruct (tcpip.Port to =? 0); [injection H as <- <-; exact Hid|].
  destruct (checkV4MappedLocked e to) as [[dst netProto] [err|]];
    [injection H as <- <-; exact Hid|].
  match type of H with
  | context [connectRoute ?a ?b ?c ?d] =>
      destruct (connectRoute_only_stack a b c d) as [n1 Hn1];
      destruct (connectRoute a b c d) as [[[r nic]|err] e1]
  end; cbn [snd] in Hn1; subst e1.
  - unfold bind in H.
    destruct (write_send _ (Some r) (tcpip.Port dst) p) as [[w1 e2]|] eqn:Hw;
      [|discriminate H].
    apply write_send_frame in Hw. destruct Hw as [s ->].
    injection H as <- <-. unfold set_net. rewrite !set_stack_set_stack.
    eexists. reflexivity.
  - injection H as <- <-. eexists. reflexivity.
Qed.

(** On an endpoint that is not INITIAL the retry loop of [write] changes
    nothing. *)
Lemma prepareForWrite_loop_fixed fuel e to r e1 :
  state e <> StateInitial ->
  prepareForWrite_loop fuel e to = Some (r, e1) -> e1 = e.
Proof.
  intros Hst H. destruct fuel as [|fuel]; [discriminate H|].
  cbn [prepareForWrite_loop] in H. unfold prepareForWrite, EndpointState_ in H.
  destruct (state e); [congruence| | |].
  - destruct to; injection H as _ <-; reflexivity.
  - injection H as _ <-; reflexivity.
  - injection H as _ <-; reflexivity.
Qed.

(** The shape of the endpoint after [Write]: the endpoint it prepared
    (the one given with the latched error cleared, or, from INITIAL, that
    one after the implicit bind) with the stack moved on and one counter
    incremented. *)
Lemma Write_shape e fuel p opts w e' :
  Write fuel e p opts = Some (Ret (w, e')) ->
  exists e1 s c,
    e' = stats_Increment (set_stack e1 s) c
    /\ (e1 = set_lastError e None
        \/ (state e = StateInitial
            /\ e1 = snd (bindLocked (set_lastError e None) tcpip.FullAddress_zero))).
Proof.
  intros H. unfold Write in H.
  destruct (write fuel e p opts) as [[[w1 e1]|]|] eqn:Hw; try discriminate H.
  injection H as <- <-.
  assert (Hid : forall x : endpoint Sigma, exists s, x = set_stack x s)
    by (intros x; exists (stack_ x); destruct x; reflexivity).
  assert (He1 : exists e0 s,
             e1 = set_stack e0 s
             /\ (e0 = set_lastError e None
                 \/ (state e = StateInitial
                     /\ e0 = snd (bindLocked (set_lastError e None)
                                    tcpip.FullAddress_zero)))).
  { unfold write, LastError in Hw.
    destruct (lastError e);
      [injection Hw as <- <-; destruct (Hid (set_lastError e None)) as [s Hs];
       exists (set_lastError e None), s; auto|].
    destruct (tcpip.More opts);
      [injection Hw as <- <-; destruct (Hid (set_lastError e None)) as [s Hs];
       exists (set_lastError e None), s; auto|].
    match type of Hw with
    | context [if ?c then _ else _] => destruct c
    end;
      [injection Hw as <- <-; destruct (Hid (set_lastError e None)) as [s Hs];
       exists (set_lastError e None), s; auto|].
    destruct (prepareForWrite_loop fuel _ _) as [[r e2]|] eqn:Hloop;
      [|discriminate Hw].
    assert (He2 : e2 = set_lastError e None
                  \/ (state e = StateInitial
                      /\ e2 = snd (bindLocked (set_lastError e None)
                                     tcpip.FullAddress_zero))).
    { destruct (state e) eqn:Hst.
      - right. split; [reflexivity|].
        destruct fuel as [|fuel]; [discriminate Hloop|].
        cbn [prepareForWrite_loop] in Hloop.
        unfold prepareForWrite at 1, EndpointState_ in Hloop.
        change (state (set_lastError e None)) with (state e) in Hloop.
        rewrite Hst in Hloop.
        pose proof (bindLocked_cases (set_lastError e None) tcpip.FullAddress_zero)
          as Hb.
        destruct (bindLocked (set_lastError e None) tcpip.FullAddress_zero)
          as [[err|] e3]; cbn [snd].
        + injection Hloop as _ <-. reflexivity.
        + destruct Hb as (_ & Hs3 & _).
          apply prepareForWrite_loop_fixed in Hloop; [exact Hloop|congruence].
      - left. eapply prepareForWrite_loop_fixed; [|exact Hloop].
        change (state (set_lastError e None)) with (state e). congruence.
      - left. eapply prepareForWrite_loop_fixed; [|exact Hloop].
        change (state (set_lastError e None)) with (state e). congruence.
      - left. eapply prepareForWrite_loop_fixed; [|exact Hloop].
        change (state (set_lastError e None)) with (state e). congruence. }
    destruct r as [err|].
    - injection Hw as <- <-. destruct (Hid e2) as [s Hs]. exists e2, s. auto.
    - injection Hw as Hw. apply write_prepared_frame in Hw.
      destruct Hw as [s ->]. exists e2, s. auto. }
  destruct He1 as (e0 & s & -> & Hcase). exists e0, s. eexists. split; [reflexivity|].
  exact Hcase.
Qed.

(** X15: [Write] on an endpoint that is not INITIAL changes nothing of the
    endpoint but this: the latched error is cleared, the stack moves on,
    and exactly one counter of the endpoint is incremented.  In particular
    a write to an explicit destination leaves the state, the identity, the
    stored route and the connected peer alone. *)
Theorem Write_frame e fuel p opts w e' :
  state e <> StateInitial ->
  Write fuel e p opts = Some (Ret (w, e')) ->
  exists s c, e' = stats_Increment (set_stack (set_lastError e None) s) c.
Proof.
  intros Hst H. destruct (Write_shape _ _ _ _ _ _ H) as (e1 & s & c & -> & [->|[Hi _]]).
  - exists s, c. reflexivity.
  - congruence.
Qed.

(** What [HandlePacket] touches. *)
Lemma HandlePacket_frame e id pkt e' :
  HandlePacket e id pkt = Ret e' ->
  exists q b st ss wq,
    e' = set_waiterQueue
           (set_stats
              (set_stack (set_rcvBufSize (set_rcvList e q) b)
                 {| stack.net := stack.net (stack_ e); stack.Stats_UDP := ss |})
              st)
           wq
    /\ (wq = waiterQueue e \/ wq = waiterQueue e ++ [waiter.EventIn]).
Proof.
  intros H.
  exists (rcvList e'), (rcvBufSize e'), (stats e'),
    (stack.Stats_UDP (stack_ e')), (waiterQueue e').
  unfold HandlePacket, bind in H.
  repeat (break_match_in H; try discriminate H);
    injection H as <-; destruct e as [? [? ?]];
    (split; [reflexivity|]); cbn; auto.
Qed.

(** What [Read] touches. *)
Lemma Read_frame e addr :
  exists q b st,
    snd (Read e addr)
    = set_stats (set_rcvBufSize (set_rcvList (set_lastError e None) q) b) st.
Proof.
  exists (rcvList (snd (Read e addr))), (rcvBufSize (snd (Read e addr))),
    (stats (snd (Read e addr))).
  unfold Read, LastError.
  repeat break_match; cbn [snd]; destruct e; reflexivity.
Qed.

(** X16: what the receive side touches.  [HandlePacket] changes at most
    the receive list, the byte count, the counters of the endpoint and of
    the stack and the waiters' log, where it adds at most one readable
    event; the stack itself is only read.  [HandleControlPacket] either
    does nothing or latches connection-refused and notifies the error
    event.  [Read] changes at most the latched error, the receive list, the
    byte count and the counters; it never notifies and never calls the
    stack. *)
Theorem receive_side_frame e :
  (forall id pkt e', HandlePacket e id pkt = Ret e' ->
     exists q b st ss wq,
       e' = set_waiterQueue
              (set_stats
                 (set_stack (set_rcvBufSize (set_rcvList e q) b)
                    {| stack.net := stack.net (stack_ e); stack.Stats_UDP := ss |})
                 st)
              wq
       /\ (wq = waiterQueue e \/ wq = waiterQueue e ++ [waiter.EventIn]))
  /\ (forall id typ extra pkt,
        HandleControlPacket e id typ extra pkt = e
        \/ HandleControlPacket e id typ extra pkt
           = Notify (set_lastError e (Some tcpip.ErrConnectionRefused))
               waiter.EventErr)
  /\ (forall addr,
        exists q b st,
          snd (Read e addr)
          = set_stats (set_rcvBufSize (set_rcvList (set_lastError e None) q) b) st).
Proof.
  split; [|split].
  - apply HandlePacket_frame.
  - intros id typ extra pkt. unfold HandleControlPacket, EndpointState_.
    destruct typ, (state e); auto.
  - apply Read_frame.
Qed.

End Frames.

Lemma Write_frame_witness :
  match Write 1 teststack.connected examples.payload3 examples.noOpts with
  | Some (Ret (w, e')) =>
      exists s c,
        e' = stats_Increment (set_stack (set_lastError teststack.connected None) s) c
  | _ => False
  end.
Proof.
  assert (Hst : state teststack.connected <> StateInitial)
    by (vm_compute; discriminate).
  assert (Hc : match Write 1 teststack.connected examples.payload3
                       examples.noOpts with
               | Some (Ret _) => True
               | _ => False
               end) by (vm_compute; exact I).
  destruct (Write 1 teststack.connected examples.payload3 examples.noOpts)
    as [[[w e']|]|] eqn:H; try exact Hc.
  exact (Write_frame _ _ _ _ _ _ Hst H).
Defined.

(** An eight-byte UDP header has all four fields. *)
Lemma UDP_fields_of_header (hdr : header.UDP) :
  length hdr = 8%nat ->
  exists sp dp l c,
    header.UDP_SourcePort hdr = Ret sp
    /\ header.UDP_DestinationPort hdr = Ret dp
    /\ header.UDP_Length hdr = Ret l
    /\ header.UDP_Checksum hdr = Ret c
    /\ forall x, header.UDP_CalculateChecksum hdr x
                 = Ret (header.Checksum (firstn 8 hdr) x).
Proof.
  intros H8.
  destruct hdr as [|b0 [|b1 [|b2 [|b3 [|b4 [|b5 [|b6 [|b7 [|]]]]]]]]];
    try discriminate H8.
  do 4 eexists. repeat split; reflexivity.
Qed.

Section Drops.

Context {Sigma : Type} {StackOps : stack.Ops Sigma} {StackGroupOps : GroupOps Sigma}.

Implicit Types (e : endpoint Sigma).

(** X17: a datagram with an eight-byte UDP header over IPv4 or IPv6 is
    always handled, and when it is turned away before the queue is looked
    at nothing but counters moves.  One that fails validation (declared
    length beyond the data, or a checksum that does not verify) is not
    counted as received and bumps exactly one of the malformed and the
    checksum-error counters.  One that passes validation while the receive
    queue is not ready yet or is closed is counted as received and as
    dropped at a closed receiver.  In both cases the receive list, the
    byte count and the waiters are left alone. *)
Theorem HandlePacket_turns_away e id pkt :
  length (stack.TransportHeader pkt) = 8%nat ->
  stack.NetworkProtocolNumber pkt = header.IPv4ProtocolNumber
  \/ stack.NetworkProtocolNumber pkt = header.IPv6ProtocolNumber ->
  exists e',
    HandlePacket e id pkt = Ret e'
    /\ (passesValidation pkt = false ->
        rcvList e' = rcvList e /\ rcvBufSize e' = rcvBufSize e
        /\ waiterQueue e' = waiterQueue e
        /\ stats e' PacketsReceived = stats e PacketsReceived
        /\ ((stats e' ReceiveErrors_MalformedPacketsReceived
             = tcpip.Increment (stats e ReceiveErrors_MalformedPacketsReceived)
             /\ stats e' ReceiveErrors_ChecksumErrors
                = stats e ReceiveErrors_ChecksumErrors)
            \/ (stats e' ReceiveErrors_ChecksumErrors
                = tcpip.Increment (stats e ReceiveErrors_ChecksumErrors)
                /\ stats e' ReceiveErrors_MalformedPacketsReceived
                   = stats e ReceiveErrors_MalformedPacketsReceived)))
    /\ (passesValidation pkt = true ->
        rcvReady e = false \/ rcvClosed e = true ->
        rcvList e' = rcvList e /\ rcvBufSize e' = rcvBufSize e
        /\ waiterQueue e' = waiterQueue e
        /\ stats e' PacketsReceived = tcpip.Increment (stats e PacketsReceived)
        /\ stats e' ReceiveErrors_ClosedReceiver
           = tcpip.Increment (stats e ReceiveErrors_ClosedReceiver)
        /\ stats e' ReceiveErrors_ReceiveBufferOverflow
           = stats e ReceiveErrors_ReceiveBufferOverflow).
Proof.
  intros H8 Hproto.
  destruct (UDP_fields_of_header _ H8) as (sp & dp & l & c & Hsp & Hdp & Hl & Hc & Hcs).
  assert (Hp : (stack.NetworkProtocolNumber pkt =? header.IPv4ProtocolNumber)
               || (stack.NetworkProtocolNumber pkt =? header.IPv6ProtocolNumber)
               = true).
  { destruct Hproto as [-> | ->]; reflexivity. }
  assert (Hcap : cappedData pkt
                 = buffer.CapLength (stack.Data pkt) (uint16 (l - header.UDPMinimumSize))).
  { unfold cappedData, header.UDP_PayloadLength. now rewrite Hl. }
  assert (Hv : exists ok,
             verifyChecksum (stack.TransportHeader pkt)
               (stack.set_Data pkt (cappedData pkt)) = Ret ok).
  { unfold verifyChecksum.
    destruct (stack.RXTransportChecksumValidated _); [eexists; reflexivity|].
    rewrite Hc. cbn [bind].
    destruct (negb (c =? 0) || _); [|eexists; reflexivity].
    unfold stack.PacketBuffer_Network.
    change (stack.NetworkProtocolNumber (stack.set_Data pkt (cappedData pkt)))
      with (stack.NetworkProtocolNumber pkt).
    rewrite Hp, Hl. cbn [bind]. rewrite Hcs. cbn [bind]. eexists. reflexivity. }
  destruct Hv as [ok Hv].
  unfold passesValidation. rewrite H8, Hp, Hl, Hv. cbn [Nat.eqb andb].
  unfold HandlePacket. rewrite Hl. cbn [bind].
  destruct (l >? int (buffer.Size (stack.Data pkt) + header.UDPMinimumSize)).
  { eexists. split; [reflexivity|]. cbn [negb andb]. split.
    - intros _. cbn. repeat split. left. split; reflexivity.
    - discriminate. }
  unfold header.UDP_PayloadLength. rewrite Hl. cbn [bind].
  rewrite <- Hcap, Hv. cbn [bind negb andb].
  destruct ok; cbn [negb].
  2: { eexists. split; [reflexivity|]. split.
       - intros _. cbn. repeat split. right. split; reflexivity.
       - discriminate. }
  cbn [rcvReady rcvClosed stats_Increment stack_Stats_Increment set_stats set_stack
       rcvBufSize rcvBufSizeMax].
  destruct (negb (rcvReady e) || rcvClosed e) eqn:Hq.
  { eexists. split; [reflexivity|]. split; [discriminate|].
    intros _ _. cbn. repeat split. }
  apply orb_false_iff in Hq as [Hready Hclosed]. apply negb_false_iff in Hready.
  destruct (rcvBufSize e >=? rcvBufSizeMax e).
  { eexists. split; [reflexivity|]. split; [discriminate|].
    intros _ [H|H]; congruence. }
  rewrite Hsp, Hdp. cbn [bind].
  unfold stack.PacketBuffer_Network.
  change (stack.NetworkProtocolNumber (stack.set_Data pkt (cappedData pkt)))
    with (stack.NetworkProtocolNumber pkt).
  rewrite Hp. cbn [bind].
  eexists. split; [reflexivity|]. split; [discriminate|].
  intros _ [H|H]; congruence.
Qed.

End Drops.

Lemma HandlePacket_turns_away_witness :
  exists e',
    HandlePacket testgroups.fresh examples.peerID (examples.datagram 3) = Ret e'
    /\ rcvList e' = []
    /\ stats e' ReceiveErrors_ClosedReceiver = 1.
Proof.
  assert (H8 : length (stack.TransportHeader (examples.datagram 3)) = 8%nat)
    by reflexivity.
  assert (Hv : passesValidation (examples.datagram 3) = true)
    by (vm_compute; reflexivity).
  assert (Hr : rcvReady testgroups.fresh = false) by (vm_compute; reflexivity).
  destruct (HandlePacket_turns_away testgroups.fresh examples.peerID
              (examples.datagram 3) H8 (or_introl eq_refl))
    as (e' & Hrun & _ & Hd).
  destruct (Hd Hv (or_introl Hr)) as (Hl & _ & _ & _ & Hc & _).
  exists e'. split; [exact Hrun|]. split.
  - rewrite Hl. vm_compute. reflexivity.
  - rewrite Hc. vm_compute. reflexivity.
Defined.

Lemma Address_eqb_refl (a : tcpip.Address) : tcpip.Address_eqb a a = true.
Proof. now apply Address_eqb_eq. Qed.

Lemma multicastMembership_eqb_eq (a b : multicastMembership) :
  multicastMembership_eqb a b = true <-> a = b.
Proof.
  unfold multicastMembership_eqb. rewrite andb_true_iff, Z.eqb_eq, Address_eqb_eq.
  destruct a, b; cbn. split; [intros [-> ->]; reflexivity|intros [= -> ->]; auto].
Qed.

Lemma multicastMembership_eqb_refl (a : multicastMembership) :
  multicastMembership_eqb a a = true.
Proof. now apply multicastMembership_eqb_eq. Qed.

Lemma filter_not_member (m : multicastMembership) (l : list multicastMembership) :
  existsb (multicastMembership_eqb m) l = false ->
  filter (fun x => negb (multicastMembership_eqb m x)) l = l.
Proof.
  induction l as [|x l IH]; cbn [existsb filter]; [reflexivity|].
  intros H. apply orb_false_iff in H as [Hx Hl].
  rewrite Hx. cbn [negb]. now rewrite IH.
Qed.

Section Options.

Context {Sigma : Type} {StackOps : stack.Ops Sigma} {StackGroupOps : GroupOps Sigma}.

Implicit Types (e : endpoint Sigma).

Lemma isMember_head e m l :
  isMember (set_multicastMemberships e (m :: l)) m = true.
Proof. unfold isMember. cbn. now rewrite multicastMembership_eqb_refl. Qed.

(** X18: the buffer-size options store the value clamped to the limits
    of the stack and [GetSockOptInt] reads it back: the value asked for
    when it lies within the limits, the nearer limit otherwise.  Nothing
    else changes; in particular shrinking the receive buffer discards no
    queued datagram. *)
Theorem buffer_size_options_are_clamped e v lo dflt hi :
  lo <= hi ->
  (stack.ReceiveBufferSizeOption (stack.net (stack_ e)) = Some (lo, dflt, hi) ->
   exists e',
     SetSockOptInt e tcpip.ReceiveBufferSizeOption v = Ret (None, e')
     /\ e' = set_rcvBufSizeMax e (Z.min hi (Z.max lo v))
     /\ GetSockOptInt e' tcpip.ReceiveBufferSizeOption
        = (Z.min hi (Z.max lo v), None)
     /\ lo <= Z.min hi (Z.max lo v) <= hi
     /\ (lo <= v <= hi -> Z.min hi (Z.max lo v) = v)
     /\ rcvList e' = rcvList e /\ rcvBufSize e' = rcvBufSize e)
  /\ (stack.SendBufferSizeOption (stack.net (stack_ e)) = Some (lo, dflt, hi) ->
      exists e',
        SetSockOptInt e tcpip.SendBufferSizeOption v = Ret (None, e')
        /\ e' = set_sndBufSizeMax e (Z.min hi (Z.max lo v))
        /\ GetSockOptInt e' tcpip.SendBufferSizeOption
           = (Z.min hi (Z.max lo v), None)
        /\ lo <= Z.min hi (Z.max lo v) <= hi
        /\ (lo <= v <= hi -> Z.min hi (Z.max lo v) = v)).
Proof.
  intros Hlh.
  assert (Hclamp : (if (if v <? lo then lo else v) >? hi then hi
                    else if v <? lo then lo else v)
                   = Z.min hi (Z.max lo v)).
  { rewrite Z.gtb_ltb.
    destruct (Z.ltb_spec v lo); destruct (Z.ltb_spec hi lo);
      try destruct (Z.ltb_spec hi v); lia. }
  split; intros Hopt; unfold SetSockOptInt; rewrite Hopt; cbv zeta;
    rewrite Hclamp; eexists; (split; [reflexivity|]);
    repeat split; try lia.
Qed.

(** X19: joining a multicast group through a given NIC, the interface
    address left as 0.0.0.0.  A join that succeeds records the membership,
    which was not there before; joining the same group again is refused
    with port-in-use and changes nothing; leaving it puts the memberships
    back as they were before the join; and leaving a group that was never
    joined is refused with bad-local-address and changes nothing. *)
Theorem membership_join_then_leave e nic ma e1 :
  nic <> 0 ->
  SetSockOpt e (AddMembershipOption nic header.IPv4Any ma) = (None, e1) ->
  let m := {| nicID := nic; multicastAddr_ := ma |} in
  isMember e m = false
  /\ multicastMemberships e1 = m :: multicastMemberships e
  /\ SetSockOpt e1 (AddMembershipOption nic header.IPv4Any ma)
     = (Some tcpip.ErrPortInUse, e1)
  /\ (forall e2,
        SetSockOpt e1 (RemoveMembershipOption nic header.IPv4Any ma) = (None, e2) ->
        multicastMemberships e2 = multicastMemberships e)
  /\ SetSockOpt e (RemoveMembershipOption nic header.IPv4Any ma)
     = (Some tcpip.ErrBadLocalAddress, e).
Proof.
  intros Hnic H m. subst m. apply Z.eqb_neq in Hnic.
  unfold SetSockOpt in H |- *. cbv zeta in H |- *.
  destruct (negb (header.IsV4MulticastAddress ma)
            && negb (header.IsV6MulticastAddress ma)) eqn:Hmc; [discriminate H|].
  pose proof (Address_eqb_refl header.IPv4Any) as Ha.
  rewrite Ha, orb_true_r in H. rewrite !Ha, orb_true_r.
  unfold membershipNIC in H |- *. rewrite ?Hnic in H. rewrite ?Hnic.
  cbv beta iota zeta in H |- *. rewrite ?Hnic in H. rewrite ?Hnic.
  destruct (isMember e {| nicID := nic; multicastAddr_ := ma |}) eqn:Hmem;
    [discriminate H|].
  destruct (JoinGroup _ _ _ _) as [[err|] n]; [discriminate H|].
  injection H as <-.
  split; [reflexivity|]. split; [reflexivity|].
  split; [|split].
  - rewrite isMember_head. reflexivity.
  - intros e2 H2. rewrite isMember_head in H2. cbn [negb] in H2.
    destruct (LeaveGroup _ _ _ _) as [[err|] n2]; [discriminate H2|].
    injection H2 as <-. cbn. rewrite multicastMembership_eqb_refl. cbn [negb].
    apply filter_not_member. exact Hmem.
  - reflexivity.
Qed.

(** X20: an empty interface address is read differently by the two
    membership options.  Joining treats it as not set, exactly like
    0.0.0.0; leaving does not, and asks the stack which NIC owns the empty
    address: when the stack knows none, leaving with an empty interface
    address fails with unknown-device whatever the endpoint has joined. *)
Theorem membership_empty_interface_address e nic ma :
  header.IsV4MulticastAddress ma || header.IsV6MulticastAddress ma = true ->
  stack.CheckLocalAddress (stack.net (stack_ e)) nic (NetProto e) [] = 0 ->
  SetSockOpt e (AddMembershipOption nic [] ma)
  = SetSockOpt e (AddMembershipOption nic header.IPv4Any ma)
  /\ SetSockOpt e (RemoveMembershipOption nic [] ma)
     = (Some tcpip.ErrUnknownDevice, e).
Proof.
  intros Hmc Hchk.
  assert (Hg : negb (header.IsV4MulticastAddress ma)
               && negb (header.IsV6MulticastAddress ma) = false).
  { rewrite <- negb_orb, Hmc. reflexivity. }
  split.
  - unfold SetSockOpt. rewrite Hg. reflexivity.
  - unfold SetSockOpt. rewrite Hg. cbv zeta.
    change (tcpip.Address_eqb [] header.IPv4Any) with false.
    unfold membershipNIC. rewrite Hchk. reflexivity.
Qed.

(** X21: the interface options.  A successful bind-to-device is read back
    by [GetSockOpt] and names no device or one the stack has.  A successful
    multicast-interface option is read back too: it either resets the
    interface (NIC 0 and no address), or names a NIC other than 0, which
    is the NIC asked for when one was given and, on an endpoint bound to a
    NIC, that very NIC. *)
Theorem interface_options_read_back e :
  (forall id e',
     SetSockOpt e (BindToDeviceOption id) = (None, e') ->
     GetSockOpt e' GetBindToDeviceOption = (GotBindToDevice id, None)
     /\ (id = 0 \/ stack.HasNIC (stack.net (stack_ e)) id = true))
  /\ (forall nic ia e',
        SetSockOpt e (MulticastInterfaceOption nic ia) = (None, e') ->
        exists n a,
          GetSockOpt e' GetMulticastInterfaceOption
          = (GotMulticastInterface n a, None)
          /\ ((n = 0 /\ a = [] /\ nic = 0)
              \/ (n <> 0 /\ (nic <> 0 -> n = nic)
                  /\ (BindNICID e <> 0 -> n = BindNICID e)))).
Proof.
  split.
  - intros id e' H. unfold SetSockOpt in H.
    destruct (Z.eqb_spec id 0) as [->|Hid]; cbn [negb andb] in H.
    + injection H as <-. split; [reflexivity|]. left. reflexivity.
    + destruct (stack.HasNIC _ id) eqn:Hn; cbn [negb] in H; [|discriminate H].
      injection H as <-. split; [reflexivity|]. right. reflexivity.
  - intros nic ia e' H. unfold SetSockOpt in H.
    destruct (checkV4MappedLocked e _) as [[fa netProto] [err|]]; [discriminate H|].
    cbv zeta in H.
    destruct (Z.eqb_spec nic 0) as [Hn|Hn]; cbn [negb andb] in H.
    + destruct (tcpip.Address_eqb (tcpip.Addr fa) []).
      * injection H as <-. do 2 eexists. split; [reflexivity|]. left. auto.
      * destruct (Z.eqb_spec (stack.CheckLocalAddress (stack.net (stack_ e)) 0
                                netProto (tcpip.Addr fa)) 0) as [|Hc];
          [discriminate H|].
        destruct (Z.eqb_spec (BindNICID e) 0) as [Hb|Hb]; cbn [negb andb] in H.
        -- injection H as <-. do 2 eexists. split; [reflexivity|]. right.
           cbn; repeat split; [exact Hc|intros; lia|intros; lia].
        -- destruct (Z.eqb_spec (BindNICID e)
                       (stack.CheckLocalAddress (stack.net (stack_ e)) 0 netProto
                          (tcpip.Addr fa))) as [He|He]; cbn [negb] in H;
             [|discriminate H].
           injection H as <-. do 2 eexists. split; [reflexivity|]. right.
           cbn; repeat split; [exact Hc|intros; lia|intros; lia].
    + destruct (stack.CheckNIC _ nic); cbn [negb] in H; [|discriminate H].
      destruct (Z.eqb_spec (BindNICID e) 0) as [Hb|Hb]; cbn [negb andb] in H.
      * injection H as <-. do 2 eexists. split; [reflexivity|]. right.
        cbn; repeat split; [exact Hn|intros; lia].
      * destruct (Z.eqb_spec (BindNICID e) nic) as [He|He]; cbn [negb] in H;
          [|discriminate H].
        injection H as <-. do 2 eexists. split; [reflexivity|]. right.
        cbn; repeat split; [exact Hn|intros; lia].
Qed.

End Options.

Lemma buffer_size_options_are_clamped_witness :
  exists e',
    SetSockOptInt examples.bound tcpip.ReceiveBufferSizeOption 9999999
    = Ret (None, e')
    /\ GetSockOptInt e' tcpip.ReceiveBufferSizeOption = (4194304, None).
Proof.
  assert (Hlh : 1 <= 4194304) by lia.
  pose proof (buffer_size_options_are_clamped examples.bound 9999999
                1 212992 4194304 Hlh) as (H & _).
  destruct (H eq_refl) as (e' & Hset & _ & Hget & _).
  exists e'. split; [exact Hset|exact Hget].
Defined.

Lemma membership_join_then_leave_witness :
  exists e1,
    SetSockOpt testgroups.fresh
      (AddMembershipOption 1 header.IPv4Any testgroups.group9) = (None, e1)
    /\ SetSockOpt e1 (AddMembershipOption 1 header.IPv4Any testgroups.group9)
       = (Some tcpip.ErrPortInUse, e1).
Proof.
  assert (H : exists e1,
             SetSockOpt testgroups.fresh
               (AddMembershipOption 1 header.IPv4Any testgroups.group9)
             = (None, e1)).
  { match goal with
    | |- exists e1, ?c = _ =>
        assert (Hf : fst c = None) by (vm_compute; reflexivity);
        destruct c as [x y]; cbn [fst] in Hf; subst x; exists y; reflexivity
    end. }
  destruct H as (e1 & H). exists e1. split; [exact H|].
  assert (Hn : 1 <> 0) by discriminate.
  pose proof (membership_join_then_leave testgroups.fresh 1 testgroups.group9
                e1 Hn H) as Ht.
  cbv zeta in Ht. destruct Ht as (_ & _ & Ht & _). exact Ht.
Defined.

Lemma membership_empty_interface_address_witness :
  let e1 :=
    snd (SetSockOpt testgroups.fresh
           (AddMembershipOption 1 [] testgroups.group9)) in
  isMember e1 {| nicID := 1; multicastAddr_ := testgroups.group9 |} = true
  /\ SetSockOpt e1 (RemoveMembershipOption 1 [] testgroups.group9)
     = (Some tcpip.ErrUnknownDevice, e1).
Proof.
  intros e1.
  assert (Hm : isMember e1 {| nicID := 1; multicastAddr_ := testgroups.group9 |}
               = true) by (vm_compute; reflexivity).
  assert (Hmc : header.IsV4MulticastAddress testgroups.group9
                || header.IsV6MulticastAddress testgroups.group9 = true)
    by (vm_compute; reflexivity).
  assert (Hc : stack.CheckLocalAddress (stack.net (stack_ e1)) 1 (NetProto e1) []
               = 0) by (vm_compute; reflexivity).
  split; [exact Hm|].
  exact (proj2 (membership_empty_interface_address e1 1 testgroups.group9 Hmc Hc)).
Defined.

Section IdentityInvariant.

Context {Sigma : Type} {StackOps : stack.Ops Sigma} {StackGroupOps : GroupOps Sigma}.

Implicit Types (e : endpoint Sigma).

Lemma sameIdentity_refl e : sameIdentity e e.
Proof. unfold sameIdentity. auto. Qed.

Lemma sameIdentity_trans e1 e2 e3 :
  sameIdentity e1 e2 -> sameIdentity e2 e3 -> sameIdentity e1 e3.
Proof. unfold sameIdentity. intros. split_hyps. repeat split; congruence. Qed.

Lemma sameIdentity_identityOK e e' :
  sameIdentity e e' -> identityOK e -> identityOK e'.
Proof.
  unfold sameIdentity, identityOK, ID, BindNICID, RegisterNICID.
  intros (H1 & H2 & H3 & H4). rewrite H1, H2, H3, H4. tauto.
Qed.

(** Closes a goal [sameIdentity e e'] where [e'] is [e] with other
    fields updated. *)
Ltac same_identity := unfold sameIdentity; cbn; repeat split.

(** Closes the conjuncts of [identityOK] from the facts at hand. *)
Ltac ident_finish :=
  repeat (split || intro); split_hyps;
  repeat match goal with
         | H : _ \/ _ |- _ => destruct H
         end;
  try solve [ assumption | discriminate | congruence | contradiction
            | constructor; assumption
            | intuition (congruence || discriminate) ].

Lemma sameIdentity_only_stack e e' s f :
  set_boundPortFlags (set_stack e' s) f = e -> sameIdentity e e'.
Proof. intros <-. same_identity. Qed.

Lemma sameIdentity_set_net e n : sameIdentity e (set_net e n).
Proof. same_identity. Qed.

(** A successful [bindLocked] gives the endpoint a local identity with
    no remote part and leaves the bound NIC alone. *)
Lemma bindLocked_ident e addr e1 :
  bindLocked e addr = (None, e1) ->
  state e = StateInitial /\ state e1 = StateBound
  /\ stack.RemotePort (ID e1) = 0 /\ stack.RemoteAddress (ID e1) = []
  /\ BindNICID e1 = BindNICID e /\ dstPort e1 = dstPort e
  /\ multicastMemberships e1 = multicastMemberships e.
Proof.
  unfold bindLocked, EndpointState_. intros H.
  destruct (state e) eqn:Hst; try discriminate H.
  destruct (checkV4MappedLocked e addr) as [[addr' netProto] [err|]];
    [discriminate H|].
  cbv zeta in H.
  match type of H with
  | context [if ?c then (Some tcpip.ErrBadLocalAddress, e) else _] => destruct c
  end; [discriminate H|].
  match type of H with
  | context [registerWithStack ?a ?b ?c ?d] =>
      pose proof (registerWithStack_only_stack a b c d) as Hfr;
      destruct (registerWithStack a b c d) as [[[id btd] rerr] e2] eqn:Hreg
  end.
  cbn [snd] in Hfr. destruct rerr; [discriminate H|].
  apply registerWithStack_frame in Hreg.
  destruct Hreg as (F1 & F2 & F3 & F4 & F5 & F6 & F7 & F8 & F9 & F10 & F11 & F12).
  cbn [stack.RemotePort stack.RemoteAddress] in F10, F11.
  injection H as <-. unfold ID, BindNICID. cbn.
  repeat split; try assumption.
  - rewrite F3. reflexivity.
  - exact (f_equal multicastMemberships Hfr).
Qed.

Lemma Bind_identityOK e addr : identityOK e -> identityOK (snd (Bind e addr)).
Proof.
  intros Hok. destruct (Bind e addr) as [[err|] e'] eqn:H; cbn [snd].
  - eapply sameIdentity_identityOK; [|exact Hok].
    eapply sameIdentity_only_stack.
    exact (failed_Connect_or_Bind_only_stack e addr err e' (or_intror H)).
  - pose proof (Bind_success_facts e addr e' H) as Hb. cbv zeta in Hb.
    destruct Hb as (_ & Hs & _ & _ & Hrp & Hra & _ & _ & Hnic & _ & _ & _ & _ & _
                    & _ & Hm & _).
    destruct Hok as (_ & _ & _ & _ & Hnd).
    unfold identityOK. rewrite Hs, Hm. ident_finish.
Qed.

Lemma Connect_identityOK e addr : identityOK e -> identityOK (snd (Connect e addr)).
Proof.
  intros Hok. destruct (Connect e addr) as [[err|] e'] eqn:H; cbn [snd].
  - eapply sameIdentity_identityOK; [|exact Hok].
    eapply sameIdentity_only_stack.
    exact (failed_Connect_or_Bind_only_stack e addr err e' (or_introl H)).
  - pose proof (Connect_success_facts e addr e' H)
      as (_ & _ & Hs & _ & Hd & _ & _ & Hk & Hb & _ & _ & Hm).
    destruct Hok as (_ & _ & H3 & _ & Hnd).
    assert (Hr : BindNICID e <> 0 -> RegisterNICID e' = BindNICID e).
    { intros Hbn.
      assert (Hni : state e <> StateInitial).
      { intros Hi. destruct (H3 Hi) as [_ Hz]. contradiction. }
      destruct (Hk Hni) as (_ & _ & Hr). exact (Hr Hbn). }
    clear Hk H3.
    unfold identityOK. rewrite Hs, Hm, Hb. ident_finish.
Qed.

(** What the common tail of [Disconnect] leaves behind. *)
Lemma Disconnect_finish_ret e id btd f err e' :
  Disconnect_finish e id btd f = Ret (err, e') ->
  state e' = state e /\ ID e' = id /\ BindNICID e' = BindNICID e
  /\ RegisterNICID e' = RegisterNICID e
  /\ multicastMemberships e' = multicastMemberships e
  /\ err = None /\ route e' = None /\ dstPort e' = 0.
Proof.
  unfold Disconnect_finish. intros H.
  match type of H with
  | context [match ?r with Some _ => _ | None => _ end] => destruct r
  end; [|discriminate H].
  injection H as <- <-. unfold ID, BindNICID, RegisterNICID. cbn. repeat split.
Qed.

Lemma identityOK_of e e' :
  state e' <> StateConnected ->
  (state e' = StateInitial \/ state e' = StateBound ->
   stack.RemotePort (ID e') = 0 /\ stack.RemoteAddress (ID e') = []) ->
  (state e' = StateInitial ->
   ID e' = stack.TransportEndpointID_zero /\ BindNICID e' = 0) ->
  BindNICID e' = BindNICID e -> RegisterNICID e' = RegisterNICID e ->
  multicastMemberships e' = multicastMemberships e ->
  identityOK e -> identityOK e'.
Proof.
  intros Hs H2 H3 Hb Hr Hm (_ & _ & _ & H4 & Hnd).
  unfold identityOK.
  split; [intros Hc; contradiction|]. split; [exact H2|]. split; [exact H3|].
  split; [rewrite Hb, Hr; exact H4|rewrite Hm; exact Hnd].
Qed.

Lemma Disconnect_identityOK e err e' :
  Disconnect e = Ret (err, e') -> identityOK e -> identityOK e'.
Proof.
  unfold Disconnect, EndpointState_. intros H Hok.
  destruct (state e) eqn:Hst; try (injection H as _ <-; exact Hok).
  destruct (negb (BindNICID e =? 0)
            || tcpip.Address_eqb (stack.LocalAddress (ID e)) []) eqn:Hg.
  - match type of H with
    | context [registerWithStack ?a ?b ?c ?d] =>
        pose proof (registerWithStack_only_stack a b c d) as Hfr;
        destruct (registerWithStack a b c d) as [[[id btd] rerr] e1] eqn:Hreg
    end.
    cbn [snd] in Hfr.
    destruct rerr.
    + injection H as _ <-. eapply sameIdentity_identityOK; [|exact Hok].
      eapply sameIdentity_only_stack. exact Hfr.
    + apply registerWithStack_frame in Hreg.
      destruct Hreg as (F1 & F2 & F3 & F4 & F5 & F6 & F7 & F8 & F9 & F10 & F11 & F12).
      cbn [stack.RemotePort stack.RemoteAddress] in F10, F11.
      pose proof (f_equal multicastMemberships Hfr) as HM.
      apply Disconnect_finish_ret in H.
      destruct H as (Hs' & Hid & Hb' & Hr' & Hm' & _).
      change (state (setEndpointState e1 StateBound)) with StateBound in Hs'.
      change (BindNICID (setEndpointState e1 StateBound)) with (BindNICID e1) in Hb'.
      change (RegisterNICID (setEndpointState e1 StateBound))
        with (RegisterNICID e1) in Hr'.
      change (multicastMemberships (setEndpointState e1 StateBound))
        with (multicastMemberships e1) in Hm'.
      change (multicastMemberships
                (set_boundPortFlags (set_stack e1 (stack_ e)) (boundPortFlags e)))
        with (multicastMemberships e1) in HM.
      apply (identityOK_of e e'); try assumption.
      * rewrite Hs'. discriminate.
      * intros _. rewrite Hid. split; assumption.
      * rewrite Hs'. discriminate.
      * rewrite Hb'. unfold BindNICID. rewrite F3. reflexivity.
      * rewrite Hr'. unfold RegisterNICID. rewrite F3. reflexivity.
      * congruence.
  - apply orb_false_iff in Hg as [Hb _]. apply negb_false_iff, Z.eqb_eq in Hb.
    apply Disconnect_finish_ret in H.
    destruct H as (Hs' & Hid & Hb' & Hr' & Hm' & _).
    assert (Hs2 : state e' = StateInitial).
    { rewrite Hs'. destruct (negb (stack.LocalPort (ID e) =? 0)); reflexivity. }
    assert (Hb2 : BindNICID e' = BindNICID e).
    { rewrite Hb'. destruct (negb (stack.LocalPort (ID e) =? 0)); reflexivity. }
    assert (Hr2 : RegisterNICID e' = RegisterNICID e).
    { rewrite Hr'. destruct (negb (stack.LocalPort (ID e) =? 0)); reflexivity. }
    assert (Hm2 : multicastMemberships e' = multicastMemberships e).
    { rewrite Hm'. destruct (negb (stack.LocalPort (ID e) =? 0)); reflexivity. }
    apply (identityOK_of e e'); try assumption.
    + rewrite Hs2. discriminate.
    + intros _. rewrite Hid. split; reflexivity.
    + intros _. rewrite Hid, Hb2. split; [reflexivity|exact Hb].
Qed.

Lemma Write_identityOK fuel e p opts w e' :
  Write fuel e p opts = Some (Ret (w, e')) -> identityOK e -> identityOK e'.
Proof.
  intros H Hok.
  destruct (Write_shape _ _ _ _ _ _ H) as (e1 & s & c & -> & Hcase).
  assert (H1 : identityOK e1).
  { destruct Hcase as [->|[Hi ->]].
    - eapply sameIdentity_identityOK; [|exact Hok]. same_identity.
    - assert (Hok0 : identityOK (set_lastError e None)).
      { eapply sameIdentity_identityOK; [|exact Hok]. same_identity. }
      destruct (bindLocked (set_lastError e None) tcpip.FullAddress_zero)
        as [[err|] e1] eqn:Hb; cbn [snd].
      + eapply sameIdentity_identityOK; [|exact Hok0].
        eapply sameIdentity_only_stack.
        apply (failed_Connect_or_Bind_only_stack _ tcpip.FullAddress_zero err e1).
        right. unfold Bind. rewrite Hb. reflexivity.
      + apply bindLocked_ident in Hb.
        destruct Hb as (_ & Hs & Hrp & Hra & Hbn & _ & Hm).
        destruct Hok0 as (_ & _ & H3 & _ & Hnd).
        destruct (H3 Hi) as [_ Hz].
        clear H3. unfold identityOK. rewrite Hs, Hm, Hbn. ident_finish. }
  eapply sameIdentity_identityOK; [|exact H1]. same_identity.
Qed.

Lemma membershipNIC_sameIdentity e unset nic ia ma :
  sameIdentity e (snd (membershipNIC e unset nic ia ma)).
Proof.
  unfold membershipNIC. repeat break_match; cbn [snd];
    try apply sameIdentity_refl; same_identity.
Qed.

Lemma not_member_not_in e m :
  isMember e m = false -> ~ In m (multicastMemberships e).
Proof.
  unfold isMember. intros H Hin.
  assert (Ht : existsb (multicastMembership_eqb m) (multicastMemberships e) = true).
  { apply existsb_exists. exists m. split; [exact Hin|].
    apply multicastMembership_eqb_refl. }
  congruence.
Qed.

Lemma SetSockOpt_identityOK e opt : identityOK e -> identityOK (snd (SetSockOpt e opt)).
Proof.
  intros Hok. unfold SetSockOpt. destruct opt; try exact Hok.
  - destruct (checkV4MappedLocked e _) as [[fa netProto] [err|]]; [exact Hok|].
    eapply sameIdentity_identityOK; [|exact Hok].
    repeat break_match; cbn [snd]; try apply sameIdentity_refl; same_identity.
  - break_match; [exact Hok|]. cbv zeta.
    match goal with
    | |- context [membershipNIC ?a ?b ?c ?d ?f] =>
        pose proof (membershipNIC_sameIdentity a b c d f) as Hk;
        destruct (membershipNIC a b c d f) as [nic1 e1]
    end.
    cbn [snd] in Hk. pose proof (sameIdentity_identityOK _ _ Hk Hok) as Hok1.
    break_match; [exact Hok1|].
    destruct (isMember e1 _) eqn:Hmem; [exact Hok1|].
    apply not_member_not_in in Hmem.
    destruct (JoinGroup _ _ _ _) as [[err|] n]; cbn [snd].
    + eapply sameIdentity_identityOK; [|exact Hok1]. same_identity.
    + destruct Hok1 as (H1 & H2 & H3 & H4 & Hnd).
      unfold identityOK. unfold ID, BindNICID, RegisterNICID in *. cbn.
      split; [exact H1|]. split; [exact H2|]. split; [exact H3|].
      split; [exact H4|]. constructor; assumption.
  - break_match; [exact Hok|]. cbv zeta.
    match goal with
    | |- context [membershipNIC ?a ?b ?c ?d ?f] =>
        pose proof (membershipNIC_sameIdentity a b c d f) as Hk;
        destruct (membershipNIC a b c d f) as [nic1 e1]
    end.
    cbn [snd] in Hk. pose proof (sameIdentity_identityOK _ _ Hk Hok) as Hok1.
    break_match; [exact Hok1|].
    destruct (negb (isMember e1 _)); [exact Hok1|].
    destruct (LeaveGroup _ _ _ _) as [[err|] n]; cbn [snd].
    + eapply sameIdentity_identityOK; [|exact Hok1]. same_identity.
    + destruct Hok1 as (H1 & H2 & H3 & H4 & Hnd).
      unfold identityOK. unfold ID, BindNICID, RegisterNICID in *. cbn.
      split; [exact H1|]. split; [exact H2|]. split; [exact H3|].
      split; [exact H4|]. apply NoDup_filter. assumption.
  - eapply sameIdentity_identityOK; [|exact Hok].
    break_match; cbn [snd]; try apply sameIdentity_refl; same_identity.
Qed.

Lemma Close_identityOK order e : identityOK e -> identityOK (Close order e).
Proof.
  intros (_ & _ & _ & H4 & _).
  destruct (Close_core order e) as (Hs & _ & _ & _ & _ & Hm & _).
  assert (HT : TransportEndpointInfo_ (Close order e) = TransportEndpointInfo_ e).
  { unfold Close. cbv zeta.
    match goal with
    | |- context [fold_left ?f order ?a] =>
        destruct (leave_groups_set_net order a) as [n Hn]; rewrite Hn
    end.
    unfold EndpointState_. cbn. destruct (state e); cbn;
      destruct (route e) eqn:Hr; cbn; rewrite ?Hr; reflexivity. }
  unfold identityOK, ID, BindNICID, RegisterNICID in *. rewrite Hs, Hm, HT.
  split; [discriminate|]. split; [intros [Hx|Hx]; discriminate Hx|].
  split; [discriminate|]. split; [exact H4|constructor].
Qed.

Lemma step_identityOK e e' : step e e' -> identityOK e -> identityOK e'.
Proof.
  intros Hstep Hok. destruct Hstep.
  - now apply Bind_identityOK.
  - now apply Connect_identityOK.
  - eapply Disconnect_identityOK; eassumption.
  - eapply sameIdentity_identityOK; [|exact Hok].
    unfold Shutdown, EndpointState_.
    repeat break_match; cbn [snd]; try apply sameIdentity_refl; same_identity.
  - now apply Close_identityOK.
  - eapply sameIdentity_identityOK; [|exact Hok].
    destruct (Read_frame e addr) as (q & b & st & ->). same_identity.
  - eapply Write_identityOK; eassumption.
  - eapply sameIdentity_identityOK; [|exact Hok].
    match goal with
    | H : SetSockOptInt _ _ _ = _ |- _ =>
        unfold SetSockOptInt in H; destruct opt;
        repeat (break_match_in H; try discriminate H);
        injection H as <- <-; try apply sameIdentity_refl; same_identity
    end.
  - now apply SetSockOpt_identityOK.
  - eapply sameIdentity_identityOK; [|exact Hok]. same_identity.
  - eapply sameIdentity_identityOK; [|exact Hok]. same_identity.
  - eapply sameIdentity_identityOK; [|exact Hok]. same_identity.
  - eapply sameIdentity_identityOK; [|exact Hok].
    match goal with
    | H : HandlePacket _ _ _ = _ |- _ =>
        destruct (HandlePacket_frame _ _ _ _ H) as (q & b & st & ss & wq & -> & _)
    end.
    same_identity.
  - eapply sameIdentity_identityOK; [|exact Hok].
    unfold HandleControlPacket, EndpointState_.
    destruct typ, (state e); try apply sameIdentity_refl; same_identity.
  - eapply sameIdentity_identityOK; [|exact Hok]. same_identity.
  - eapply sameIdentity_identityOK; [|exact Hok]. same_identity.
Qed.

Lemma reachable_identityOK_aux e : reachable e -> identityOK e.
Proof.
  induction 1 as [s netProto wq|e e' _ IH Hstep].
  - unfold newEndpoint. destruct (UniqueID (stack.net s)) as [uid n].
    unfold identityOK, ID, BindNICID, RegisterNICID. cbn.
    repeat split; try discriminate. constructor.
  - exact (step_identityOK e e' Hstep IH).
Qed.

(** X22: the identity of every endpoint a run from [newEndpoint] can
    reach is consistent.  A CONNECTED endpoint sends to the remote port of
    its identity; an INITIAL or BOUND endpoint has no remote port and no
    remote address; an INITIAL endpoint has an empty identity and is bound
    to no NIC; an endpoint bound to a NIC is registered on that NIC; and
    no multicast membership is held twice. *)
Theorem reachable_endpoints_have_consistent_identity e :
  reachable e ->
  (state e = StateConnected -> dstPort e = stack.RemotePort (ID e))
  /\ (state e = StateInitial \/ state e = StateBound ->
      stack.RemotePort (ID e) = 0 /\ stack.RemoteAddress (ID e) = [])
  /\ (state e = StateInitial ->
      ID e = stack.TransportEndpointID_zero /\ BindNICID e = 0)
  /\ (BindNICID e <> 0 -> RegisterNICID e = BindNICID e)
  /\ NoDup (multicastMemberships e).
Proof. exact (reachable_identityOK_aux e). Qed.

End IdentityInvariant.

Lemma reachable_endpoints_have_consistent_identity_witness :
  let e :=
    snd (Connect
           (snd (Bind testgroups.fresh
                   {| tcpip.NIC := 0; tcpip.Addr := []; tcpip.Port := 5000 |}))
           teststack.peerV4) in
  state e = StateConnected /\ dstPort e = stack.RemotePort (ID e).
Proof.
  intros e.
  assert (Hr : reachable e).
  { eapply reachable_step; [|apply step_Connect].
    eapply reachable_step; [|apply step_Bind].
    apply reachable_new. }
  assert (Hs : state e = StateConnected) by (vm_compute; reflexivity).
  split; [exact Hs|].
  exact (proj1 (reachable_endpoints_have_consistent_identity e Hr) Hs).
Defined.

Section RoundTrips.

Context {Sigma : Type} {StackOps : stack.Ops Sigma} {StackGroupOps : GroupOps Sigma}.

Implicit Types (e : endpoint Sigma).

(** A successful [Disconnect] of a CONNECTED endpoint, by the guard that
    tells a bind made before the connect from an ephemeral one. *)
Lemma Disconnect_success_cases e e' :
  state e = StateConnected -> Disconnect e = Ret (None, e') ->
  route e' = None /\ dstPort e' = 0 /\ BindNICID e' = BindNICID e
  /\ (BindNICID e <> 0 \/ stack.LocalAddress (ID e) = [] ->
      state e' = StateBound
      /\ stack.LocalAddress (ID e') = stack.LocalAddress (ID e)
      /\ stack.RemotePort (ID e') = 0 /\ stack.RemoteAddress (ID e') = []
      /\ (stack.LocalPort (ID e) <> 0 ->
          stack.LocalPort (ID e') = stack.LocalPort (ID e)))
  /\ (BindNICID e = 0 -> stack.LocalAddress (ID e) <> [] ->
      state e' = StateInitial /\ ID e' = stack.TransportEndpointID_zero).
Proof.
  intros Hst H. unfold Disconnect, EndpointState_ in H. rewrite Hst in H.
  destruct (negb (BindNICID e =? 0)
            || tcpip.Address_eqb (stack.LocalAddress (ID e)) []) eqn:Hg.
  - match type of H with
    | context [registerWithStack ?a ?b ?c ?d] =>
        destruct (registerWithStack a b c d) as [[[id btd] rerr] e1] eqn:Hreg
    end.
    destruct rerr; [discriminate H|].
    apply registerWithStack_frame in Hreg.
    destruct Hreg as (F1 & F2 & F3 & F4 & F5 & F6 & F7 & F8 & F9 & F10 & F11 & F12).
    cbn [stack.LocalAddress stack.LocalPort stack.RemotePort stack.RemoteAddress]
      in F9, F10, F11.
    apply Disconnect_finish_ret in H.
    destruct H as (Hs' & Hid & Hb' & _ & _ & _ & Hro & Hdp).
    change (state (setEndpointState e1 StateBound)) with StateBound in Hs'.
    change (BindNICID (setEndpointState e1 StateBound)) with (BindNICID e1) in Hb'.
    assert (Hb1 : BindNICID e1 = BindNICID e)
      by (unfold BindNICID; rewrite F3; reflexivity).
    split; [exact Hro|]. split; [exact Hdp|]. split; [congruence|].
    split.
    + intros _. rewrite Hid. split; [exact Hs'|].
      split; [exact F9|]. split; [exact F10|]. split; [exact F11|].
      intros Hp. rewrite (F12 Hp). reflexivity.
    + intros Hb0 Hla. apply Disconnect_guard in Hg. destruct Hg; contradiction.
  - assert (Hg' : ~ (BindNICID e <> 0 \/ stack.LocalAddress (ID e) = [])).
    { intros Hx. apply Disconnect_guard in Hx. congruence. }
    apply Disconnect_finish_ret in H.
    destruct H as (Hs' & Hid & Hb' & _ & _ & _ & Hro & Hdp).
    split; [exact Hro|]. split; [exact Hdp|].
    split.
    { rewrite Hb'. destruct (negb (stack.LocalPort (ID e) =? 0)); reflexivity. }
    split; [intros Hx; contradiction|].
    intros _ _. split; [|exact Hid].
    rewrite Hs'. destruct (negb (stack.LocalPort (ID e) =? 0)); reflexivity.
Qed.


End RoundTrips.


Section ShutdownAndClose.

Context {Sigma : Type} {StackOps : stack.Ops Sigma} {StackGroupOps : GroupOps Sigma}.

Implicit Types (e : endpoint Sigma).

(** X24: shutting down the write side of a BOUND or CONNECTED endpoint
    closes it for sending and for nothing else: the call succeeds and
    notifies nobody, the shutdown flags only grow, a later [Write] (no
    error latched, no More option) is refused with closed-for-send, and
    [Read] returns what it returned before. *)
Theorem Shutdown_write_closes_send_side e :
  state e = StateBound \/ state e = StateConnected ->
  let e1 := snd (Shutdown e tcpip.ShutdownWrite) in
  Shutdown e tcpip.ShutdownWrite
  = (None, set_shutdownFlags e (Z.lor (shutdownFlags e) tcpip.ShutdownWrite))
  /\ Z.land (shutdownFlags e1) tcpip.ShutdownWrite <> 0
  /\ Z.land (shutdownFlags e1) tcpip.ShutdownRead
     = Z.land (shutdownFlags e) tcpip.ShutdownRead
  /\ (forall fuel p opts, lastError e = None -> tcpip.More opts = false ->
      Write fuel e1 p opts
      = Some (Ret (wr_fail tcpip.ErrClosedForSend,
                   stats_Increment e1 WriteErrors_WriteClosed)))
  /\ (forall addr, fst (Read e1 addr) = fst (Read e addr)).
Proof.
  intros Hst e1.
  assert (Hdisj : Z.land tcpip.ShutdownWrite tcpip.ShutdownRead = 0)
    by reflexivity.
  assert (H : Shutdown e tcpip.ShutdownWrite
              = (None, set_shutdownFlags e
                         (Z.lor (shutdownFlags e) tcpip.ShutdownWrite))).
  { unfold Shutdown, EndpointState_. rewrite Hdisj. cbn [Z.eqb negb].
    destruct Hst as [-> | ->]; reflexivity. }
  subst e1. rewrite H. cbn [snd].
  assert (Hw : Z.land (Z.lor (shutdownFlags e) tcpip.ShutdownWrite)
                 tcpip.ShutdownWrite <> 0).
  { rewrite Z.land_lor_distr_l.
    change (Z.land tcpip.ShutdownWrite tcpip.ShutdownWrite) with 2.
    intros Hz. apply Z.lor_eq_0_iff in Hz. destruct Hz as [_ Hz]. discriminate Hz. }
  split; [reflexivity|]. split; [exact Hw|].
  split.
  { cbn [shutdownFlags set_shutdownFlags]. rewrite Z.land_lor_distr_l, Hdisj.
    apply Z.lor_0_r. }
  split.
  - intros fuel p opts Hle Hmore. unfold Write, write, LastError.
    cbn [lastError set_shutdownFlags]. rewrite Hle, Hmore.
    cbn [shutdownFlags set_shutdownFlags set_lastError].
    apply Z.eqb_neq in Hw. rewrite Hw. cbn [negb].
    rewrite <- (set_lastError_None_id e Hle) at 3. reflexivity.
  - intros addr. unfold Read, LastError. cbn [lastError set_shutdownFlags].
    destruct (lastError e); [reflexivity|].
    cbn [rcvList set_shutdownFlags set_lastError].
    destruct (rcvList e); [|reflexivity].
    cbn [rcvClosed set_shutdownFlags set_lastError].
    destruct (rcvClosed e); reflexivity.
Qed.

(** X25: what [Close] gives back to the stack on a reachable endpoint
    that has joined no group.  An INITIAL or CLOSED endpoint holds nothing
    and the stack is not called; a BOUND endpoint has its registration
    removed and its port released; a CONNECTED endpoint in addition has
    its route released. *)
Theorem Close_gives_back e :
  reachable e -> multicastMemberships e = [] ->
  let unbound :=
    stack.ReleasePort
      (stack.UnregisterTransportEndpoint (stack.net (stack_ e))
         (RegisterNICID e) (effectiveNetProtos e) ProtocolNumber (ID e)
         (uniqueID e) (boundPortFlags e) (boundBindToDevice e))
      (effectiveNetProtos e) ProtocolNumber (stack.LocalAddress (ID e))
      (stack.LocalPort (ID e)) (boundPortFlags e) (boundBindToDevice e)
      tcpip.FullAddress_zero in
  match state e with
  | StateInitial | StateClosed => stack_ (Close [] e) = stack_ e
  | StateBound => stack.net (stack_ (Close [] e)) = unbound
  | StateConnected =>
      exists r, route e = Some r
                /\ stack.net (stack_ (Close [] e)) = stack.Route_Release unbound r
  end.
Proof.
  intros Hr Hm unbound. apply reachable_wellFormed_aux in Hr.
  destruct Hr as ([Hro1 Hro2] & _ & _).
  unfold Close, EndpointState_. cbn [fold_left]. subst unbound. cbn.
  destruct (state e) eqn:Hst; cbn;
    destruct (route e) as [r|] eqn:Hr; cbn; rewrite ?Hr; cbn;
    try reflexivity;
    try (assert (Hx : Some r <> None) by discriminate;
         specialize (Hro1 Hx); discriminate Hro1).
  - exists r. split; reflexivity.
  - specialize (Hro2 eq_refl). congruence.
Qed.

End ShutdownAndClose.

Lemma Shutdown_write_closes_send_side_witness :
  Write 1 (snd (Shutdown teststack.connected tcpip.ShutdownWrite))
    examples.payload3 examples.noOpts
  = Some (Ret (wr_fail tcpip.ErrClosedForSend,
               stats_Increment
                 (snd (Shutdown teststack.connected tcpip.ShutdownWrite))
                 WriteErrors_WriteClosed)).
Proof.
  assert (Hs : state teststack.connected = StateConnected)
    by (vm_compute; reflexivity).
  assert (Hle : lastError teststack.connected = None) by (vm_compute; reflexivity).
  pose proof (Shutdown_write_closes_send_side teststack.connected
                (or_intror Hs)) as H.
  cbv zeta in H. destruct H as (_ & _ & _ & Hw & _).
  apply Hw; [exact Hle|reflexivity].
Defined.

Lemma Close_gives_back_witness :
  teststack.reserved (stack.net (stack_ (Close [] examples.bound))) = []
  /\ teststack.registered (stack.net (stack_ (Close [] examples.bound))) = [].
Proof.
  assert (Hr : reachable examples.bound).
  { eapply reachable_step; [|apply step_Bind].
    exact (reachable_new testgroups.stack0 header.IPv4ProtocolNumber []). }
  assert (Hm : multicastMemberships examples.bound = [])
    by (vm_compute; reflexivity).
  assert (Hs : state examples.bound = StateBound) by (vm_compute; reflexivity).
  pose proof (Close_gives_back examples.bound Hr Hm) as H.
  cbv zeta in H. rewrite Hs in H. rewrite H.
  split; vm_compute; reflexivity.
Defined.

Section LatchedError.

Context {Sigma : Type} {StackOps : stack.Ops Sigma} {StackGroupOps : GroupOps Sigma}.

Implicit Types (e : endpoint Sigma).

Lemma only_stack_lastError e e' s f :
  set_boundPortFlags (set_stack e' s) f = e -> lastError e' = lastError e.
Proof. intros <-. reflexivity. Qed.

Lemma bindLocked_lastError e addr :
  lastError (snd (bindLocked e addr)) = lastError e.
Proof.
  unfold bindLocked, EndpointState_.
  destruct (state e); try reflexivity.
  destruct (checkV4MappedLocked e addr) as [[addr' netProto] [err|]];
    [reflexivity|].
  cbv zeta.
  match goal with
  | |- context [if ?c then (Some tcpip.ErrBadLocalAddress, e) else _] => destruct c
  end; [reflexivity|].
  match goal with
  | |- context [registerWithStack ?a ?b ?c ?d] =>
      pose proof (registerWithStack_only_stack a b c d) as Hfr;
      destruct (registerWithStack a b c d) as [[[id btd] rerr] e2]
  end.
  cbn [snd] in Hfr. apply only_stack_lastError in Hfr.
  destruct rerr; cbn [snd]; exact Hfr.
Qed.

Lemma Bind_lastError e addr : lastError (snd (Bind e addr)) = lastError e.
Proof.
  unfold Bind. pose proof (bindLocked_lastError e addr) as H.
  destruct (bindLocked e addr) as [[err|] e1]; cbn [snd] in *; exact H.
Qed.

Lemma Connect_lastError e addr : lastError (snd (Connect e addr)) = lastError e.
Proof.
  destruct (Connect e addr) as [[err|] e'] eqn:H; cbn [snd].
  - eapply only_stack_lastError.
    exact (failed_Connect_or_Bind_only_stack e addr err e' (or_introl H)).
  - pose proof (Connect_success_facts e addr e' H) as Hc.
    destruct Hc as (_ & _ & _ & _ & _ & _ & _ & _ & _ & _ & He & _). exact He.
Qed.

Lemma Disconnect_finish_lastError e id btd f err e' :
  Disconnect_finish e id btd f = Ret (err, e') -> lastError e' = lastError e.
Proof.
  unfold Disconnect_finish. intros H.
  match type of H with
  | context [match ?r with Some _ => _ | None => _ end] => destruct r
  end; [|discriminate H].
  injection H as _ <-. reflexivity.
Qed.

Lemma Disconnect_lastError e err e' :
  Disconnect e = Ret (err, e') -> lastError e' = lastError e.
Proof.
  unfold Disconnect, EndpointState_. intros H.
  destruct (state e); try (injection H as _ <-; reflexivity).
  destruct (negb (BindNICID e =? 0)
            || tcpip.Address_eqb (stack.LocalAddress (ID e)) []).
  - match type of H with
    | context [registerWithStack ?a ?b ?c ?d] =>
        pose proof (registerWithStack_only_stack a b c d) as Hfr;
        destruct (registerWithStack a b c d) as [[[id btd] rerr] e1]
    end.
    cbn [snd] in Hfr. apply only_stack_lastError in Hfr.
    destruct rerr.
    + injection H as _ <-. exact Hfr.
    + apply Disconnect_finish_lastError in H. rewrite H. exact Hfr.
  - apply Disconnect_finish_lastError in H. rewrite H.
    destruct (negb (stack.LocalPort (ID e) =? 0)); reflexivity.
Qed.

Lemma Close_lastError order e : lastError (Close order e) = lastError e.
Proof.
  unfold Close. cbv zeta.
  match goal with
  | |- context [fold_left ?f order ?a] =>
      destruct (leave_groups_set_net order a) as [n Hn]; rewrite Hn
  end.
  unfold EndpointState_. cbn. destruct (state e); cbn;
    destruct (route e) eqn:Hr; cbn; rewrite ?Hr; reflexivity.
Qed.

Lemma membershipNIC_lastError e unset nic ia ma :
  lastError (snd (membershipNIC e unset nic ia ma)) = lastError e.
Proof. unfold membershipNIC. repeat break_match; reflexivity. Qed.

Lemma SetSockOpt_lastError e opt : lastError (snd (SetSockOpt e opt)) = lastError e.
Proof.
  unfold SetSockOpt. destruct opt; try reflexivity.
  - destruct (checkV4MappedLocked e _) as [[fa netProto] [err|]]; [reflexivity|].
    repeat break_match; reflexivity.
  - break_match; [reflexivity|]. cbv zeta.
    match goal with
    | |- context [membershipNIC ?a ?b ?c ?d ?f] =>
        pose proof (membershipNIC_lastError a b c d f) as Hk;
        destruct (membershipNIC a b c d f) as [nic1 e1]
    end.
    cbn [snd] in Hk. repeat break_match; cbn [snd]; exact Hk.
  - break_match; [reflexivity|]. cbv zeta.
    match goal with
    | |- context [membershipNIC ?a ?b ?c ?d ?f] =>
        pose proof (membershipNIC_lastError a b c d f) as Hk;
        destruct (membershipNIC a b c d f) as [nic1 e1]
    end.
    cbn [snd] in Hk. repeat break_match; cbn [snd]; exact Hk.
  - break_match; reflexivity.
Qed.

(** One step either leaves the latched error alone, clears it, or, on a
    CONNECTED endpoint, latches connection-refused. *)
Lemma step_lastError e e' :
  step e e' ->
  lastError e' = lastError e \/ lastError e' = None
  \/ (state e = StateConnected
      /\ lastError e' = Some tcpip.ErrConnectionRefused).
Proof.
  intros Hstep. destruct Hstep.
  - left. apply Bind_lastError.
  - left. apply Connect_lastError.
  - left. eapply Disconnect_lastError. eassumption.
  - left. unfold Shutdown, EndpointState_. repeat break_match; reflexivity.
  - left. apply Close_lastError.
  - right. left. destruct (Read_frame e addr) as (q & b & st & ->). reflexivity.
  - right. left.
    match goal with
    | H : Write _ _ _ _ = _ |- _ =>
        destruct (Write_shape _ _ _ _ _ _ H) as (e1 & s & c & -> & [->|[_ ->]])
    end.
    + reflexivity.
    + change (lastError (stats_Increment (set_stack ?x s) c)) with (lastError x).
      rewrite bindLocked_lastError. reflexivity.
  - left.
    match goal with
    | H : SetSockOptInt _ _ _ = _ |- _ =>
        unfold SetSockOptInt in H; destruct opt;
        repeat (break_match_in H; try discriminate H);
        injection H as <- <-; reflexivity
    end.
  - left. apply SetSockOpt_lastError.
  - left. reflexivity.
  - left. reflexivity.
  - left. reflexivity.
  - left.
    match goal with
    | H : HandlePacket _ _ _ = _ |- _ =>
        destruct (HandlePacket_cases _ _ _ _ H) as (_ & _ & _ & _ & _ & He & _)
    end.
    exact He.
  - unfold HandleControlPacket, EndpointState_.
    destruct typ; auto. destruct (state e) eqn:Hst; auto.
  - left. reflexivity.
  - left. reflexivity.
Qed.

Lemma reachable_lastError_aux e :
  reachable e ->
  lastError e = None \/ lastError e = Some tcpip.ErrConnectionRefused.
Proof.
  induction 1 as [s netProto wq|e e' _ IH Hstep].
  - left. unfold newEndpoint. destruct (UniqueID (stack.net s)). reflexivity.
  - destruct (step_lastError e e' Hstep) as [H|[H|[_ H]]]; rewrite H; auto.
Qed.

(** X27: the latched error of a reachable endpoint, operation by
    operation.  The slot is empty or holds connection-refused.
    [HandleControlPacket] latches connection-refused when the packet is a
    port-unreachable and the endpoint is CONNECTED, and otherwise returns
    the endpoint as it was.  [LastError] returns the slot and empties it;
    [Read] and every returning [Write] leave it empty.  [Bind], [Connect],
    [Disconnect], [Shutdown], [Close], [SetSockOptInt], [SetSockOpt], the
    two reuse handlers, [SetOwner] and [HandlePacket] leave the slot as it
    was. *)
Theorem only_connection_refused_is_latched e :
  reachable e ->
  (lastError e = None \/ lastError e = Some tcpip.ErrConnectionRefused)
  /\ (forall id typ extra pkt,
      (typ = stack.ControlPortUnreachable -> state e = StateConnected ->
       lastError (HandleControlPacket e id typ extra pkt)
       = Some tcpip.ErrConnectionRefused)
      /\ (typ <> stack.ControlPortUnreachable \/ state e <> StateConnected ->
          HandleControlPacket e id typ extra pkt = e))
  /\ (fst (LastError e) = lastError e /\ lastError (snd (LastError e)) = None)
  /\ (forall addr, lastError (snd (Read e addr)) = None)
  /\ (forall fuel p opts w e',
      Write fuel e p opts = Some (Ret (w, e')) -> lastError e' = None)
  /\ (forall addr, lastError (snd (Bind e addr)) = lastError e)
  /\ (forall addr, lastError (snd (Connect e addr)) = lastError e)
  /\ (forall err e', Disconnect e = Ret (err, e') -> lastError e' = lastError e)
  /\ (forall flags, lastError (snd (Shutdown e flags)) = lastError e)
  /\ (forall order, lastError (Close order e) = lastError e)
  /\ (forall opt v err e',
      SetSockOptInt e opt v = Ret (err, e') -> lastError e' = lastError e)
  /\ (forall opt, lastError (snd (SetSockOpt e opt)) = lastError e)
  /\ (forall v, lastError (OnReuseAddressSet e v) = lastError e)
  /\ (forall v, lastError (OnReusePortSet e v) = lastError e)
  /\ (forall o, lastError (SetOwner e o) = lastError e)
  /\ (forall id pkt e',
      HandlePacket e id pkt = Ret e' -> lastError e' = lastError e).
Proof.
  intros H. split; [exact (reachable_lastError_aux e H)|].
  split.
  { intros id typ extra pkt. unfold HandleControlPacket, EndpointState_. split.
    - intros -> ->. reflexivity.
    - intros [Ht|Hs].
      + destruct typ; try reflexivity. contradiction Ht. reflexivity.
      + destruct typ; try reflexivity.
        destruct (state e); try reflexivity. contradiction Hs. reflexivity. }
  split; [split; reflexivity|].
  split.
  { intros addr. destruct (Read_frame e addr) as (q & b & st & ->). reflexivity. }
  split.
  { intros fuel p opts w e' Hw.
    destruct (Write_shape _ _ _ _ _ _ Hw) as (e1 & s & c & -> & [->|[_ ->]]).
    - reflexivity.
    - change (lastError (stats_Increment (set_stack ?x s) c)) with (lastError x).
      rewrite bindLocked_lastError. reflexivity. }
  split; [intros addr; apply Bind_lastError|].
  split; [intros addr; apply Connect_lastError|].
  split; [intros err e' Hd; eapply Disconnect_lastError; eassumption|].
  split.
  { intros flags. unfold Shutdown, EndpointState_.
    repeat break_match; reflexivity. }
  split; [intros order; apply Close_lastError|].
  split.
  { intros opt v err e' Hs. unfold SetSockOptInt in Hs. destruct opt;
      repeat (break_match_in Hs; try discriminate Hs);
      injection Hs as <- <-; reflexivity. }
  split; [intros opt; apply SetSockOpt_lastError|].
  split; [intros v; reflexivity|].
  split; [intros v; reflexivity|].
  split; [intros o; reflexivity|].
  intros id pkt e' Hh.
  destruct (HandlePacket_cases _ _ _ _ Hh) as (_ & _ & _ & _ & _ & He & _).
  exact He.
Qed.

(** X28: [Readiness] and [Read] agree on a reachable endpoint: [Read]
    would block exactly when [Readiness], asked for the readable event,
    reports neither readable nor error. *)
Theorem Read_blocks_iff_not_ready e addr :
  reachable e ->
  rd_err (fst (Read e addr)) = Some tcpip.ErrWouldBlock
  <-> (hasEvent (Readiness e waiter.EventIn) waiter.EventIn = false
       /\ hasEvent (Readiness e waiter.EventIn) waiter.EventErr = false).
Proof.
  intros Hr. apply reachable_lastError_aux in Hr.
  rewrite hasEvent_In, hasEvent_Err, !Readiness_testbit by lia.
  cbn [Z.eqb Pos.eqb andb orb]. unfold hasError, readable.
  change (Z.testbit waiter.EventIn 0) with true.
  change (Z.testbit waiter.EventIn 2) with false.
  cbn [andb orb].
  destruct (lastError e) as [err|] eqn:Hle.
  - destruct Hr as [Hr|Hr]; [discriminate Hr|]. injection Hr as ->.
    unfold Read, LastError. rewrite Hle. cbn [fst rd_err].
    split; [discriminate|intros [_ H]; discriminate H].
  - rewrite (proj1 (Read_readOutcome e addr Hle)). unfold readOutcome.
    rewrite !orb_false_r.
    destruct (rcvList e) as [|p q]; cbn [length Nat.eqb negb orb].
    + destruct (rcvClosed e).
      * split; [discriminate|intros [H _]; discriminate H].
      * split; auto.
    + split; [discriminate|intros [H _]; discriminate H].
Qed.

(** X29: [GetLocalAddress] always returns on a reachable endpoint and
    reports the NIC the endpoint is registered on and the local port of its
    identity, with the local address of the route when the endpoint is
    CONNECTED and the local address of its identity otherwise. *)
Theorem GetLocalAddress_returns e :
  reachable e ->
  exists a,
    GetLocalAddress e = Ret (a, None)
    /\ tcpip.NIC a = RegisterNICID e
    /\ tcpip.Port a = stack.LocalPort (ID e)
    /\ (state e <> StateConnected -> tcpip.Addr a = stack.LocalAddress (ID e))
    /\ (state e = StateConnected ->
        exists r, route e = Some r /\ tcpip.Addr a = stack.Route_LocalAddress r).
Proof.
  intros Hr. apply reachable_wellFormed_aux in Hr.
  destruct Hr as ([_ Hro] & _). unfold GetLocalAddress, EndpointState_.
  destruct (state e) eqn:Hst.
  - eexists. split; [reflexivity|]. cbn. repeat split; congruence.
  - eexists. split; [reflexivity|]. cbn. repeat split; congruence.
  - destruct (route e) as [r|] eqn:Hr; [|specialize (Hro eq_refl); congruence].
    eexists. split; [reflexivity|]. cbn. repeat split; try congruence.
    intros _. exists r. split; reflexivity.
  - eexists. split; [reflexivity|]. cbn. repeat split; congruence.
Qed.

(** X30: the two reuse handlers each overwrite one bit of the port flags
    and nothing else, so they commute, and the flags they leave are the
    flags a later [Bind] reserves and registers the port with. *)
Theorem reuse_handlers_set_port_flags e a p :
  portFlags (OnReusePortSet (OnReuseAddressSet e a) p)
  = {| ports.MostRecent := a; ports.LoadBalanced := p;
       ports.TupleOnly := ports.TupleOnly (portFlags e) |}
  /\ OnReusePortSet (OnReuseAddressSet e a) p
     = OnReuseAddressSet (OnReusePortSet e p) a
  /\ OnReusePortSet (OnReuseAddressSet e a) p
     = set_portFlags e (portFlags (OnReusePortSet (OnReuseAddressSet e a) p))
  /\ (forall addr e',
        Bind (OnReusePortSet (OnReuseAddressSet e a) p) addr = (None, e') ->
        boundPortFlags e'
        = {| ports.MostRecent := a; ports.LoadBalanced := p;
             ports.TupleOnly := ports.TupleOnly (portFlags e) |}).
Proof.
  split; [reflexivity|]. split; [destruct e; reflexivity|].
  split; [destruct e; reflexivity|].
  intros addr e' H. pose proof (Bind_success_facts _ _ _ H) as Hb.
  cbv zeta in Hb.
  destruct Hb as (_ & _ & _ & _ & _ & _ & _ & _ & _ & _ & _ & _ & Hf & _).
  exact Hf.
Qed.

End LatchedError.

Lemma only_connection_refused_is_latched_witness :
  lastError (HandleControlPacket teststack.connected examples.peerID
               stack.ControlPortUnreachable 0 (examples.datagram 0))
  = Some tcpip.ErrConnectionRefused
  /\ HandleControlPacket teststack.connected examples.peerID
       stack.ControlPacketTooBig 0 (examples.datagram 0)
     = teststack.connected.
Proof.
  assert (Hr : reachable teststack.connected).
  { eapply reachable_step; [|apply step_Connect].
    exact (reachable_new testgroups.stack0 header.IPv4ProtocolNumber []). }
  assert (Hst : state teststack.connected = StateConnected)
    by (vm_compute; reflexivity).
  pose proof (only_connection_refused_is_latched teststack.connected Hr)
    as (_ & Hctl & _).
  split.
  - exact (proj1 (Hctl examples.peerID stack.ControlPortUnreachable 0
                    (examples.datagram 0)) eq_refl Hst).
  - apply (proj2 (Hctl examples.peerID stack.ControlPacketTooBig 0
                    (examples.datagram 0))).
    left. discriminate.
Defined.

Lemma Read_blocks_iff_not_ready_witness :
  rd_err (fst (Read examples.bound None)) = Some tcpip.ErrWouldBlock.
Proof.
  assert (Hr : reachable examples.bound).
  { eapply reachable_step; [|apply step_Bind].
    exact (reachable_new testgroups.stack0 header.IPv4ProtocolNumber []). }
  apply (Read_blocks_iff_not_ready examples.bound None Hr).
  split; vm_compute; reflexivity.
Defined.

Lemma GetLocalAddress_returns_witness :
  exists a, GetLocalAddress examples.bound = Ret (a, None) /\ tcpip.Port a = 5000.
Proof.
  assert (Hr : reachable examples.bound).
  { eapply reachable_step; [|apply step_Bind].
    exact (reachable_new testgroups.stack0 header.IPv4ProtocolNumber []). }
  destruct (GetLocalAddress_returns examples.bound Hr) as (a & Hg & _ & Hp & _).
  exists a. split; [exact Hg|]. rewrite Hp. vm_compute. reflexivity.
Defined.

Section ExplicitBindLost.

Context {Sigma : Type} {StackOps : stack.Ops Sigma} {StackGroupOps : GroupOps Sigma}.

Implicit Types (e : endpoint Sigma).

(** On every stack: an explicit [Bind] to a broadcast or multicast
    address that names no NIC leaves the bound NIC at zero with a non-empty
    local address, which is what the guard of [Disconnect] takes for an
    ephemeral bind; so after [Connect], [Disconnect] resets the endpoint to
    INITIAL with an empty identity instead of taking it back to BOUND. *)
Lemma multicast_bind_is_lost_on_disconnect e addr peer e1 e2 e3 :
  Bind e addr = (None, e1) ->
  let a := fst (fst (checkV4MappedLocked e addr)) in
  let netProto := snd (fst (checkV4MappedLocked e addr)) in
  tcpip.NIC a = 0 -> tcpip.Addr a <> [] ->
  isBroadcastOrMulticast e (tcpip.NIC a) netProto (tcpip.Addr a) = true ->
  Connect e1 peer = (None, e2) ->
  Disconnect e2 = Ret (None, e3) ->
  state e1 = StateBound /\ BindNICID e1 = 0
  /\ stack.LocalAddress (ID e1) = tcpip.Addr a
  /\ state e2 = StateConnected
  /\ state e3 = StateInitial /\ ID e3 = stack.TransportEndpointID_zero.
Proof.
  intros Hb a netProto Hnic Ha Hbm Hc Hd.
  pose proof (Bind_success_facts e addr e1 Hb) as F. cbv zeta in F.
  fold a in F. fold netProto in F.
  destruct F as (_ & Hs1 & _ & Hla & _ & _ & _ & _ & Hbn & Hrn & _).
  rewrite Hbm, andb_false_r in Hrn.
  assert (Hb1 : BindNICID e1 = 0) by congruence.
  pose proof (Connect_success_facts e1 peer e2 Hc)
    as (_ & _ & Hs2 & _ & _ & _ & _ & Hk & Hb2 & _).
  assert (Hni : state e1 <> StateInitial) by congruence.
  destruct (Hk Hni) as (Hla2 & _).
  destruct (Disconnect_success_cases e2 e3 Hs2 Hd) as (_ & _ & _ & _ & Hinit).
  destruct Hinit as (Hs3 & Hid3); [congruence|congruence|].
  repeat split; assumption.
Qed.

End ExplicitBindLost.

(** C1: the claim fails on the code.  A fresh endpoint is bound
    explicitly to 224.0.0.9, port 5000, on no particular NIC: the bind
    succeeds, the endpoint is BOUND, port 5000 is reserved, the bound NIC is
    zero and the local address is the (non-empty) group address.  It is
    then connected to 192.0.2.1 port 9.  [Disconnect] does not take it back
    to BOUND: it takes the branch written for ephemeral binds, releases
    port 5000 and leaves the endpoint INITIAL with an empty identity. *)
Theorem C1_explicit_multicast_bind_lost_on_disconnect :
  fst (Bind testgroups.fresh testgroups.group9Port5000) = None
  /\ state testgroups.boundToGroup = StateBound
  /\ BindNICID testgroups.boundToGroup = 0
  /\ stack.LocalAddress (ID testgroups.boundToGroup) = testgroups.group9
  /\ stack.LocalPort (ID testgroups.boundToGroup) = 5000
  /\ teststack.isReserved (stack.net (stack_ testgroups.boundToGroup)) 5000 = true
  /\ fst (Connect testgroups.boundToGroup teststack.peerV4) = None
  /\ state testgroups.groupConnected = StateConnected
  /\ stack.LocalAddress (ID testgroups.groupConnected) = testgroups.group9
  /\ stack.LocalPort (ID testgroups.groupConnected) = 5000
  /\ match Disconnect testgroups.groupConnected with
     | Ret (None, e) =>
         state e = StateInitial
         /\ ID e = stack.TransportEndpointID_zero
         /\ teststack.isReserved (stack.net (stack_ e)) 5000 = false
     | _ => False
     end.
Proof. vm_compute. repeat split. Qed.
